(** * The job-distribution engine of [scripts/spartan/World.py]

    A shallow embedding of the [World] class: the worker registry, the
    benchmark cache protocol, the initial job allocation and
    [optimize_jobs], followed by the properties of the distribution
    algorithm. The remaining entry points of [World] that the sources
    determine, and the status handler of [scripts/spartan/UI.py], come
    with properties of their own at the end.

    Conventions of the embedding.
    - Python object references to [Worker] objects are indices into the
      registry list [__workers], which only ever grows; [worker == other]
      is reference equality, hence equality of indices.
    - References to [Job] objects handed out by [realtime_jobs] are
      indices into [self.jobs]; a write through such a reference is an
      update of the list at that index.
    - Throughput and predicted seconds are Python floats; they are
      modelled as rationals, so rounding is not part of the model.
    - Exceptions are the [Raise] outcome; the one unbounded [while] loop
      takes fuel and answers [OutOfFuel] when it is exhausted.
    - [logger] calls of [optimize_jobs] only format text and are left
      out; those of [get_workers], [load_config] and [benchmark] are
      kept as an explicit log, and of the [speed_summary] that closes
      [benchmark] the [TypeError] it raises on a missing speed. *)

From Stdlib Require Import ZArith QArith Lia.
From stdpp Require Import base option list sorting gmap strings.

Local Open Scope Z_scope.

(** ** Outcomes of fallible code *)

Inductive exn : Type :=
  | IndexError
  | ZeroDivisionError
  | KeyError (key : string)
  | InvalidWorkerResponse
  | WorldAlreadyInitialized
  | TypeError.

Inductive outcome (A : Type) : Type :=
  | Ok (a : A)
  | Raise (e : exn)
  | OutOfFuel.

Arguments Ok {A} a.
Arguments Raise {A} e.
Arguments OutOfFuel {A}.

Definition obind {A B : Type} (m : outcome A) (k : A -> outcome B) : outcome B :=
  match m with
  | Ok a => k a
  | Raise e => Raise e
  | OutOfFuel => OutOfFuel
  end.

Global Instance outcome_ret : MRet outcome := fun A a => Ok a.
Global Instance outcome_bind : MBind outcome := fun A B k m => obind m k.

(** ** Python's stable sort

    [list.sort] and [sorted] only use [<] on the keys and keep elements
    with equal keys in their original order, also under [reverse=True].
    [before y x] says that [y] must come strictly before [x]. *)

Section StableSort.
Context {A : Type} (before : A -> A -> bool).

Fixpoint insert_stable (x : A) (l : list A) : list A :=
  match l with
  | [] => [x]
  | y :: ys => if before y x then y :: insert_stable x ys else x :: y :: ys
  end.

Definition sort_stable (l : list A) : list A := foldr insert_stable [] l.
End StableSort.

Definition Qlt_bool (x y : Q) : bool := negb (Qle_bool y x).

Definition sorted_Q {A : Type} (key : A -> Q) (reverse : bool) (l : list A) : list A :=
  sort_stable (fun a b => if reverse then Qlt_bool (key b) (key a)
                          else Qlt_bool (key a) (key b)) l.

Definition sorted_Z {A : Type} (key : A -> Z) (l : list A) : list A :=
  sort_stable (fun a b => key a <? key b) l.

(** [int(x)] on a float truncates toward zero. *)
Definition int_of_Q (q : Q) : Z := Z.quot (Qnum q) (Z.pos (Qden q)).

(** ** Data model *)

(** Modelled from the spec: the enumeration [State] of [Worker.py], which
    is not among the sources; [World.py] and [UI.py] name [UNAVAILABLE]
    and [WORKING], the specification lists Unavailable, Idle and
    Working. *)
Inductive State : Type := IDLE | WORKING | UNAVAILABLE.

Global Instance State_eq_dec : EqDecision State.
Proof. solve_decision. Defined.

(** Modelled from the spec: the fields of [class Worker] of [Worker.py]
    that [World.py] and [UI.py] read or write; [avg_ipm] is [None] until
    the worker is benchmarked. *)
Record Worker : Type := mkWorker {
  uuid : string;
  address : string;
  port : option Z;
  auth : option string;
  master : bool;
  avg_ipm : option Q;
  benchmarked : bool;
  state : State
}.

Definition set_avg_ipm (v : option Q) (w : Worker) : Worker :=
  {| uuid := uuid w; address := address w; port := port w; auth := auth w;
     master := master w; avg_ipm := v; benchmarked := benchmarked w;
     state := state w |}.

Definition set_benchmarked (b : bool) (w : Worker) : Worker :=
  {| uuid := uuid w; address := address w; port := port w; auth := auth w;
     master := master w; avg_ipm := avg_ipm w; benchmarked := b;
     state := state w |}.

(** [Worker(master=True)]: the local node, not yet benchmarked. *)
Definition new_master : Worker :=
  {| uuid := "master"; address := ""; port := None; auth := None;
     master := true; avg_ipm := None; benchmarked := false; state := IDLE |}.

Global Instance Worker_inhabited : Inhabited Worker := populate new_master.

(** [class Job]: [worker] is the reference to the owning [Worker]. *)
Record Job : Type := mkJob {
  worker : nat;
  batch_size : Z;
  complementary : bool
}.

(** [Job(worker, batch_size)] *)
Definition new_job (w : nat) (n : Z) : Job :=
  {| worker := w; batch_size := n; complementary := false |}.

Definition set_batch_size (n : Z) (j : Job) : Job :=
  {| worker := worker j; batch_size := n; complementary := complementary j |}.

Definition add_batch_size (n : Z) (j : Job) : Job :=
  set_batch_size (batch_size j + n) j.

Definition set_complementary (b : bool) (j : Job) : Job :=
  {| worker := worker j; batch_size := batch_size j; complementary := b |}.

(** The request payload: [batch_size] is what the algorithm reads and
    rewrites, [n_iter] only appears in the summary text. *)
Record Payload : Type := mkPayload {
  p_batch_size : Z;
  p_n_iter : Z
}.

Definition with_batch_size (n : Z) (p : Payload) : Payload :=
  {| p_batch_size := n; p_n_iter := p_n_iter p |}.

Inductive LogRecord : Type :=
  | LogError (msg : string)
  | LogWarning (msg : string)
  | LogInfo (msg : string)
  | LogDebug (msg : string).

(** [class World]; [workers] is [__workers] and index 0 is
    [master_worker]. *)
Record World : Type := mkWorld {
  total_batch_size : Z;
  workers : list Worker;
  jobs : list Job;
  job_timeout : Q;
  initialized : bool;
  verify_remotes : bool;
  thin_client_mode : bool
}.

(** [World.__init__] *)
Definition new_world (verify : bool) : World :=
  {| total_batch_size := 0; workers := [new_master]; jobs := [];
     job_timeout := 6; initialized := false; verify_remotes := verify;
     thin_client_mode := false |}.

Definition set_workers (ws : list Worker) (w : World) : World :=
  {| total_batch_size := total_batch_size w; workers := ws; jobs := jobs w;
     job_timeout := job_timeout w; initialized := initialized w;
     verify_remotes := verify_remotes w; thin_client_mode := thin_client_mode w |}.

Definition set_jobs (js : list Job) (w : World) : World :=
  {| total_batch_size := total_batch_size w; workers := workers w; jobs := js;
     job_timeout := job_timeout w; initialized := initialized w;
     verify_remotes := verify_remotes w; thin_client_mode := thin_client_mode w |}.

Definition set_total_batch_size (t : Z) (w : World) : World :=
  {| total_batch_size := t; workers := workers w; jobs := jobs w;
     job_timeout := job_timeout w; initialized := initialized w;
     verify_remotes := verify_remotes w; thin_client_mode := thin_client_mode w |}.

Definition set_initialized (b : bool) (w : World) : World :=
  {| total_batch_size := total_batch_size w; workers := workers w; jobs := jobs w;
     job_timeout := job_timeout w; initialized := b;
     verify_remotes := verify_remotes w; thin_client_mode := thin_client_mode w |}.

(** ** The scheduled workers *)

(** [worker.avg_ipm is not None and worker.avg_ipm <= 0] *)
Definition invalid_speed (w : Worker) : bool :=
  match avg_ipm w with
  | Some q => Qle_bool q 0
  | None => false
  end.

Definition invalid_speed_warning (w : Worker) : LogRecord :=
  LogWarning ("config reports invalid speed (0 ipm) for worker '" +:+ uuid w
              +:+ "', setting default of 1 ipm. please re-benchmark").

(** The loop of [get_workers] from registry index [i] on: the registry
    after the in-place repairs, the references collected in [filtered]
    and the warnings. *)
Fixpoint get_workers_from (thin : bool) (i : nat) (ws : list Worker)
  : list Worker * list nat * list LogRecord :=
  match ws with
  | [] => ([], [], [])
  | w :: rest =>
      let '(store, filtered, log) := get_workers_from thin (S i) rest in
      if invalid_speed w then
        (set_avg_ipm (Some 1%Q) w :: store, filtered, invalid_speed_warning w :: log)
      else if master w && thin then (w :: store, filtered, log)
      else if decide (state w <> UNAVAILABLE) then (w :: store, i :: filtered, log)
      else (w :: store, filtered, log)
  end.

(** [World.get_workers]: the world with the repaired registry, the
    references returned and the warnings logged. *)
Definition get_workers (w : World) : World * list nat * list LogRecord :=
  let '(store, filtered, log) := get_workers_from (thin_client_mode w) 0 (workers w) in
  (set_workers store w, filtered, log).

(** [World.size] *)
Definition size (w : World) : World * Z * list LogRecord :=
  let '(w', filtered, log) := get_workers w in
  (w', Z.of_nat (length filtered), log).

(** [World.default_batch_size] *)
Definition default_batch_size (w : World) : outcome (World * Z * list LogRecord) :=
  let '(w', n, log) := size w in
  if n =? 0 then Raise ZeroDivisionError
  else Ok (w', total_batch_size w' / n, log).

(** [World.update_jobs] *)
Definition update_jobs (w : World) : outcome (World * list LogRecord) :=
  let w0 := set_jobs [] w in
  '(w1, b, log1) ← default_batch_size w0;
  let '(w2, filtered, log2) := get_workers w1 in
  Ok (set_jobs (map (fun r => new_job r b) filtered) w2, log1 ++ log2).

(** [World.update_world] *)
Definition update_world (t : Z) (w : World) : outcome (World * list LogRecord) :=
  update_jobs (set_total_batch_size t w).

(** ** Real-time jobs *)

(** The test of [realtime_jobs] on one job: the worker is benchmarked,
    its speed is known and the job is not complementary. *)
Definition is_realtime (ws : list Worker) (j : Job) : bool :=
  let wk := ws !!! worker j in
  if negb (benchmarked wk) || negb (bool_decide (is_Some (avg_ipm wk))) then false
  else negb (complementary j).

(** [realtime_jobs] hands out references to the [Job] objects of
    [self.jobs]: each element is the index of the job together with the
    job as it is at the time of the call. *)
Fixpoint realtime_from (ws : list Worker) (i : nat) (js : list Job) : list (nat * Job) :=
  match js with
  | [] => []
  | j :: rest =>
      if is_realtime ws j then (i, j) :: realtime_from ws (S i) rest
      else realtime_from ws (S i) rest
  end.

Definition realtime_jobs (ws : list Worker) (js : list Job) : list (nat * Job) :=
  realtime_from ws 0 js.

(** The sort key [job.worker.avg_ipm]; inside [realtime_jobs] the speed
    is never [None]. *)
Definition ipm_key (ws : list Worker) (rj : nat * Job) : Q :=
  default 0%Q (avg_ipm (ws !!! worker rj.2)).

(** [sorted(...)[0]] *)
Definition first_of {A : Type} (l : list A) : outcome A :=
  match l with
  | [] => Raise IndexError
  | x :: _ => Ok x
  end.

Definition slowest_realtime_job (ws : list Worker) (js : list Job) : outcome (nat * Job) :=
  first_of (sorted_Q (ipm_key ws) false (realtime_jobs ws js)).

Definition fastest_realtime_job (ws : list Worker) (js : list Job) : outcome (nat * Job) :=
  first_of (sorted_Q (ipm_key ws) true (realtime_jobs ws js)).

(** [World.get_current_output_size] *)
Definition get_current_output_size (js : list Job) : Z :=
  foldl (fun n j => n + batch_size j) 0 js.

(** ** The distribution algorithm *)

Section Distribution.
(** [Worker.batch_eta(payload)], the predicted seconds for the payload
    on a worker. [Worker.py] is outside the sources at hand, so the
    predictor is a parameter; its [quiet] flag only silences output. *)
Context (batch_eta : Worker -> Payload -> Q).

(** [World.job_stall] *)
Definition job_stall (ws : list Worker) (js : list Job) (wref : nat) (p : Payload)
  : outcome Q :=
  f ← fastest_realtime_job ws js;
  let fastest_worker := worker f.2 in
  if decide (wref = fastest_worker) then Ok 0%Q
  else Ok (batch_eta (ws !!! wref) p - batch_eta (ws !!! fastest_worker) p)%Q.

(** [lag < self.job_timeout or lag == 0] *)
Definition within_tolerance (timeout lag : Q) : bool :=
  Qlt_bool lag timeout || Qeq_bool lag 0.

(** The first loop of [optimize_jobs]. [self.jobs] is [done ++ todo],
    the loop variable is the head of [todo]. *)
Fixpoint classify (ws : list Worker) (timeout : Q) (total : Z) (p : Payload)
    (done todo : list Job) (deferred_images images_checked : Z)
  : outcome (list Job * Z * Z) :=
  match todo with
  | [] => Ok (done, deferred_images, images_checked)
  | job :: rest =>
      lag ← job_stall ws (done ++ job :: rest) (worker job) p;
      if within_tolerance timeout lag then
        classify ws timeout total p
          (done ++ [set_batch_size (p_batch_size p) job]) rest
          deferred_images (images_checked + p_batch_size p)
      else
        let deferred' :=
          if deferred_images + images_checked + p_batch_size p >? total
          then deferred_images
          else deferred_images + p_batch_size p in
        classify ws timeout total p
          (done ++ [set_batch_size 0 (set_complementary true job)]) rest
          deferred' images_checked
  end.

(** Redistribution of the deferred images: [images_per_job] and the
    jobs after the writes through the real-time references. *)
Definition redistribute (ws : list Worker) (deferred_images : Z) (js : list Job)
  : outcome (option Z * list Job) :=
  if deferred_images >? 0 then
    let rt := realtime_jobs ws js in
    if Z.of_nat (length rt) =? 0 then Raise ZeroDivisionError
    else
      let images_per_job := deferred_images / Z.of_nat (length rt) in
      Ok (Some images_per_job,
          foldl (fun acc rj => alter (add_batch_size images_per_job) rj.1 acc) js rt)
  else Ok (None, js).

(** One [for job in realtime_jobs] pass of the round robin. *)
Fixpoint round_robin_pass (rt : list (nat * Job)) (remainder_images : Z) (js : list Job)
  : Z * list Job :=
  match rt with
  | [] => (remainder_images, js)
  | rj :: rest =>
      if remainder_images <? 1 then (remainder_images, js)
      else round_robin_pass rest (remainder_images - 1) (alter (add_batch_size 1) rj.1 js)
  end.

(** [while remainder_images >= 1] *)
Fixpoint round_robin (fuel : nat) (rt : list (nat * Job)) (remainder_images : Z)
    (js : list Job) : outcome (list Job) :=
  if remainder_images >=? 1 then
    match fuel with
    | O => OutOfFuel
    | S fuel' =>
        let '(remainder', js') := round_robin_pass rt remainder_images js in
        round_robin fuel' rt remainder' js'
    end
  else Ok js.

(** Remainder handling. *)
Definition handle_remainder (fuel : nat) (ws : list Worker) (total : Z) (js : list Job)
  : outcome (list Job) :=
  let remainder_images := total - get_current_output_size js in
  if remainder_images >=? 1 then
    let rt := sorted_Z (fun rj : nat * Job => batch_size rj.2) (realtime_jobs ws js) in
    round_robin fuel rt remainder_images js
  else Ok js.

(** [x / y] on floats *)
Definition float_div (x y : Q) : outcome Q :=
  if Qeq_bool y 0 then Raise ZeroDivisionError else Ok (x / y)%Q.

(** The number of images a complementary job is given. *)
Definition num_images_compensate (ws : list Worker) (js : list Job) (p : Payload)
    (images_per_job : option Z) (job : Job) : outcome Z :=
  slowest ← slowest_realtime_job ws js;
  let slack_time := batch_eta (ws !!! worker slowest.2) p in
  slack_time ←
    match images_per_job with
    | Some per =>
        unit_time ← float_div slack_time (inject_Z (p_batch_size p));
        Ok (slack_time + unit_time * inject_Z per)%Q
    | None => Ok slack_time
    end;
  let fake_payload := with_batch_size 1 p in
  let secs_per_batch_image := batch_eta (ws !!! worker job) fake_payload in
  ratio ← float_div slack_time secs_per_batch_image;
  Ok (int_of_Q ratio).

(** Complementary worker distribution, again over [done ++ todo]. *)
Fixpoint backfill (ws : list Worker) (p : Payload) (images_per_job : option Z)
    (done todo : list Job) : outcome (list Job) :=
  match todo with
  | [] => Ok done
  | job :: rest =>
      if complementary job then
        n ← num_images_compensate ws (done ++ job :: rest) p images_per_job job;
        backfill ws p images_per_job (done ++ [set_batch_size n job]) rest
      else backfill ws p images_per_job (done ++ [job]) rest
  end.

(** The pruning loop: [last] counts down to 1. *)
Fixpoint prune_from (last : nat) (js : list Job) : outcome (list Job) :=
  match last with
  | O => Ok js
  | S last' =>
      match js !! last with
      | None => Raise IndexError
      | Some job =>
          prune_from last' (if batch_size job <? 1 then delete last js else js)
      end
  end.

Definition prune (js : list Job) : outcome (list Job) :=
  prune_from (length js - 1) js.

(** The phases of [optimize_jobs] before the pruning loop. *)
Definition assign_jobs (fuel : nat) (w : World) (p : Payload) : outcome (list Job) :=
  let ws := workers w in
  '(js, deferred_images, _) ←
    classify ws (job_timeout w) (total_batch_size w) p [] (jobs w) 0 0;
  '(images_per_job, js) ← redistribute ws deferred_images js;
  js ← handle_remainder fuel ws (total_batch_size w) js;
  backfill ws p images_per_job [] js.

(** [World.optimize_jobs] *)
Definition optimize_jobs (fuel : nat) (w : World) (p : Payload) : outcome World :=
  js ← assign_jobs fuel w p;
  js ← prune js;
  Ok (set_jobs js w).

(** The request pipeline that the docstrings describe: the initial
    jobs of [update_world], then [optimize_jobs] on a payload whose
    batch size is [default_batch_size()]. *)
Definition distribute (fuel : nat) (total : Z) (p : Payload) (w : World) : outcome World :=
  '(w, _) ← update_world total w;
  '(w, b, _) ← default_batch_size w;
  optimize_jobs fuel w (with_batch_size b p).
End Distribution.

(** Modelled from the spec: [Worker.batch_eta] of [Worker.py], as the
    worked scenario fixes it: [n] images at [r] ipm take [n / r * 60]
    seconds. *)
Definition eta_by_ipm (w : Worker) (p : Payload) : Q :=
  (inject_Z (p_batch_size p) / default 0 (avg_ipm w) * 60)%Q.

Module Scenario.
Definition remote (name : string) (ipm : Q) : Worker :=
  {| uuid := name; address := name; port := None; auth := None;
     master := false; avg_ipm := Some ipm; benchmarked := true; state := IDLE |}.

Definition local (ipm : Q) : Worker :=
  set_benchmarked true (set_avg_ipm (Some ipm) new_master).

Definition fleet (ws : list Worker) : World :=
  set_workers ws (new_world true).

Definition request : Payload := {| p_batch_size := 1; p_n_iter := 1 |}.

(** master 60 ipm, A 60 ipm, B 6 ipm *)
Definition three_nodes : World := fleet [local 60; remote "A" 60; remote "B" 6].

(** Three workers of the same speed. *)
Definition three_equals : World := fleet [local 60; remote "A" 60; remote "B" 60].
End Scenario.

(** ** Loading the node registry *)

(** One JSON object of the registry document; any key may be missing. *)
Record Entry : Type := mkEntry {
  e_uuid : option string;
  e_address : option string;
  e_port : option Z;
  e_auth : option string;
  e_use_https : option bool
}.

Definition set_e_address (a : string) (e : Entry) : Entry :=
  {| e_uuid := e_uuid e; e_address := Some a; e_port := e_port e;
     e_auth := e_auth e; e_use_https := e_use_https e |}.

(** What [load_config] finds at [config_path]. *)
Inductive ConfigSource : Type :=
  | NoConfigPath
  | ConfigNotFound (path : string)
  | ConfigNotJson (path : string)
  | ConfigDocument (entries : list Entry).

(** [worker['key']] *)
Definition subscript {A : Type} (key : string) (field : option A) : outcome A :=
  match field with
  | Some v => Ok v
  | None => Raise (KeyError key)
  end.

Section Registry.
(** Modelled from the spec: the constructor [Worker(uuid, address,
    port, verify_remotes, auth)] of [Worker.py], which is outside the
    sources at hand. It either yields the new worker or fails the
    identity check, [None], which raises [InvalidWorkerResponse]. *)
Context (new_worker : string -> string -> option Z -> bool -> option string
                      -> option Worker).

(** [World.add_worker] *)
Definition add_worker (w : World) (id addr : string) (prt : option Z) (au : option string)
  : outcome World :=
  match new_worker id addr prt (verify_remotes w) au with
  | Some wk => Ok (set_workers (workers w ++ [wk]) w)
  | None => Raise InvalidWorkerResponse
  end.

(** The body of [for worker in workers] for one entry: the world and
    the log after it, and the exception that leaves the loop, if any. *)
Definition load_entry (w : World) (e : Entry) : World * list LogRecord * option exn :=
  let use_https := default false (e_use_https e) in
  let rewritten :=
    if use_https then
      a ← subscript "address" (e_address e);
      Ok (set_e_address ("https://" +:+ a) e)
    else Ok e in
  match rewritten with
  | Ok e =>
      match
        (id ← subscript "uuid" (e_uuid e);
         a ← subscript "address" (e_address e);
         add_worker w id a (e_port e) (e_auth e))
      with
      | Ok w' => (w', [], None)
      | Raise InvalidWorkerResponse =>
          (w, [LogError ("worker '" +:+ default "" (e_uuid e) +:+ "' is not a valid worker")],
           None)
      | Raise ex => (w, [], Some ex)
      | OutOfFuel => (w, [], None)
      end
  | Raise ex => (w, [], Some ex)
  | OutOfFuel => (w, [], None)
  end.

Fixpoint load_entries (w : World) (entries : list Entry)
  : World * list LogRecord * option exn :=
  match entries with
  | [] => (w, [], None)
  | e :: rest =>
      match load_entry w e with
      | (w', log, None) =>
          let '(w'', log', r) := load_entries w' rest in (w'', log ++ log', r)
      | (w', log, Some ex) => (w', log, Some ex)
      end
  end.

(** [World.load_config] *)
Definition load_config (src : ConfigSource) (w : World)
  : World * list LogRecord * option exn :=
  match src with
  | NoConfigPath => (w, [], None)
  | ConfigNotFound path =>
      (w, [LogError ("config file '" +:+ path +:+ "' not found")], None)
  | ConfigNotJson path =>
      (w, [LogError ("config file '" +:+ path +:+ "' is not valid JSON")], None)
  | ConfigDocument entries => load_entries w entries
  end.
End Registry.

(** ** Benchmarking *)

(** [workers.json]: absent, unparsable, or a document that maps a uuid to
    the [avg_ipm] of its entry. *)
Inductive CacheFile : Type :=
  | CacheAbsent
  | CacheNotJson
  | CacheDocument (info : gmap string (option Q)).

(** [os.path.exists(self.worker_info_path)] *)
Definition cache_exists (c : CacheFile) : bool :=
  match c with
  | CacheAbsent => false
  | _ => true
  end.

Definition cache_info (c : CacheFile) : gmap string (option Q) :=
  match c with
  | CacheDocument info => info
  | _ => ∅
  end.

Section Benchmark.
(** [worker.benchmark()] and [benchmark_master()]: the measured speed
    of a worker, [None] when the measurement dies in its thread. The
    threads write disjoint workers and are joined before anything is
    read, so they are run one after the other. *)
Context (measure : Worker -> option Q).

(** [benchmark_wrapped] on the worker behind a reference *)
Definition benchmark_wrapped (ws : list Worker) (r : nat) : list Worker :=
  match measure (ws !!! r) with
  | Some ipm => alter (fun wk => set_benchmarked true (set_avg_ipm (Some ipm) wk)) r ws
  | None => ws
  end.

(** The loop that loads the saved speeds: the registry after it and
    the references appended to [unbenched_workers]. *)
Fixpoint load_saved (info : gmap string (option Q)) (ws : list Worker) (refs : list nat)
  : list Worker * list nat * list LogRecord :=
  match refs with
  | [] => (ws, [], [])
  | r :: rest =>
      let wk := ws !!! r in
      match info !! uuid wk with
      | Some ipm =>
          load_saved info
            (alter (fun wk => set_benchmarked true (set_avg_ipm ipm wk)) r ws) rest
      | None =>
          let '(ws', unbenched, log) := load_saved info ws rest in
          (ws', r :: unbenched,
           LogDebug ("worker '" +:+ uuid wk +:+ "' not found in workers.json") :: log)
      end
  end.

(** [workers_info.update(worker.info())] for every unbenched worker.
    Modelled from the spec: [Worker.info] is not among the sources; by
    the cache format it yields the entry of the worker, its uuid
    mapped to its [avg_ipm]. *)
Definition record_results (ws : list Worker) (refs : list nat)
    (info : gmap string (option Q)) : gmap string (option Q) :=
  foldl (fun acc r => <[uuid (ws !!! r) := avg_ipm (ws !!! r)]> acc) info refs.

(** [workers_info.update({'benchmark_payload': benchmark_payload})], the
    last write before the dump: whatever entry stood under the key
    ["benchmark_payload"], also the entry of a worker of that uuid, is
    replaced by the payload. Modelled from the spec: [benchmark_payload]
    is not among the sources; by the cache format it holds the
    parameters of the canonical workload and no [avg_ipm], so reading a
    speed under that key fails with the [KeyError] of a missing uuid.
    In the map of speeds the key is therefore taken out. *)
Definition record_payload (info : gmap string (option Q)) : gmap string (option Q) :=
  delete "benchmark_payload" info.

(** [World.speed_summary]: the text is left out, the failure is kept.
    The sort on [avg_ipm], the sum [total_ipm += worker.avg_ipm] and the
    format [{worker.avg_ipm:.2f}] all raise [TypeError] on a speed of
    [None], and the sum and the format read every registered worker. *)
Definition speed_summary (ws : list Worker) : outcome unit :=
  if forallb (fun wk => bool_decide (is_Some (avg_ipm wk))) ws then Ok ()
  else Raise TypeError.

(** [World.benchmark]: the world, the cache file and the log that the
    call leaves behind, whether it returns or ends in the exception of
    the closing [logger.info(self.speed_summary())], which
    [benchmark_raises] below gives. *)
Definition benchmark (rebenchmark : bool) (cache : CacheFile) (w : World)
  : World * CacheFile * list LogRecord :=
  let saved := cache_exists cache in
  (* if rebenchmark *)
  let '(saved, w, log0) :=
    if rebenchmark then
      let '(w, refs, log) := get_workers w in
      (false,
       set_workers (foldl (fun ws r => alter (set_benchmarked false) r ws) (workers w) refs) w,
       log)
    else (saved, w, []) in
  (* if saved: read workers.json *)
  let '(rebenchmark, w, log1) :=
    if saved then
      match cache with
      | CacheNotJson =>
          let '(w, _, log) := get_workers w in
          (true, w, LogError "workers.json is not valid JSON, regenerating" :: log)
      | _ => (rebenchmark, w, [])
      end
    else (rebenchmark, w, []) in
  (* workers_info stays empty unless the file was read *)
  let workers_info := if saved then cache_info cache else ∅ in
  if saved && negb rebenchmark then
    let '(w, refs, log2) := get_workers w in
    let '(ws, _, log3) := load_saved workers_info (workers w) refs in
    (set_workers ws w, cache, log0 ++ log1 ++ log2 ++ log3)
  else
    let '(w, unbenched_workers, log2) := get_workers w in
    let ws := foldl benchmark_wrapped (workers w) unbenched_workers in
    let cache' :=
      if bool_decide (0 < length unbenched_workers)%nat
      then CacheDocument
             (record_payload (record_results ws unbenched_workers workers_info))
      else cache in
    (set_workers ws w, cache', log0 ++ log1 ++ log2).

(** The exception a call of [World.benchmark] ends with, [None] when it
    returns. The branch of the saved speeds returns before the summary
    (on a cache that parses and without a forced re-benchmark); every
    other call ends with [speed_summary] on the registry it leaves. *)
Definition benchmark_raises (rebenchmark : bool) (cache : CacheFile) (w : World)
  : option exn :=
  match rebenchmark, cache with
  | false, CacheDocument _ => None
  | _, _ =>
      match speed_summary (workers (benchmark rebenchmark cache w).1.1) with
      | Raise e => Some e
      | _ => None
      end
  end.
End Benchmark.

(** ** Specification vocabulary *)

(** A job that has work: at least one image. *)
Definition has_work (j : Job) : Prop := 1 <= batch_size j.

Global Instance has_work_dec (j : Job) : Decision (has_work j).
Proof. unfold has_work. apply _. Defined.

(** Pruning as a filter: every job without work is dropped, except a
    job of the master. *)
Definition pruned_except_master (ws : list Worker) (js : list Job) : list Job :=
  filter (fun j => has_work j \/ master (ws !!! worker j) = true) js.

(** The condition under which [get_workers] returns a worker. *)
Definition scheduled (thin : bool) (wk : Worker) : bool :=
  negb (invalid_speed wk) && negb (master wk && thin)
  && bool_decide (state wk <> UNAVAILABLE).

(** The in-place repair of [get_workers]. *)
Definition repaired (wk : Worker) : Worker :=
  if invalid_speed wk then set_avg_ipm (Some 1%Q) wk else wk.

Definition set_thin_client_mode (b : bool) (w : World) : World :=
  {| total_batch_size := total_batch_size w; workers := workers w; jobs := jobs w;
     job_timeout := job_timeout w; initialized := initialized w;
     verify_remotes := verify_remotes w; thin_client_mode := b |}.

Module Examples.
Import Scenario.

(** A pure dispatcher in front of a slow and a fast remote. *)
Definition thin_client : World :=
  set_thin_client_mode true (fleet [local 60; remote "A" 6; remote "B" 60]).

(** A remote whose stored speed is 0. *)
Definition stale_speed : World := fleet [local 60; remote "A" 0].

(** No job at all, one image requested. *)
Definition no_jobs : World := set_total_batch_size 1 (new_world true).
End Examples.

(** ** Specification of the registry loader *)

(** An entry that carries the two keys [load_config] subscripts. *)
Definition well_keyed (e : Entry) : Prop :=
  is_Some (e_uuid e) /\ is_Some (e_address e).

(** The address handed to the constructor. *)
Definition entry_address (e : Entry) : string :=
  if default false (e_use_https e)
  then "https://" +:+ default "" (e_address e)
  else default "" (e_address e).

(** The registration of one entry: the worker, or [None] when the
    constructor rejects it. *)
Definition entry_worker
    (new_worker : string -> string -> option Z -> bool -> option string -> option Worker)
    (verify : bool) (e : Entry) : option Worker :=
  new_worker (default "" (e_uuid e)) (entry_address e) (e_port e) verify (e_auth e).

(** The error logged for an entry that the constructor rejects. *)
Definition entry_rejection
    (new_worker : string -> string -> option Z -> bool -> option string -> option Worker)
    (verify : bool) (e : Entry) : option LogRecord :=
  match entry_worker new_worker verify e with
  | Some _ => None
  | None => Some (LogError ("worker '" +:+ default "" (e_uuid e) +:+ "' is not a valid worker"))
  end.

Module RegistryExamples.
(** A constructor that accepts every node but the one called "bad". *)
Definition accept_but_bad (id addr : string) (prt : option Z) (verify : bool)
    (au : option string) : option Worker :=
  if bool_decide (id = "bad") then None
  else Some {| uuid := id; address := addr; port := prt; auth := au;
               master := false; avg_ipm := None; benchmarked := false; state := IDLE |}.

Definition entry (id addr : string) : Entry :=
  {| e_uuid := Some id; e_address := Some addr; e_port := None;
     e_auth := None; e_use_https := None |}.

(** An entry without the [uuid] key. *)
Definition nameless (addr : string) : Entry :=
  {| e_uuid := None; e_address := Some addr; e_port := None;
     e_auth := None; e_use_https := None |}.

Definition mixed_document : list Entry :=
  [entry "n1" "10.0.0.1"; entry "bad" "10.0.0.2"; entry "n3" "10.0.0.3"].

Definition broken_document : list Entry :=
  [entry "n1" "10.0.0.1"; nameless "10.0.0.2"; entry "n3" "10.0.0.3"].
End RegistryExamples.

Module BenchmarkExamples.
(** Every measurement yields 30 ipm. *)
Definition measure_30 (wk : Worker) : option Q := Some 30%Q.

Definition fresh_remote (name : string) : Worker :=
  {| uuid := name; address := name; port := None; auth := None;
     master := false; avg_ipm := None; benchmarked := false; state := IDLE |}.

(** The master and a remote "A", neither benchmarked yet. *)
Definition two_nodes : World := Scenario.fleet [new_master; fresh_remote "A"].

(** A valid cache that only knows the master. *)
Definition master_only : gmap string (option Q) := {[ "master" := Some 60%Q ]}.
End BenchmarkExamples.

(** ** Vocabulary of the distribution proofs *)

(** The head of a stable sort, computed directly: an element gives way
    to a later one only if the later one must come strictly before it. *)
Fixpoint first_best {A : Type} (before : A -> A -> bool) (l : list A) : option A :=
  match l with
  | [] => None
  | x :: rest =>
      match first_best before rest with
      | None => Some x
      | Some y => if before y x then Some y else Some x
      end
  end.

(** Descending order on a key, as [sorted(..., reverse=True)] has it. *)
Definition descending {A : Type} (key : A -> Q) (a b : A) : bool :=
  Qlt_bool (key b) (key a).

(** The speed two real-time jobs are compared by. *)
Definition speed (ws : list Worker) (r : nat) : Q := default 0%Q (avg_ipm (ws !!! r)).

(** [faster ws a b]: worker [a] is strictly faster than worker [b]. *)
Definition faster (ws : list Worker) (a b : nat) : bool := Qlt_bool (speed ws b) (speed ws a).

(** The owners of the real-time jobs, in job order. *)
Definition rt_workers (ws : list Worker) (js : list Job) : list nat :=
  worker <$> filter (fun j => is_realtime ws j = true) js.

(** The worker [fastest_realtime_job] designates. *)
Definition fastest_worker (ws : list Worker) (js : list Job) : option nat :=
  first_best (faster ws) (rt_workers ws js).

(** The image counts of the real-time jobs, in job order. *)
Definition rt_counts (ws : list Worker) (js : list Job) : list Z :=
  batch_size <$> filter (fun j => is_realtime ws j = true) js.

(** The two writes of the classification loop. *)
Definition keep_job (b : Z) (j : Job) : Job := set_batch_size b j.

Definition defer_job (j : Job) : Job := set_batch_size 0 (set_complementary true j).

(** The test of the classification loop on the worker behind [r], when
    [f] is the fastest worker. *)
Definition tolerated (batch_eta : Worker -> Payload -> Q) (ws : list Worker)
    (timeout : Q) (p : Payload) (f r : nat) : bool :=
  within_tolerance timeout (batch_eta (ws !!! r) p - batch_eta (ws !!! f) p)%Q.

(** What the classification loop may do to one job: keep it, or defer it
    when its worker is not the fastest worker [f] and fails the test. *)
Definition classified (test : nat -> bool) (f : nat) (b : Z) (j j1 : Job) : Prop :=
  j1 = keep_job b j \/ (worker j <> f /\ test (worker j) = false /\ j1 = defer_job j).

Module MoreExamples.
Import Scenario.

(** A slow master in front of two equally fast remotes, with the
    initial jobs of a request for 9 images. *)
Definition unequal_fleet : World :=
  set_jobs [new_job 0 3; new_job 1 3; new_job 2 3]
    (set_total_batch_size 9 (fleet [local 6; remote "A" 60; remote "B" 60])).

(** master 60 ipm, A 60 ipm, B 20 ipm *)
Definition middling : World := fleet [local 60; remote "A" 60; remote "B" 20].

(** [middling] with a registered remote that is unreachable, never
    benchmarked and of unknown speed. *)
Definition with_offline : World :=
  fleet [local 60; remote "A" 60; remote "B" 20;
         {| uuid := "C"; address := "C"; port := None; auth := None; master := false;
            avg_ipm := None; benchmarked := false; state := UNAVAILABLE |}].

(** [three_nodes] with the initial jobs of a request for 9 images. *)
Definition nine_images : World :=
  set_jobs [new_job 0 3; new_job 1 3; new_job 2 3]
    (set_total_batch_size 9 three_nodes).

(** [three_equals] with the initial jobs of a request for 5 images. *)
Definition five_images : World :=
  set_jobs [new_job 0 1; new_job 1 1; new_job 2 1]
    (set_total_batch_size 5 three_equals).

End MoreExamples.

(** A write through a real-time reference only ever raises the image
    count of a real-time job. *)
Definition topped_up (ws : list Worker) (j j' : Job) : Prop :=
  worker j' = worker j
  /\ complementary j' = complementary j
  /\ (is_realtime ws j = false -> batch_size j' = batch_size j)
  /\ batch_size j <= batch_size j'.

(** Every real-time job gets [n] more images. *)
Definition raise_realtime (ws : list Worker) (n : Z) (js : list Job) : list Job :=
  (fun j => if is_realtime ws j then add_batch_size n j else j) <$> js.

(** The first [n] real-time jobs get one more image. *)
Fixpoint bump_realtime (ws : list Worker) (n : nat) (js : list Job) : list Job :=
  match js with
  | [] => []
  | j :: rest =>
      if is_realtime ws j then
        match n with
        | O => j :: rest
        | S n' => add_batch_size 1 j :: bump_realtime ws n' rest
        end
      else j :: bump_realtime ws n rest
  end.

(** Counts that are balanced and front-loaded: the first [k] are one
    above the others. *)
Definition stepped (cs : list Z) : Prop :=
  exists (k : nat) (c : Z),
    (k <= length cs)%nat /\ cs = replicate k (c + 1) ++ replicate (length cs - k) c.

(** The backfill only rewrites the image count of complementary jobs. *)
Definition backfilled (j j' : Job) : Prop :=
  worker j' = worker j
  /\ complementary j' = complementary j
  /\ (complementary j = false -> j' = j).

(** The images of the jobs that are not complementary. *)
Definition realtime_output_size (js : list Job) : Z :=
  get_current_output_size (filter (fun j => complementary j = false) js).

(** The images of the complementary jobs. *)
Definition complementary_output_size (js : list Job) : Z :=
  get_current_output_size (filter (fun j => complementary j = true) js).

(** A worker the real-time tier can reason about. *)
Definition benchmarked_positive (wk : Worker) : Prop :=
  benchmarked wk = true /\ exists q : Q, avg_ipm wk = Some q /\ (0 < q)%Q.

(** The references [get_workers] returns on a world. *)
Definition scheduled_refs (w : World) : list nat :=
  (get_workers_from (thin_client_mode w) 0 (workers w)).1.2.

(** A worker that neither its liveness nor the thin-client mode keeps
    out of the schedule. *)
Definition eligible (thin : bool) (wk : Worker) : bool :=
  negb (master wk && thin) && bool_decide (state wk <> UNAVAILABLE).

(** The world [update_world] leaves when every eligible worker has a
    valid speed: the registry is repaired and there is one job of
    [total // size()] images per scheduled worker. *)
Definition initial_world (total : Z) (w : World) : World :=
  set_jobs
    ((fun r => new_job r (total / Z.of_nat (length (scheduled_refs w)))) <$> scheduled_refs w)
    (set_workers (map repaired (workers w)) (set_jobs [] (set_total_batch_size total w))).

(** What the conservation proof needs of an initial job: it is not
    complementary, carries the baseline [b], and its worker is
    benchmarked with a positive speed and a one-image prediction that is
    not zero. *)
Definition baseline_job (batch_eta : Worker -> Payload -> Q) (ws : list Worker)
    (p : Payload) (j : Job) : Prop :=
  complementary j = false
  /\ batch_size j = p_batch_size p
  /\ benchmarked_positive (ws !!! worker j)
  /\ ~ (batch_eta (ws !!! worker j) (with_batch_size 1 p) == 0)%Q.

(** ** Vocabulary of the two-run comparison *)

(** What scheduling reads of a worker. *)
Definition sched_view (wk : Worker) : bool * option Q * bool * State :=
  (master wk, avg_ipm wk, benchmarked wk, state wk).

(** Two registries that agree, entry by entry, on what scheduling reads. *)
Definition agree (ws1 ws2 : list Worker) : Prop :=
  Forall2 (fun a b => sched_view a = sched_view b) ws1 ws2.

(** Two fleets that agree on the registry, the thin-client mode and the
    stall tolerance; names, addresses, credentials, earlier jobs and the
    earlier total may differ. *)
Definition same_fleet (w1 w2 : World) : Prop :=
  agree (workers w1) (workers w2)
  /\ thin_client_mode w1 = thin_client_mode w2
  /\ job_timeout w1 = job_timeout w2.

(** Two fleets that agree on the inputs C9 names: the ipm values, the
    liveness states and the stall tolerance. *)
Definition same_claimed_inputs (w1 w2 : World) : Prop :=
  avg_ipm <$> workers w1 = avg_ipm <$> workers w2
  /\ state <$> workers w1 = state <$> workers w2
  /\ job_timeout w1 = job_timeout w2.

(** A predictor that only reads the speed of the worker. *)
Definition reads_speed_only (batch_eta : Worker -> Payload -> Q) : Prop :=
  forall (wk wk' : Worker) (p : Payload),
    avg_ipm wk = avg_ipm wk' -> batch_eta wk p = batch_eta wk' p.

(** The final job list of a run. *)
Definition final_jobs (r : outcome World) : outcome (list Job) :=
  w ← r; Ok (jobs w).

(** Outcomes related by [R] on results, equal on failures. *)
Definition outcome_rel {A B : Type} (R : A -> B -> Prop)
    (o1 : outcome A) (o2 : outcome B) : Prop :=
  match o1, o2 with
  | Ok a, Ok b => R a b
  | Raise e1, Raise e2 => e1 = e2
  | OutOfFuel, OutOfFuel => True
  | _, _ => False
  end.

(** Two fleets that agree and hold the same jobs and the same total. *)
Definition same_state (w1 w2 : World) : Prop :=
  same_fleet w1 w2
  /\ jobs w1 = jobs w2
  /\ total_batch_size w1 = total_batch_size w2.

Module FlagExamples.
Import Scenario.

(** Three workers of 60 ipm, all idle. *)
Definition all_benchmarked : World := three_equals.

(** The same fleet after a measurement of "A" died: same speeds, same
    liveness, but "A" is not flagged as benchmarked. *)
Definition one_unflagged : World :=
  fleet [local 60; set_benchmarked false (remote "A" 60); remote "B" 60].

(** [three_nodes] under other names and addresses, with stale jobs and a
    stale total left over from an earlier request. *)
Definition renamed_nodes : World :=
  set_jobs [new_job 2 7]
    (set_total_batch_size 7
       (fleet [local 60;
               {| uuid := "east"; address := "10.0.0.7"; port := Some 7860;
                  auth := Some "user:secret"; master := false; avg_ipm := Some 60%Q;
                  benchmarked := true; state := IDLE |};
               remote "west" 6])).
End FlagExamples.

(** Two job lists with the same owners and the same complementary
    flags, position by position. *)
Definition same_flags (js js' : list Job) : Prop :=
  Forall2 (fun j j' => worker j' = worker j /\ complementary j' = complementary j) js js'.

(** ** Further entry points of [World] *)

(** [World.master_job]: the first job whose worker is the master.
    [None] is the [Exception("Master job not found")] the search ends
    with. *)
Fixpoint master_job (ws : list Worker) (js : list Job) : option Job :=
  match js with
  | [] => None
  | job :: rest => if master (ws !!! worker job) then Some job else master_job ws rest
  end.

(** The loop shared by [interrupt_remotes] and [refresh_checkpoints]:
    the references of the workers a thread is started for. The threads
    are not joined and what they send is outside [World.py]. *)
Definition remote_threads (ws : list Worker) (filtered : list nat) : list nat :=
  filter (fun r => master (ws !!! r) = false) filtered.

(** [World.interrupt_remotes] *)
Definition interrupt_remotes (w : World) : World * list nat * list LogRecord :=
  let '(w', filtered, log) := get_workers w in
  (w', remote_threads (workers w') filtered, log).

(** [World.refresh_checkpoints] *)
Definition refresh_checkpoints (w : World) : World * list nat * list LogRecord :=
  let '(w', filtered, log) := get_workers w in
  (w', remote_threads (workers w') filtered, log).

Section Initialize.
Context (measure : Worker -> option Q).

(** [World.initialize] *)
Definition initialize (cache : CacheFile) (total : Z) (w : World)
  : outcome (World * CacheFile * list LogRecord) :=
  if initialized w then Raise WorldAlreadyInitialized
  else
    let '(w1, cache1, log) := benchmark measure false cache w in
    match benchmark_raises measure false cache w with
    | Some e => Raise e
    | None =>
        '(w2, log') ← update_world total w1;
        Ok (set_initialized true w2, cache1, log ++ log')
    end.
End Initialize.

(** What [benchmark_wrapped] leaves of a worker. *)
Definition measured (measure : Worker -> option Q) (wk : Worker) : Worker :=
  match measure wk with
  | Some ipm => set_benchmarked true (set_avg_ipm (Some ipm) wk)
  | None => wk
  end.

(** The key whose subscript fails first on an entry that is not well
    keyed: the address when it is to be rewritten, else the uuid, else
    the address. *)
Definition first_missing_key (e : Entry) : string :=
  if default false (e_use_https e) && negb (bool_decide (is_Some (e_address e)))
  then "address"
  else if bool_decide (is_Some (e_uuid e)) then "address" else "uuid".

(** A job is only ever made complementary, never real-time again. *)
Definition flag_kept (j j' : Job) : Prop :=
  worker j' = worker j /\ (complementary j = true -> complementary j' = true).


(** A worker that came out of the constructor under the flag [verify]. *)
Definition constructed
    (new_worker : string -> string -> option Z -> bool -> option string -> option Worker)
    (verify : bool) (wk : Worker) : Prop :=
  exists (id addr : string) (prt : option Z) (au : option string),
    new_worker id addr prt verify au = Some wk.

(** The two predictions the backfill reads of the worker behind [r] are
    not negative: the one for the payload and the one for one image. *)
Definition predictions_nonneg (batch_eta : Worker -> Payload -> Q) (ws : list Worker)
    (p : Payload) (r : nat) : Prop :=
  (0 <= batch_eta (ws !!! r) p)%Q /\ (0 <= batch_eta (ws !!! r) (with_batch_size 1 p))%Q.
(** ** The status panel of [UI.py] *)

(** Modelled from the spec: [State.name], the name of the member of the
    enumeration of [Worker.py]. *)
Definition state_name (s : State) : string :=
  match s with
  | IDLE => "IDLE"
  | WORKING => "WORKING"
  | UNAVAILABLE => "UNAVAILABLE"
  end.

(** The line feed that ends a line. *)
Definition newline : string :=
  String (Ascii.Ascii false true false true false false false false) "".

(** The line of [status_btn] for one worker. *)
Definition status_line (wk : Worker) : string :=
  uuid wk +:+ " at " +:+ address wk +:+ " is " +:+ state_name (state wk) +:+ newline.

Section StatusPanel.
(** [World.__str__], the text of the job list. [Job.__str__] prints the
    float [avg_ipm], whose text is outside the model, so the text of the
    world is a parameter. *)
Context (world_str : World -> string).

(** [UI.status_btn]: the world after [get_workers], the pair of texts
    returned and the warnings logged. *)
Definition status_btn (w : World) : World * (string * string) * list LogRecord :=
  let '(w', filtered, log) := get_workers w in
  let worker_status :=
    foldl (fun acc r => if master (workers w' !!! r) then acc
                        else acc +:+ status_line (workers w' !!! r)) "" filtered in
  if existsb (fun r => bool_decide (state (workers w' !!! r) = WORKING)) filtered
  then (w', (world_str w', worker_status), log)
  else (w', ("No active jobs!", worker_status), log).
End StatusPanel.

(** * Properties *)

(** ** The pruning loop *)

Lemma prune_from_tail (tl : list Job) :
  forall (j0 : Job) (kept : list Job),
    prune_from (length tl) (j0 :: tl ++ kept) = Ok (j0 :: filter has_work tl ++ kept).
Proof.
  induction tl as [|x tl IH] using rev_ind; intros j0 kept.
  - reflexivity.
  - rewrite length_app, Nat.add_1_r. cbn [prune_from].
    assert (Hx : (j0 :: (tl ++ [x]) ++ kept) !! S (length tl) = Some x).
    { rewrite <- app_assoc. change (j0 :: tl ++ [x] ++ kept) with ((j0 :: tl) ++ x :: kept).
      by apply list_lookup_middle. }
    rewrite Hx. rewrite filter_app.
    assert (Hdel : delete (S (length tl)) (j0 :: (tl ++ [x]) ++ kept) = j0 :: tl ++ kept).
    { rewrite <- app_assoc. change (j0 :: tl ++ [x] ++ kept) with ((j0 :: tl) ++ x :: kept).
      change (S (length tl)) with (length (j0 :: tl)). by rewrite delete_middle. }
    destruct (Z.ltb_spec (batch_size x) 1) as [Hlt|Hge].
    + rewrite Hdel, IH. rewrite filter_cons_False by (unfold has_work; lia).
      rewrite filter_nil, app_nil_r. reflexivity.
    + rewrite <- app_assoc. rewrite IH.
      rewrite filter_cons_True by (unfold has_work; lia).
      rewrite filter_nil. rewrite <- app_assoc. reflexivity.
Qed.

Lemma prune_cons (j0 : Job) (tl : list Job) :
  prune (j0 :: tl) = Ok (j0 :: filter has_work tl).
Proof.
  unfold prune. cbn [length]. rewrite Nat.sub_1_r. cbn [Nat.pred].
  pose proof (prune_from_tail tl j0 []) as H.
  by rewrite !app_nil_r in H.
Qed.

(** When the job at index 0 is the master's and no other job is, the
    loop is the filter of the specification. *)
Lemma prune_with_master_first (ws : list Worker) (j0 : Job) (tl : list Job) :
  master (ws !!! worker j0) = true ->
  Forall (fun j => master (ws !!! worker j) = false) tl ->
  prune (j0 :: tl) = Ok (pruned_except_master ws (j0 :: tl)).
Proof.
  intros Hm Htl. rewrite prune_cons. unfold pruned_except_master.
  rewrite filter_cons_True by (by right). do 2 f_equal.
  induction Htl as [|j tl Hj Htl IH]; [reflexivity|].
  destruct (decide (has_work j)) as [Hw|Hw].
  - rewrite !filter_cons_True by (try left; done). by rewrite IH.
  - rewrite !filter_cons_False; [done| |done].
    intros [?|?]; [done|congruence].
Qed.

(** The pruning loop never fails; it keeps the job at index 0 in place
    and removes from the later positions exactly the jobs whose image
    count is below 1. *)
Lemma prune_keeps_first_and_jobs_with_work (js : list Job) :
  prune js = Ok (take 1 js ++ filter has_work (drop 1 js)).
Proof.
  destruct js as [|j0 tl]; [reflexivity|].
  rewrite prune_cons. cbn. by rewrite drop_0.
Qed.

(** C7, the claim as stated fails: behind a thin client the first job is
    a remote's; it ends with no image and is complementary, and the
    pruning loop keeps it. *)
Lemma prune_keeps_idle_remote_of_thin_client :
  exists (w : World) (js : list Job),
    update_world 6 Examples.thin_client = Ok (w, [])
    /\ assign_jobs eta_by_ipm 1 w (with_batch_size 3 Scenario.request) = Ok js
    /\ js !! 0%nat = Some {| worker := 1; batch_size := 0; complementary := true |}
    /\ prune js <> Ok (pruned_except_master (workers w) js).
Proof.
  eexists. eexists. split; [vm_compute; reflexivity|].
  split; [vm_compute; reflexivity|].
  split; [reflexivity|].
  vm_compute. intros H. discriminate H.
Qed.

(** ** The scheduled workers *)

Lemma get_workers_from_store (thin : bool) (ws : list Worker) :
  forall i, (get_workers_from thin i ws).1.1 = map repaired ws.
Proof.
  induction ws as [|wk ws IH]; intros i; [reflexivity|].
  cbn [get_workers_from map]. specialize (IH (S i)).
  destruct (get_workers_from thin (S i) ws) as [[store filtered] log].
  cbn [fst] in IH. subst store.
  assert (Hrep : repaired wk = if invalid_speed wk then set_avg_ipm (Some 1%Q) wk else wk)
    by reflexivity.
  rewrite Hrep. destruct (invalid_speed wk); [reflexivity|].
  destruct (master wk && thin); [reflexivity|].
  destruct (decide (state wk <> UNAVAILABLE)); reflexivity.
Qed.

Lemma get_workers_from_filtered (thin : bool) (ws : list Worker) :
  forall (i r : nat),
    r ∈ (get_workers_from thin i ws).1.2 <->
    exists (k : nat) (wk : Worker),
      r = (i + k)%nat /\ ws !! k = Some wk /\ scheduled thin wk = true.
Proof.
  induction ws as [|wk ws IH]; intros i r.
  - cbn. split; [intros H; by apply not_elem_of_nil in H|].
    intros (k & wk & _ & Hk & _). by rewrite lookup_nil in Hk.
  - cbn [get_workers_from]. specialize (IH (S i) r).
    destruct (get_workers_from thin (S i) ws) as [[store filtered] log].
    cbn [fst snd] in IH.
    assert (Hshift : (exists k wk', r = (S i + k)%nat /\ ws !! k = Some wk'
                        /\ scheduled thin wk' = true)
                     <-> exists k wk', r = (i + S k)%nat /\ (wk :: ws) !! S k = Some wk'
                        /\ scheduled thin wk' = true).
    { split; intros (k & wk' & -> & Hk & Hs); exists k, wk'; (split; [lia|done]). }
    assert (Hhead : forall k wk', r = (i + k)%nat -> (wk :: ws) !! k = Some wk' ->
                      scheduled thin wk' = true ->
                      (k = 0%nat /\ wk' = wk /\ r = i) \/
                      exists k', k = S k' /\ ws !! k' = Some wk').
    { intros [|k'] wk' -> Hk _; [left|right; eauto].
      cbn in Hk. injection Hk as ->. split; [done|split; [done|lia]]. }
    unfold scheduled in *.
    destruct (invalid_speed wk) eqn:Hinv;
      [|destruct (master wk && thin) eqn:Hthin;
        [|destruct (decide (state wk <> UNAVAILABLE)) as [Hst|Hst]]];
      cbn [fst snd].
    1,2,4:
      rewrite IH, Hshift; split;
      [ intros (k & wk' & ? & ? & ?); exists (S k), wk'; done
      | intros (k & wk' & Hr & Hk & Hs);
        destruct (Hhead k wk' Hr Hk Hs) as [(-> & -> & _)|(k' & -> & Hk')];
        [ rewrite ?Hinv, ?Hthin in Hs; cbn in Hs;
          try discriminate Hs; try (rewrite bool_decide_eq_true in Hs; done)
        | exists k', wk'; done ] ].
    rewrite elem_of_cons, IH, Hshift. split.
    + intros [->|(k & wk' & ? & ? & ?)].
      * exists 0%nat, wk. split; [lia|]. split; [done|].
        rewrite Hinv, Hthin. cbn. by rewrite bool_decide_eq_true.
      * exists (S k), wk'. done.
    + intros (k & wk' & Hr & Hk & Hs).
      destruct (Hhead k wk' Hr Hk Hs) as [(-> & -> & ->)|(k' & -> & Hk')];
        [by left|right]. exists k', wk'. done.
Qed.

Lemma get_workers_from_log (thin : bool) (ws : list Worker) :
  forall i, (get_workers_from thin i ws).2
            = invalid_speed_warning <$> filter (fun wk => invalid_speed wk = true) ws.
Proof.
  induction ws as [|wk ws IH]; intros i; [reflexivity|].
  cbn [get_workers_from]. specialize (IH (S i)).
  destruct (get_workers_from thin (S i) ws) as [[store filtered] log].
  cbn [snd] in IH. subst log.
  destruct (invalid_speed wk) eqn:Hinv.
  - rewrite filter_cons_True by done. reflexivity.
  - rewrite filter_cons_False by (by rewrite Hinv).
    destruct (master wk && thin); [reflexivity|].
    destruct (decide (state wk <> UNAVAILABLE)); reflexivity.
Qed.

(** [get_workers] as a whole. *)
Lemma get_workers_spec (w : World) :
  exists (filtered : list nat),
    get_workers w
    = (set_workers (map repaired (workers w)) w, filtered,
       invalid_speed_warning <$> filter (fun wk => invalid_speed wk = true) (workers w))
    /\ forall r, r ∈ filtered <->
         exists wk, workers w !! r = Some wk /\ scheduled (thin_client_mode w) wk = true.
Proof.
  unfold get_workers.
  pose proof (get_workers_from_store (thin_client_mode w) (workers w) 0) as Hs.
  pose proof (get_workers_from_filtered (thin_client_mode w) (workers w) 0) as Hf.
  pose proof (get_workers_from_log (thin_client_mode w) (workers w) 0) as Hl.
  destruct (get_workers_from (thin_client_mode w) 0 (workers w)) as [[store filtered] log].
  cbn [fst snd] in *. subst store log. exists filtered. split; [reflexivity|].
  intros r. rewrite Hf. split.
  - intros (k & wk & -> & ? & ?). exists wk. done.
  - intros (wk & ? & ?). exists r, wk. done.
Qed.

(** C6, what the code does: a worker whose stored speed is 0 or less is
    given speed 1 and a warning is logged, but the call that repairs it
    leaves it out of the list it returns. *)
Theorem get_workers_leaves_out_repaired_worker (w : World) (r : nat) (wk : Worker) :
  workers w !! r = Some wk ->
  invalid_speed wk = true ->
  (r ∉ (get_workers w).1.2)
  /\ workers (get_workers w).1.1 !! r = Some (set_avg_ipm (Some 1%Q) wk)
  /\ invalid_speed_warning wk ∈ (get_workers w).2.
Proof.
  intros Hr Hinv. destruct (get_workers_spec w) as (filtered & -> & Hf).
  cbn [fst snd]. split; [|split].
  - rewrite Hf. intros (wk' & Hr' & Hs). rewrite Hr in Hr'. injection Hr' as <-.
    unfold scheduled in Hs. rewrite Hinv in Hs. discriminate Hs.
  - cbn. rewrite list_lookup_fmap, Hr. cbn. unfold repaired. by rewrite Hinv.
  - apply list_elem_of_fmap. exists wk. split; [done|].
    apply list_elem_of_filter. split; [done|]. by eapply list_elem_of_lookup_2.
Qed.

Lemma get_workers_leaves_out_repaired_worker_witness :
  (1%nat ∉ (get_workers Examples.stale_speed).1.2)
  /\ workers (get_workers Examples.stale_speed).1.1 !! 1%nat
     = Some (set_avg_ipm (Some 1%Q) (Scenario.remote "A" 0))
  /\ invalid_speed_warning (Scenario.remote "A" 0) ∈ (get_workers Examples.stale_speed).2.
Proof.
  apply (get_workers_leaves_out_repaired_worker Examples.stale_speed 1 (Scenario.remote "A" 0));
    reflexivity.
Defined.

(** The same worker is returned by the next call. *)
Example get_workers_returns_repaired_worker_next_time :
  (get_workers Examples.stale_speed).1.2 = [0%nat]
  /\ (get_workers (get_workers Examples.stale_speed).1.1).1.2 = [0%nat; 1%nat].
Proof. split; reflexivity. Qed.

(** ** The worked scenario *)

(** C3: master 60 ipm, A 60 ipm, B 6 ipm, 9 images, baseline 3 and 6
    seconds of tolerance: B is classified complementary and its 3 images
    are deferred; the run ends with master at 5, A at 4 and the job of B
    pruned. *)
Theorem worked_scenario (fuel : nat) :
  (exists w : World,
      update_world 9 Scenario.three_nodes = Ok (w, [])
      /\ default_batch_size w = Ok (w, 3, [])
      /\ job_timeout w = 6%Q
      /\ classify eta_by_ipm (workers w) (job_timeout w) (total_batch_size w)
           (with_batch_size 3 Scenario.request) [] (jobs w) 0 0
         = Ok ([ {| worker := 0; batch_size := 3; complementary := false |};
                 {| worker := 1; batch_size := 3; complementary := false |};
                 {| worker := 2; batch_size := 0; complementary := true |} ], 3, 6))
  /\ jobs <$> (match distribute eta_by_ipm (S fuel) 9 Scenario.request Scenario.three_nodes with
               | Ok w => Some w
               | _ => None
               end)
     = Some [ {| worker := 0; batch_size := 5; complementary := false |};
              {| worker := 1; batch_size := 4; complementary := false |} ]
  /\ get_current_output_size
       [ {| worker := 0; batch_size := 5; complementary := false |};
         {| worker := 1; batch_size := 4; complementary := false |} ] = 9.
Proof.
  split; [|split; [|reflexivity]].
  - eexists. split; [vm_compute; reflexivity|].
    split; [vm_compute; reflexivity|].
    split; [reflexivity|]. vm_compute. reflexivity.
  - destruct fuel; vm_compute; reflexivity.
Qed.

(** ** The round robin over an empty real-time list *)

Lemma round_robin_nil (fuel : nat) (remainder_images : Z) (js : list Job) :
  1 <= remainder_images -> round_robin fuel [] remainder_images js = OutOfFuel.
Proof.
  intros Hrem. induction fuel as [|fuel IH]; cbn [round_robin round_robin_pass].
  - destruct (Z.geb_spec remainder_images 1); [reflexivity|lia].
  - destruct (Z.geb_spec remainder_images 1); [exact IH|lia].
Qed.

Lemma sort_stable_nil {A : Type} (before : A -> A -> bool) : sort_stable before [] = [].
Proof. reflexivity. Qed.

(** ** Loading the registry *)

Section RegistryProperties.
Context (new_worker : string -> string -> option Z -> bool -> option string
                      -> option Worker).

Lemma load_entry_well_keyed (w : World) (e : Entry) :
  well_keyed e ->
  load_entry new_worker w e
  = (match entry_worker new_worker (verify_remotes w) e with
     | Some wk => set_workers (workers w ++ [wk]) w
     | None => w
     end,
     option_list (entry_rejection new_worker (verify_remotes w) e),
     None).
Proof.
  intros [[id Hid] [addr Haddr]].
  destruct e as [u a prt au https]. cbn in Hid, Haddr. subst u a.
  unfold load_entry, entry_rejection, entry_worker, entry_address, add_worker.
  destruct https as [[|]|]; cbn;
    match goal with |- context [new_worker ?a ?b ?c ?d ?f] =>
      destruct (new_worker a b c d f) end; reflexivity.
Qed.

Lemma load_entries_well_keyed (entries : list Entry) :
  forall w : World,
    Forall well_keyed entries ->
    load_entries new_worker w entries
    = (set_workers
         (workers w ++ omap (entry_worker new_worker (verify_remotes w)) entries) w,
       entries ≫= (fun e => option_list (entry_rejection new_worker (verify_remotes w) e)),
       None).
Proof.
  induction entries as [|e entries IH]; intros w Hall.
  - cbn. rewrite app_nil_r. by destruct w.
  - apply Forall_cons in Hall as [He Hall].
    cbn [load_entries]. rewrite (load_entry_well_keyed w e He).
    rewrite IH by done. cbn [omap mbind list_bind].
    destruct (entry_worker new_worker (verify_remotes w) e) as [wk|] eqn:Hwk.
    + cbn. rewrite Hwk. cbn. rewrite <- app_assoc. reflexivity.
    + cbn. rewrite Hwk. by destruct w.
Qed.

(** C8 (as amended): on a document whose entries all carry [uuid] and
    [address], the load runs to the end; the workers registered are,
    in order, those of the entries the constructor accepts, and one
    error is logged for each entry it rejects. *)
Theorem load_config_skips_rejected_entries (entries : list Entry) (w : World) :
  Forall well_keyed entries ->
  load_config new_worker (ConfigDocument entries) w
  = (set_workers
       (workers w ++ omap (entry_worker new_worker (verify_remotes w)) entries) w,
     entries ≫= (fun e => option_list (entry_rejection new_worker (verify_remotes w) e)),
     None).
Proof. intros Hall. cbn [load_config]. by apply load_entries_well_keyed. Qed.
End RegistryProperties.

Lemma load_config_skips_rejected_entries_witness :
  load_config RegistryExamples.accept_but_bad
    (ConfigDocument RegistryExamples.mixed_document) (new_world true)
  = (set_workers
       (workers (new_world true)
        ++ omap (entry_worker RegistryExamples.accept_but_bad true)
             RegistryExamples.mixed_document) (new_world true),
     RegistryExamples.mixed_document
       ≫= (fun e => option_list (entry_rejection RegistryExamples.accept_but_bad true e)),
     None).
Proof.
  apply (load_config_skips_rejected_entries RegistryExamples.accept_but_bad
           RegistryExamples.mixed_document (new_world true)).
  repeat constructor; eexists; reflexivity.
Defined.

(** The document of the witness: "n1" and "n3" are registered behind the
    master and "bad" is reported. *)
Example load_config_mixed_document :
  let '(w, log, raised) :=
    load_config RegistryExamples.accept_but_bad
      (ConfigDocument RegistryExamples.mixed_document) (new_world true) in
  (uuid <$> workers w) = ["master"; "n1"; "n3"]
  /\ log = [LogError "worker 'bad' is not a valid worker"]
  /\ raised = None.
Proof. vm_compute. done. Qed.

(** C8, the claim as stated fails: an entry without the [uuid] key
    raises [KeyError], which [load_config] does not catch; the entry
    after it is never registered. *)
Lemma load_config_aborts_on_missing_key :
  let '(w, log, raised) :=
    load_config RegistryExamples.accept_but_bad
      (ConfigDocument RegistryExamples.broken_document) (new_world true) in
  raised = Some (KeyError "uuid")
  /\ (uuid <$> workers w) = ["master"; "n1"]
  /\ log = []
  /\ is_Some (entry_worker RegistryExamples.accept_but_bad true
                (RegistryExamples.entry "n3" "10.0.0.3")).
Proof. vm_compute. split; [done|]. split; [done|]. split; [done|]. eexists; reflexivity. Qed.

(** ** Benchmarking with a saved cache *)

Section BenchmarkProperties.
Context (measure : Worker -> option Q).

Lemma load_saved_untouched (info : gmap string (option Q)) (refs : list nat) :
  forall (ws : list Worker) (r : nat) (wk : Worker),
    ws !! r = Some wk ->
    info !! uuid wk = None ->
    (load_saved info ws refs).1.1 !! r = Some wk.
Proof.
  induction refs as [|r' refs IH]; intros ws r wk Hr Hinfo; [exact Hr|].
  cbn [load_saved]. destruct (info !! uuid (ws !!! r')) as [ipm|] eqn:Hr'.
  - apply IH; [|done]. destruct (decide (r' = r)) as [->|Hne].
    + rewrite (list_lookup_total_correct _ _ _ Hr) in Hr'. congruence.
    + by rewrite list_lookup_alter_ne.
  - specialize (IH ws r wk Hr Hinfo).
    destruct (load_saved info ws refs) as [[ws' unbenched] log]. exact IH.
Qed.

(** C2, what the code does: with a valid cache and no forced
    re-benchmark, a scheduled worker whose uuid the cache does not
    know leaves [benchmark] exactly as it entered it; no measurement
    is run for it. *)
Theorem benchmark_returns_before_measuring
    (info : gmap string (option Q)) (w : World) (r : nat) (wk : Worker) :
  workers w !! r = Some wk ->
  scheduled (thin_client_mode w) wk = true ->
  info !! uuid wk = None ->
  workers (benchmark measure false (CacheDocument info) w).1.1 !! r = Some wk
  /\ (benchmark measure false (CacheDocument info) w).1.2 = CacheDocument info.
Proof.
  intros Hr Hs Hinfo. unfold benchmark. cbn [cache_exists cache_info andb negb].
  destruct (get_workers_spec w) as (refs & -> & _).
  pose proof (load_saved_untouched info refs
                (workers (set_workers (map repaired (workers w)) w)) r wk) as Hkeep.
  destruct (load_saved info (workers (set_workers (map repaired (workers w)) w)) refs)
    as [[ws unbenched] log].
  cbn [fst snd workers set_workers] in *. split; [|reflexivity].
  apply Hkeep; [|done]. rewrite list_lookup_fmap, Hr. cbn. f_equal.
  unfold repaired. unfold scheduled in Hs.
  destruct (invalid_speed wk); [discriminate Hs|reflexivity].
Qed.
End BenchmarkProperties.

Lemma benchmark_returns_before_measuring_witness :
  workers (benchmark BenchmarkExamples.measure_30 false
             (CacheDocument BenchmarkExamples.master_only)
             BenchmarkExamples.two_nodes).1.1 !! 1%nat
  = Some (BenchmarkExamples.fresh_remote "A")
  /\ (benchmark BenchmarkExamples.measure_30 false
        (CacheDocument BenchmarkExamples.master_only)
        BenchmarkExamples.two_nodes).1.2
     = CacheDocument BenchmarkExamples.master_only.
Proof.
  apply (benchmark_returns_before_measuring BenchmarkExamples.measure_30
           BenchmarkExamples.master_only BenchmarkExamples.two_nodes 1
           (BenchmarkExamples.fresh_remote "A")); [reflexivity|reflexivity|].
  vm_compute. reflexivity.
Defined.

(** The run behind the witness: the master takes its cached speed, "A"
    stays without a speed although a measurement would have given one;
    a forced re-benchmark does measure it. *)
Example benchmark_partial_cache :
  let after cache force :=
    (fun wk => (uuid wk, benchmarked wk, avg_ipm wk))
      <$> workers (benchmark BenchmarkExamples.measure_30 force cache
                     BenchmarkExamples.two_nodes).1.1 in
  after (CacheDocument BenchmarkExamples.master_only) false
    = [("master", true, Some 60%Q); ("A", false, None)]
  /\ after (CacheDocument BenchmarkExamples.master_only) true
    = [("master", true, Some 30%Q); ("A", true, Some 30%Q)]
  /\ after CacheAbsent false
    = [("master", true, Some 30%Q); ("A", true, Some 30%Q)].
Proof. vm_compute. done. Qed.

(** ** The stable sort and its head *)

Section SortFacts.
Context {A : Type} (before : A -> A -> bool).

Lemma head_insert_stable (x : A) (l : list A) :
  head (insert_stable before x l)
  = Some (match head l with
          | Some y => if before y x then y else x
          | None => x
          end).
Proof. destruct l as [|y l]; [reflexivity|]. cbn. by destruct (before y x). Qed.

Lemma head_sort_stable (l : list A) :
  head (sort_stable before l) = first_best before l.
Proof.
  induction l as [|x l IH]; [reflexivity|].
  cbn [sort_stable foldr first_best]. rewrite head_insert_stable.
  fold (sort_stable before l). rewrite IH.
  destruct (first_best before l) as [y|]; [|reflexivity].
  by destruct (before y x).
Qed.

Lemma first_of_sort_stable (l : list A) :
  first_of (sort_stable before l)
  = match first_best before l with
    | Some x => Ok x
    | None => Raise IndexError
    end.
Proof.
  rewrite <- head_sort_stable. by destruct (sort_stable before l).
Qed.

Lemma first_best_elem (l : list A) (b : A) : first_best before l = Some b -> b ∈ l.
Proof.
  revert b. induction l as [|x l IH]; intros b; [discriminate|].
  cbn. destruct (first_best before l) as [y|].
  - destruct (before y x); intros [= <-]; [right; by apply IH|left].
  - intros [= <-]. left.
Qed.

Lemma first_best_is_Some (l : list A) : l <> [] -> is_Some (first_best before l).
Proof.
  destruct l as [|x l]; [done|]. intros _. cbn.
  destruct (first_best before l) as [y|]; [destruct (before y x)|]; eauto.
Qed.

Lemma insert_stable_unordered (x : A) (l : list A) :
  Forall (fun y => before y x = false) l -> insert_stable before x l = x :: l.
Proof. destruct 1 as [|y l Hy _]; [reflexivity|]. cbn. by rewrite Hy. Qed.

(** A list whose elements never have to move is left as it is. *)
Lemma sort_stable_unordered (l : list A) :
  (forall x y, x ∈ l -> y ∈ l -> before y x = false) -> sort_stable before l = l.
Proof.
  induction l as [|x l IH]; intros Hl; [reflexivity|].
  cbn [sort_stable foldr]. fold (sort_stable before l).
  rewrite IH by (intros; apply Hl; by right).
  apply insert_stable_unordered, Forall_forall.
  intros y Hy. apply Hl; [left|by right].
Qed.
End SortFacts.

Lemma sort_stable_ext {A : Type} (before1 before2 : A -> A -> bool) (l : list A) :
  (forall a b, before1 a b = before2 a b) ->
  sort_stable before1 l = sort_stable before2 l.
Proof.
  intros Hext. induction l as [|x l IH]; [reflexivity|].
  cbn [sort_stable foldr]. fold (sort_stable before1 l) (sort_stable before2 l).
  rewrite IH. generalize (sort_stable before2 l) as s.
  induction s as [|y s IHs]; [reflexivity|]. cbn. rewrite Hext, IHs. reflexivity.
Qed.

Lemma first_best_fmap {A B : Type} (g : A -> B) (before : A -> A -> bool)
    (before' : B -> B -> bool) (l : list A) :
  (forall a b, before' (g a) (g b) = before a b) ->
  first_best before' (g <$> l) = g <$> first_best before l.
Proof.
  intros Hg. induction l as [|x l IH]; [reflexivity|].
  cbn [fmap list_fmap first_best]. change (list_fmap A B g l) with (g <$> l). rewrite IH.
  destruct (first_best before l) as [y|]; [|reflexivity].
  cbn. rewrite Hg. by destruct (before y x).
Qed.

Lemma Qlt_bool_false (x y : Q) : Qlt_bool x y = false <-> (y <= x)%Q.
Proof.
  unfold Qlt_bool. rewrite negb_false_iff. apply Qle_bool_iff.
Qed.

Section FastestFacts.
Context {A : Type} (key : A -> Q).

Lemma first_best_maximal (l : list A) (b : A) :
  first_best (descending key) l = Some b -> forall x, x ∈ l -> (key x <= key b)%Q.
Proof.
  revert b. induction l as [|z l IH]; intros b Hb x Hx; [by apply not_elem_of_nil in Hx|].
  cbn in Hb. destruct (first_best (descending key) l) as [y|] eqn:Hy.
  - destruct ((descending key) y z) eqn:Hyz; injection Hb as <-.
    + apply elem_of_cons in Hx as [Hx|Hx]; [subst x|by apply (IH y)].
      unfold descending, Qlt_bool in Hyz. apply negb_true_iff in Hyz.
      destruct (Qlt_le_dec (key z) (key y)) as [Hlt|Hle]; [by apply Qlt_le_weak|].
      apply Qle_bool_iff in Hle. congruence.
    + apply Qlt_bool_false in Hyz.
      apply elem_of_cons in Hx as [Hx|Hx]; [subst x; apply Qle_refl|].
      eapply Qle_trans; [by apply (IH y)|done].
  - injection Hb as <-. destruct l as [|y' l'].
    + apply list_elem_of_singleton in Hx as ->. apply Qle_refl.
    + destruct (first_best_is_Some (descending key) (y' :: l')) as [? Hsome]; [done|]. congruence.
Qed.

(** Taking an element other than the head of the sort out of the list
    does not change the head. *)
Lemma first_best_remove `{EqDecision A} (l1 l2 : list A) (x b : A) :
  first_best (descending key) (l1 ++ x :: l2) = Some b ->
  x <> b ->
  first_best (descending key) (l1 ++ l2) = Some b.
Proof.
  revert b. induction l1 as [|z l1 IH]; intros b Hb Hne; cbn in Hb |- *.
  - destruct (first_best (descending key) l2) as [y|]; [|congruence].
    destruct ((descending key) y x); congruence.
  - destruct (first_best (descending key) (l1 ++ x :: l2)) as [c|] eqn:Hc.
    + destruct ((descending key) c z) eqn:Hcz; injection Hb as <-.
      * rewrite (IH c eq_refl Hne). by rewrite Hcz.
      * destruct (first_best (descending key) (l1 ++ l2)) as [c'|] eqn:Hc'; [|reflexivity].
        assert (Hle : (key c' <= key c)%Q).
        { apply (first_best_maximal _ _ Hc). apply first_best_elem in Hc'.
          apply elem_of_app in Hc' as [?|?]; apply elem_of_app; [by left|right; by right]. }
        apply Qlt_bool_false in Hcz.
        assert (Hc'z : (descending key) c' z = false).
        { apply Qlt_bool_false. by eapply Qle_trans. }
        by rewrite Hc'z.
    + destruct (first_best_is_Some (descending key) (l1 ++ x :: l2)) as [? Hsome];
        [by destruct l1|congruence].
Qed.
End FastestFacts.

(** ** Real-time jobs and the fastest worker *)

Lemma bind_Ok {A B : Type} (a : A) (k : A -> outcome B) : (Ok a ≫= k) = k a.
Proof. reflexivity. Qed.

Lemma realtime_from_snd (ws : list Worker) (js : list Job) :
  forall i, (realtime_from ws i js).*2 = filter (fun j => is_realtime ws j = true) js.
Proof.
  induction js as [|j js IH]; intros i; [reflexivity|].
  cbn [realtime_from]. destruct (is_realtime ws j) eqn:Hj.
  - rewrite filter_cons_True by done. cbn. by rewrite IH.
  - rewrite filter_cons_False by (by rewrite Hj). apply IH.
Qed.

Lemma realtime_from_lookup (ws : list Worker) (js : list Job) :
  forall (i k : nat) (j : Job),
    (k, j) ∈ realtime_from ws i js ->
    (i <= k)%nat /\ js !! (k - i)%nat = Some j /\ is_realtime ws j = true.
Proof.
  induction js as [|j0 js IH]; intros i k j Hin; [by apply not_elem_of_nil in Hin|].
  cbn [realtime_from] in Hin.
  assert (Hrest : (k, j) ∈ realtime_from ws (S i) js ->
                  (i <= k)%nat /\ (j0 :: js) !! (k - i)%nat = Some j
                  /\ is_realtime ws j = true).
  { intros H. destruct (IH _ _ _ H) as (Hle & Hk & Hrt).
    split; [lia|]. split; [|done].
    replace (k - i)%nat with (S (k - S i)) by lia. exact Hk. }
  destruct (is_realtime ws j0) eqn:Hj0; [|by apply Hrest].
  apply elem_of_cons in Hin as [[= -> ->]|Hin]; [|by apply Hrest].
  split; [lia|]. by rewrite Nat.sub_diag.
Qed.

Lemma rt_workers_realtime_jobs (ws : list Worker) (js : list Job) :
  rt_workers ws js = (fun rj : nat * Job => worker rj.2) <$> realtime_jobs ws js.
Proof.
  unfold rt_workers, realtime_jobs. rewrite <- (realtime_from_snd ws js 0).
  by rewrite <- list_fmap_compose.
Qed.

Lemma fastest_realtime_job_first_best (ws : list Worker) (js : list Job) :
  fastest_realtime_job ws js
  = match first_best (fun a b => Qlt_bool (ipm_key ws b) (ipm_key ws a))
            (realtime_jobs ws js) with
    | Some rj => Ok rj
    | None => Raise IndexError
    end.
Proof. unfold fastest_realtime_job, sorted_Q. apply first_of_sort_stable. Qed.

Lemma fastest_worker_first_best (ws : list Worker) (js : list Job) :
  fastest_worker ws js
  = (fun rj : nat * Job => worker rj.2)
      <$> first_best (fun a b => Qlt_bool (ipm_key ws b) (ipm_key ws a))
            (realtime_jobs ws js).
Proof.
  unfold fastest_worker. rewrite rt_workers_realtime_jobs.
  by apply first_best_fmap.
Qed.

Lemma fastest_realtime_job_Ok (ws : list Worker) (js : list Job) (i : nat) (job : Job) :
  fastest_realtime_job ws js = Ok (i, job) ->
  fastest_worker ws js = Some (worker job)
  /\ js !! i = Some job /\ is_realtime ws job = true.
Proof.
  rewrite fastest_realtime_job_first_best, fastest_worker_first_best.
  destruct (first_best _ (realtime_jobs ws js)) as [rj|] eqn:Hbest; [|discriminate].
  intros [= ->]. split; [reflexivity|].
  apply first_best_elem, realtime_from_lookup in Hbest as (_ & Hi & Hrt).
  by rewrite Nat.sub_0_r in Hi.
Qed.

Lemma fastest_worker_Some (ws : list Worker) (js : list Job) (f : nat) :
  fastest_worker ws js = Some f ->
  exists (i : nat) (job : Job), fastest_realtime_job ws js = Ok (i, job) /\ worker job = f.
Proof.
  rewrite fastest_realtime_job_first_best, fastest_worker_first_best.
  destruct (first_best _ (realtime_jobs ws js)) as [[i job]|]; [|discriminate].
  intros [= <-]. by exists i, job.
Qed.

Lemma fastest_worker_None (ws : list Worker) (js : list Job) :
  fastest_worker ws js = None -> fastest_realtime_job ws js = Raise IndexError.
Proof.
  rewrite fastest_realtime_job_first_best, fastest_worker_first_best.
  by destruct (first_best _ (realtime_jobs ws js)).
Qed.

Lemma slowest_realtime_job_Ok (ws : list Worker) (js : list Job) :
  rt_workers ws js <> [] -> exists rj, slowest_realtime_job ws js = Ok rj.
Proof.
  intros Hne. unfold slowest_realtime_job, sorted_Q. rewrite first_of_sort_stable.
  destruct (first_best_is_Some
              (fun a b => Qlt_bool (ipm_key ws a) (ipm_key ws b)) (realtime_jobs ws js))
    as [rj ->]; [|by exists rj].
  intros Hnil. apply Hne. by rewrite rt_workers_realtime_jobs, Hnil.
Qed.

Lemma fastest_worker_nonempty (ws : list Worker) (js : list Job) (f : nat) :
  fastest_worker ws js = Some f -> rt_workers ws js <> [].
Proof. unfold fastest_worker. by destruct (rt_workers ws js). Qed.

Lemma is_realtime_complementary (ws : list Worker) (j : Job) :
  is_realtime ws j = true -> complementary j = false.
Proof.
  unfold is_realtime. destruct (_ || _); [discriminate|].
  by destruct (complementary j).
Qed.

Lemma is_realtime_keep_job (ws : list Worker) (b : Z) (j : Job) :
  is_realtime ws (keep_job b j) = is_realtime ws j.
Proof. reflexivity. Qed.

Lemma is_realtime_defer_job (ws : list Worker) (j : Job) :
  is_realtime ws (defer_job j) = false.
Proof. unfold is_realtime. cbn. by destruct (_ || _). Qed.

Lemma rt_workers_app (ws : list Worker) (js1 js2 : list Job) :
  rt_workers ws (js1 ++ js2) = rt_workers ws js1 ++ rt_workers ws js2.
Proof. unfold rt_workers. by rewrite filter_app, fmap_app. Qed.

Lemma rt_workers_cons (ws : list Worker) (j : Job) (js : list Job) :
  rt_workers ws (j :: js)
  = (if is_realtime ws j then [worker j] else []) ++ rt_workers ws js.
Proof.
  unfold rt_workers. destruct (is_realtime ws j) eqn:Hj.
  - by rewrite filter_cons_True.
  - by rewrite filter_cons_False by (by rewrite Hj).
Qed.

(** Keeping a job does not change who is fastest; deferring a job of
    another worker does not either. *)
Lemma fastest_worker_keep (ws : list Worker) (b : Z) (done rest : list Job) (job : Job) :
  fastest_worker ws (done ++ keep_job b job :: rest)
  = fastest_worker ws (done ++ job :: rest).
Proof.
  unfold fastest_worker. by rewrite !rt_workers_app, !rt_workers_cons, is_realtime_keep_job.
Qed.

Lemma fastest_worker_defer (ws : list Worker) (done rest : list Job) (job : Job) (f : nat) :
  fastest_worker ws (done ++ job :: rest) = Some f ->
  worker job <> f ->
  fastest_worker ws (done ++ defer_job job :: rest) = Some f.
Proof.
  unfold fastest_worker.
  rewrite !rt_workers_app, !rt_workers_cons, is_realtime_defer_job.
  destruct (is_realtime ws job); [|done].
  cbn [app]. intros Hf Hne.
  by apply (first_best_remove (speed ws)) in Hf.
Qed.

Lemma get_current_output_size_foldl (js : list Job) (n : Z) :
  foldl (fun n j => n + batch_size j) n js = n + get_current_output_size js.
Proof.
  unfold get_current_output_size. revert n.
  induction js as [|j js IH]; intros n; cbn; [lia|].
  rewrite (IH (n + batch_size j)), (IH (0 + batch_size j)). lia.
Qed.

Lemma get_current_output_size_cons (j : Job) (js : list Job) :
  get_current_output_size (j :: js) = batch_size j + get_current_output_size js.
Proof.
  unfold get_current_output_size at 1. cbn. rewrite get_current_output_size_foldl. lia.
Qed.

Section ClassifyFacts.
Context (batch_eta : Worker -> Payload -> Q).

Lemma job_stall_fastest (ws : list Worker) (js : list Job) (f r : nat) (p : Payload) :
  fastest_worker ws js = Some f ->
  job_stall batch_eta ws js r p
  = Ok (if decide (r = f) then 0%Q
        else (batch_eta (ws !!! r) p - batch_eta (ws !!! f) p)%Q).
Proof.
  intros Hf. apply fastest_worker_Some in Hf as (i & job & Hjob & <-).
  unfold job_stall. rewrite Hjob, bind_Ok. cbn [snd]. by destruct (decide _).
Qed.

Lemma within_tolerance_zero (timeout : Q) : within_tolerance timeout 0 = true.
Proof. unfold within_tolerance. apply orb_true_r. Qed.

(** The classification loop, from any point of the walk: it runs to the
    end whenever some job is real-time, the fastest worker stays the
    same, every job is kept or deferred, and the deferred pool never
    takes more than the baseline of the deferred jobs. *)
Lemma classify_spec (ws : list Worker) (timeout : Q) (total : Z) (p : Payload) (f : nat) :
  forall (todo done : list Job) (d c : Z),
    fastest_worker ws (done ++ todo) = Some f ->
    exists (todo' : list Job) (d' c' : Z),
      classify batch_eta ws timeout total p done todo d c = Ok (done ++ todo', d', c')
      /\ fastest_worker ws (done ++ todo') = Some f
      /\ Forall2 (classified (tolerated batch_eta ws timeout p f) f (p_batch_size p))
           todo todo'
      /\ (0 <= p_batch_size p ->
          d <= d'
          /\ d' + get_current_output_size todo'
             <= d + p_batch_size p * Z.of_nat (length todo)).
Proof.
  induction todo as [|job rest IH]; intros done d c Hf.
  - exists [], d, c. cbn [classify]. rewrite app_nil_r.
    split; [reflexivity|]. split; [by rewrite app_nil_r in Hf|].
    split; [constructor|]. intros _. cbn. lia.
  - cbn [classify]. rewrite (job_stall_fastest _ _ f _ _ Hf), bind_Ok.
    set (lag := if decide (worker job = f) then _ else _).
    destruct (within_tolerance timeout lag) eqn:Hlag.
    + destruct (IH (done ++ [keep_job (p_batch_size p) job]) d (c + p_batch_size p))
        as (todo' & d' & c' & Hrun & Hf' & Hall & Hsum).
      { rewrite <- app_assoc. cbn [app]. by rewrite fastest_worker_keep. }
      exists (keep_job (p_batch_size p) job :: todo'), d', c'.
      rewrite <- app_assoc in Hrun, Hf'. cbn [app] in Hrun, Hf'.
      split; [exact Hrun|]. split; [exact Hf'|].
      split; [constructor; [by left|done]|].
      intros Hb. destruct (Hsum Hb) as [Hd Hs]. split; [done|].
      rewrite get_current_output_size_cons. cbn [length keep_job set_batch_size batch_size].
      lia.
    + assert (Hne : worker job <> f).
      { intros Heq. subst lag. rewrite decide_True in Hlag by done.
        by rewrite within_tolerance_zero in Hlag. }
      set (d1 := if d + c + p_batch_size p >? total then d else d + p_batch_size p).
      destruct (IH (done ++ [defer_job job]) d1 c)
        as (todo' & d' & c' & Hrun & Hf' & Hall & Hsum).
      { rewrite <- app_assoc. cbn [app]. by apply fastest_worker_defer. }
      exists (defer_job job :: todo'), d', c'.
      rewrite <- app_assoc in Hrun, Hf'. cbn [app] in Hrun, Hf'.
      split; [exact Hrun|]. split; [exact Hf'|].
      split.
      { constructor; [right|done]. split; [done|]. split; [|done].
        unfold tolerated. subst lag. by rewrite decide_False in Hlag. }
      intros Hb. destruct (Hsum Hb) as [Hd Hs].
      assert (d <= d1 <= d + p_batch_size p) by (subst d1; destruct (_ >? _); lia).
      split; [lia|].
      rewrite get_current_output_size_cons. cbn [length defer_job set_batch_size batch_size].
      lia.
Qed.
End ClassifyFacts.

(** ** Writes through the real-time references *)

Lemma topped_up_refl (ws : list Worker) (j : Job) : topped_up ws j j.
Proof. unfold topped_up. repeat split; lia. Qed.

Lemma is_realtime_same (ws : list Worker) (j j' : Job) :
  worker j' = worker j -> complementary j' = complementary j ->
  is_realtime ws j' = is_realtime ws j.
Proof. unfold is_realtime. by intros -> ->. Qed.

Lemma topped_up_trans (ws : list Worker) (j1 j2 j3 : Job) :
  topped_up ws j1 j2 -> topped_up ws j2 j3 -> topped_up ws j1 j3.
Proof.
  intros (Hw1 & Hc1 & Hb1 & Hle1) (Hw2 & Hc2 & Hb2 & Hle2).
  pose proof (is_realtime_same ws j1 j2 Hw1 Hc1) as Hrt.
  unfold topped_up. split; [congruence|]. split; [congruence|].
  split; [|lia]. intros H. rewrite Hb2, Hb1; [done..|congruence].
Qed.

Lemma Forall2_topped_up_refl (ws : list Worker) (js : list Job) :
  Forall2 (topped_up ws) js js.
Proof. induction js; constructor; [apply topped_up_refl|done]. Qed.

Lemma Forall2_topped_up_trans (ws : list Worker) (js1 js2 js3 : list Job) :
  Forall2 (topped_up ws) js1 js2 -> Forall2 (topped_up ws) js2 js3 ->
  Forall2 (topped_up ws) js1 js3.
Proof. apply Forall2_trans, topped_up_trans. Qed.

Lemma topped_up_workers (ws : list Worker) (js js' : list Job) :
  Forall2 (topped_up ws) js js' -> worker <$> js' = worker <$> js.
Proof. induction 1 as [|j j' js js' (Hw & _) _ IH]; [done|]. cbn. by rewrite Hw, IH. Qed.

Lemma topped_up_rt_workers (ws : list Worker) (js js' : list Job) :
  Forall2 (topped_up ws) js js' -> rt_workers ws js' = rt_workers ws js.
Proof.
  induction 1 as [|j j' js js' (Hw & Hc & _) _ IH]; [done|].
  rewrite !rt_workers_cons, IH, (is_realtime_same ws j j' Hw Hc), Hw. done.
Qed.

Lemma topped_up_realtime_from (ws : list Worker) (js js' : list Job) :
  Forall2 (topped_up ws) js js' ->
  forall i, (realtime_from ws i js').*1 = (realtime_from ws i js).*1.
Proof.
  induction 1 as [|j j' js js' (Hw & Hc & _) _ IH]; intros i; [done|].
  cbn [realtime_from]. rewrite (is_realtime_same ws j j' Hw Hc).
  destruct (is_realtime ws j); [cbn; f_equal|]; apply IH.
Qed.

Lemma rt_counts_length (ws : list Worker) (js : list Job) :
  length (rt_counts ws js) = length (rt_workers ws js).
Proof. unfold rt_counts, rt_workers. by rewrite !length_fmap. Qed.

Lemma rt_counts_cons (ws : list Worker) (j : Job) (js : list Job) :
  rt_counts ws (j :: js)
  = (if is_realtime ws j then [batch_size j] else []) ++ rt_counts ws js.
Proof.
  unfold rt_counts. destruct (is_realtime ws j) eqn:Hj.
  - by rewrite filter_cons_True.
  - by rewrite filter_cons_False by (by rewrite Hj).
Qed.

Lemma realtime_jobs_length (ws : list Worker) (js : list Job) :
  length (realtime_jobs ws js) = length (rt_counts ws js).
Proof.
  unfold realtime_jobs, rt_counts.
  rewrite <- (realtime_from_snd ws js 0), !length_fmap. reflexivity.
Qed.

(** Real-time jobs that all carry [c]. *)
Lemma rt_counts_uniform (ws : list Worker) (c : Z) (js : list Job) :
  Forall (fun j => is_realtime ws j = true -> batch_size j = c) js ->
  rt_counts ws js = replicate (length (rt_counts ws js)) c.
Proof.
  induction 1 as [|j js Hj _ IH]; [reflexivity|].
  rewrite rt_counts_cons. destruct (is_realtime ws j); [|exact IH].
  cbn. rewrite Hj by done. f_equal. exact IH.
Qed.

(** *** The deferred images *)

Lemma foldl_alter_realtime_from (ws : list Worker) (f : Job -> Job) (js : list Job) :
  forall pre : list Job,
    foldl (fun acc (rj : nat * Job) => alter f rj.1 acc) (pre ++ js)
      (realtime_from ws (length pre) js)
    = pre ++ ((fun j => if is_realtime ws j then f j else j) <$> js).
Proof.
  induction js as [|j js IH]; intros pre; [reflexivity|].
  cbn [realtime_from fmap list_fmap]. destruct (is_realtime ws j).
  - cbn [foldl fst].
    replace (alter f (length pre) (pre ++ j :: js)) with ((pre ++ [f j]) ++ js).
    + replace (S (length pre)) with (length (pre ++ [f j]))
        by (rewrite length_app; cbn; lia).
      rewrite IH, <- app_assoc. reflexivity.
    + rewrite <- app_assoc. cbn [app].
      replace (length pre) with (length pre + 0)%nat at 1 by lia.
      by rewrite alter_app_r.
  - replace (S (length pre)) with (length (pre ++ [j]))
      by (rewrite length_app; cbn; lia).
    replace (pre ++ j :: js) with ((pre ++ [j]) ++ js) by (by rewrite <- app_assoc).
    rewrite IH, <- app_assoc. reflexivity.
Qed.

Lemma redistribute_spec (ws : list Worker) (d : Z) (js : list Job) :
  redistribute ws d js
  = if d >? 0 then
      if Z.of_nat (length (rt_counts ws js)) =? 0 then Raise ZeroDivisionError
      else Ok (Some (d / Z.of_nat (length (rt_counts ws js))),
               raise_realtime ws (d / Z.of_nat (length (rt_counts ws js))) js)
    else Ok (None, js).
Proof.
  unfold redistribute. destruct (d >? 0); [|reflexivity].
  rewrite realtime_jobs_length.
  destruct (Z.of_nat (length (rt_counts ws js)) =? 0); [reflexivity|].
  unfold realtime_jobs, raise_realtime.
  pose proof (foldl_alter_realtime_from ws
                (add_batch_size (d / Z.of_nat (length (rt_counts ws js)))) js []) as H.
  cbn [app length] in H. by rewrite H.
Qed.

Lemma raise_realtime_topped_up (ws : list Worker) (n : Z) (js : list Job) :
  0 <= n -> Forall2 (topped_up ws) js (raise_realtime ws n js).
Proof.
  intros Hn. unfold raise_realtime. apply Forall2_fmap_r, Forall_Forall2_diag, Forall_forall.
  intros j _.
  change (topped_up ws j (if is_realtime ws j then add_batch_size n j else j)).
  destruct (is_realtime ws j) eqn:Hj; [|apply topped_up_refl].
  unfold topped_up. cbn. repeat split; [congruence|lia].
Qed.

Lemma raise_realtime_counts (ws : list Worker) (n : Z) (js : list Job) :
  rt_counts ws (raise_realtime ws n js) = (fun c => c + n) <$> rt_counts ws js.
Proof.
  induction js as [|j js IH]; [reflexivity|].
  unfold raise_realtime in *. cbn [fmap list_fmap].
  change (list_fmap Job Job ?g js) with (g <$> js).
  rewrite !rt_counts_cons, fmap_app, <- IH.
  destruct (is_realtime ws j) eqn:Hj.
  - change (is_realtime ws (add_batch_size n j)) with (is_realtime ws j). by rewrite Hj.
  - by rewrite Hj.
Qed.

Lemma raise_realtime_output_size (ws : list Worker) (n : Z) (js : list Job) :
  get_current_output_size (raise_realtime ws n js)
  = get_current_output_size js + n * Z.of_nat (length (rt_counts ws js)).
Proof.
  induction js as [|j js IH]; [cbn; lia|].
  unfold raise_realtime in *. cbn [fmap list_fmap].
  change (list_fmap Job Job ?g js) with (g <$> js).
  rewrite !get_current_output_size_cons, IH, rt_counts_cons, length_app.
  destruct (is_realtime ws j); cbn; lia.
Qed.

(** *** The round robin *)

Lemma bump_realtime_topped_up (ws : list Worker) (js : list Job) :
  forall n, Forall2 (topped_up ws) js (bump_realtime ws n js).
Proof.
  induction js as [|j js IH]; intros n; [constructor|].
  cbn [bump_realtime]. destruct (is_realtime ws j) eqn:Hj.
  - destruct n as [|n]; [apply Forall2_topped_up_refl|].
    constructor; [|apply IH].
    unfold topped_up. cbn. repeat split; [congruence|lia].
  - constructor; [apply topped_up_refl|apply IH].
Qed.

Lemma bump_realtime_counts (ws : list Worker) (js : list Job) :
  forall n,
    rt_counts ws (bump_realtime ws n js)
    = ((fun c => c + 1) <$> take n (rt_counts ws js)) ++ drop n (rt_counts ws js).
Proof.
  induction js as [|j js IH]; intros n; [by destruct n|].
  cbn [bump_realtime]. destruct (is_realtime ws j) eqn:Hj.
  - destruct n as [|n]; [reflexivity|].
    rewrite !rt_counts_cons.
    change (is_realtime ws (add_batch_size 1 j)) with (is_realtime ws j).
    rewrite Hj. cbn. by rewrite IH.
  - rewrite !rt_counts_cons, Hj. cbn [app]. apply IH.
Qed.

Lemma bump_realtime_output_size (ws : list Worker) (js : list Job) :
  forall n,
    get_current_output_size (bump_realtime ws n js)
    = get_current_output_size js + Z.of_nat (n `min` length (rt_counts ws js)).
Proof.
  induction js as [|j js IH]; intros n; [cbn; lia|].
  cbn [bump_realtime]. rewrite rt_counts_cons, length_app.
  destruct (is_realtime ws j) eqn:Hj.
  - destruct n as [|n]; [cbn; lia|].
    rewrite !get_current_output_size_cons, IH. cbn. lia.
  - rewrite !get_current_output_size_cons, IH. cbn. lia.
Qed.

Lemma round_robin_pass_spec (ws : list Worker) (js : list Job) :
  forall (pre : list Job) (rt : list (nat * Job)) (remainder_images : Z),
    rt.*1 = (realtime_from ws (length pre) js).*1 ->
    0 <= remainder_images ->
    round_robin_pass rt remainder_images (pre ++ js)
    = (remainder_images - Z.of_nat (Z.to_nat remainder_images `min` length rt),
       pre ++ bump_realtime ws (Z.to_nat remainder_images) js).
Proof.
  induction js as [|j js IH]; intros pre rt rem Hrt Hrem.
  - destruct rt; [|discriminate]. cbn. f_equal. lia.
  - cbn [realtime_from bump_realtime] in *. destruct (is_realtime ws j) eqn:Hj.
    + destruct rt as [|[i x] rt]; [discriminate|].
      cbn in Hrt. injection Hrt as -> Hrt. cbn [round_robin_pass fst].
      destruct (Z.ltb_spec rem 1) as [Hlt|Hge].
      * replace (Z.to_nat rem) with 0%nat by lia. f_equal. cbn. lia.
      * replace (alter (add_batch_size 1) (length pre) (pre ++ j :: js))
          with ((pre ++ [add_batch_size 1 j]) ++ js).
        2:{ rewrite <- app_assoc. cbn [app].
            replace (length pre) with (length pre + 0)%nat at 1 by lia.
            by rewrite alter_app_r. }
        rewrite IH; [| |lia].
        2:{ rewrite length_app. cbn [length]. by rewrite Nat.add_1_r. }
        replace (Z.to_nat rem) with (S (Z.to_nat (rem - 1))) by lia.
        rewrite <- app_assoc. cbn [app length]. f_equal. lia.
    + replace (pre ++ j :: js) with ((pre ++ [j]) ++ js) by (by rewrite <- app_assoc).
      rewrite IH; [| |done].
      2:{ rewrite length_app. cbn [length]. by rewrite Nat.add_1_r. }
      by rewrite <- app_assoc.
Qed.

Lemma round_robin_done (fuel : nat) (rt : list (nat * Job)) (rem : Z) (js : list Job) :
  rem < 1 -> round_robin fuel rt rem js = Ok js.
Proof.
  intros Hrem. destruct fuel; cbn [round_robin];
    destruct (Z.geb_spec rem 1); (lia || reflexivity).
Qed.

Lemma bumped_uniform_counts (n R : nat) (c : Z) :
  ((fun c => c + 1) <$> take n (replicate R c)) ++ drop n (replicate R c)
  = replicate (n `min` R) (c + 1) ++ replicate (R - n) c.
Proof. by rewrite take_replicate, drop_replicate, fmap_replicate. Qed.

(** The loop on a non-empty real-time list: with at least
    [remainder_images] units of fuel it ends, it hands out exactly the
    remainder, only to real-time jobs, and from equal counts it leaves
    stepped counts. *)
Lemma round_robin_spec (ws : list Worker) (rt : list (nat * Job)) :
  rt <> [] ->
  forall (fuel : nat) (rem : Z) (js : list Job),
    rt.*1 = (realtime_from ws 0 js).*1 ->
    (Z.to_nat rem <= fuel)%nat ->
    exists js' : list Job,
      round_robin fuel rt rem js = Ok js'
      /\ Forall2 (topped_up ws) js js'
      /\ get_current_output_size js' = get_current_output_size js + Z.max 0 rem
      /\ (forall c, rt_counts ws js = replicate (length rt) c ->
                    stepped (rt_counts ws js')).
Proof.
  intros Hne. induction fuel as [|fuel IH]; intros rem js Hrt Hfuel.
  - exists js. rewrite round_robin_done by lia.
    split; [done|]. split; [apply Forall2_topped_up_refl|]. split; [lia|].
    intros c Hc. exists 0%nat, c. rewrite Hc, length_replicate. cbn.
    split; [lia|]. by rewrite Nat.sub_0_r.
  - destruct (Z.ltb_spec rem 1) as [Hlt|Hge].
    + exists js. rewrite round_robin_done by lia.
      split; [done|]. split; [apply Forall2_topped_up_refl|]. split; [lia|].
      intros c Hc. exists 0%nat, c. rewrite Hc, length_replicate. cbn.
      split; [lia|]. by rewrite Nat.sub_0_r.
    + cbn [round_robin]. destruct (Z.geb_spec rem 1) as [_|?]; [|lia].
      pose proof (round_robin_pass_spec ws js [] rt rem Hrt ltac:(lia)) as Hpass.
      cbn [app] in Hpass. rewrite Hpass.
      set (js1 := bump_realtime ws (Z.to_nat rem) js).
      set (rem1 := rem - Z.of_nat (Z.to_nat rem `min` length rt)).
      assert (Hlen : (0 < length rt)%nat) by (destruct rt; [done|cbn; lia]).
      pose proof (bump_realtime_topped_up ws js (Z.to_nat rem)) as Htop1. fold js1 in Htop1.
      assert (Hrtlen : length rt = length (rt_counts ws js)).
      { rewrite <- realtime_jobs_length. unfold realtime_jobs.
        rewrite <- (length_fmap fst rt), Hrt, length_fmap. reflexivity. }
      destruct (IH rem1 js1) as (js' & Hrun & Htop & Hsum & Hstep).
      { rewrite Hrt. symmetry. by apply topped_up_realtime_from. }
      { subst rem1. lia. }
      exists js'. split; [exact Hrun|].
      split; [by eapply Forall2_topped_up_trans|].
      split.
      { rewrite Hsum. subst js1. rewrite bump_realtime_output_size, <- Hrtlen.
        subst rem1. lia. }
      intros c Hc.
      assert (Hc1 : rt_counts ws js1
                    = replicate (Z.to_nat rem `min` length rt) (c + 1)
                      ++ replicate (length rt - Z.to_nat rem) c).
      { subst js1. rewrite bump_realtime_counts, Hc. apply bumped_uniform_counts. }
      destruct (decide (length rt <= Z.to_nat rem)%nat) as [Hfull|Hpart].
      * apply (Hstep (c + 1)). rewrite Hc1.
        replace (length rt - Z.to_nat rem)%nat with 0%nat by lia.
        replace (Z.to_nat rem `min` length rt)%nat with (length rt) by lia.
        cbn. by rewrite app_nil_r.
      * assert (Hrem1 : rem1 = 0) by (subst rem1; lia).
        rewrite Hrem1, round_robin_done in Hrun by lia. injection Hrun as <-.
        exists (Z.to_nat rem), c.
        assert (Hl1 : length (rt_counts ws js1) = length rt).
        { rewrite Hc1, length_app, !length_replicate. lia. }
        rewrite Hl1. split; [lia|]. rewrite Hc1. f_equal. f_equal. lia.
Qed.

Lemma round_robin_fuel_mono (rt : list (nat * Job)) :
  forall (fuel fuel' : nat) (rem : Z) (js js' : list Job),
    round_robin fuel rt rem js = Ok js' ->
    (fuel <= fuel')%nat ->
    round_robin fuel' rt rem js = Ok js'.
Proof.
  induction fuel as [|fuel IH]; intros fuel' rem js js' Hrun Hle.
  - cbn [round_robin] in Hrun. destruct (Z.geb_spec rem 1); [discriminate|].
    injection Hrun as <-. apply round_robin_done. lia.
  - destruct fuel' as [|fuel']; [lia|]. cbn [round_robin] in *.
    destruct (rem >=? 1); [|done].
    destruct (round_robin_pass rt rem js) as [rem1 js1].
    apply (IH fuel'); [done|lia].
Qed.

Lemma realtime_jobs_batch_size (ws : list Worker) (js : list Job) (rj : nat * Job) :
  rj ∈ realtime_jobs ws js -> batch_size rj.2 ∈ rt_counts ws js.
Proof.
  intros Hin. unfold rt_counts, realtime_jobs in *.
  rewrite <- (realtime_from_snd ws js 0), <- list_fmap_compose.
  apply list_elem_of_fmap. by exists rj.
Qed.

(** Remainder handling from equal real-time counts. *)
Lemma handle_remainder_spec (ws : list Worker) (total : Z) (js : list Job) (c : Z) :
  rt_counts ws js = replicate (length (rt_counts ws js)) c ->
  rt_workers ws js <> [] ->
  exists js' : list Job,
    (forall fuel, (Z.to_nat (total - get_current_output_size js) <= fuel)%nat ->
                  handle_remainder fuel ws total js = Ok js')
    /\ Forall2 (topped_up ws) js js'
    /\ get_current_output_size js'
       = get_current_output_size js + Z.max 0 (total - get_current_output_size js)
    /\ stepped (rt_counts ws js').
Proof.
  intros Hc Hne. unfold handle_remainder.
  set (rem := total - get_current_output_size js).
  destruct (Z.geb_spec rem 1) as [Hge|Hlt].
  - assert (Hsort : sorted_Z (fun rj : nat * Job => batch_size rj.2) (realtime_jobs ws js)
                    = realtime_jobs ws js).
    { apply sort_stable_unordered. intros x y Hx Hy.
      apply realtime_jobs_batch_size in Hx, Hy. rewrite Hc in Hx, Hy.
      apply elem_of_replicate in Hx as [-> _], Hy as [-> _]. apply Z.ltb_irrefl. }
    rewrite Hsort.
    assert (Hrt : realtime_jobs ws js <> []).
    { intros Hnil. apply Hne. by rewrite rt_workers_realtime_jobs, Hnil. }
    destruct (round_robin_spec ws (realtime_jobs ws js) Hrt (Z.to_nat rem) rem js
                eq_refl ltac:(lia)) as (js' & Hrun & Htop & Hsum & Hstep).
    exists js'. split; [|split; [done|split; [done|]]].
    + intros fuel Hfuel. by apply (round_robin_fuel_mono _ (Z.to_nat rem)).
    + apply (Hstep c). by rewrite realtime_jobs_length.
  - exists js. split; [done|]. split; [apply Forall2_topped_up_refl|]. split; [lia|].
    exists 0%nat, c. split; [lia|]. cbn. by rewrite Nat.sub_0_r.
Qed.

(** *** The round robin, exactly *)

Lemma add_batch_size_zero (j : Job) : add_batch_size 0 j = j.
Proof. destruct j. unfold add_batch_size, set_batch_size. cbn. f_equal. lia. Qed.

Lemma add_batch_size_add (a b : Z) (j : Job) :
  add_batch_size a (add_batch_size b j) = add_batch_size (b + a) j.
Proof. destruct j. unfold add_batch_size, set_batch_size. cbn. f_equal. lia. Qed.

Lemma raise_realtime_zero (ws : list Worker) (js : list Job) : raise_realtime ws 0 js = js.
Proof.
  unfold raise_realtime. induction js as [|j js IH]; [reflexivity|].
  cbn [fmap list_fmap]. change (list_fmap Job Job ?g js) with (g <$> js). rewrite IH.
  destruct (is_realtime ws j); [|reflexivity]. by rewrite add_batch_size_zero.
Qed.

Lemma raise_realtime_add (ws : list Worker) (a b : Z) (js : list Job) :
  raise_realtime ws a (raise_realtime ws b js) = raise_realtime ws (b + a) js.
Proof.
  unfold raise_realtime. induction js as [|j js IH]; [reflexivity|].
  cbn [fmap list_fmap]. change (list_fmap Job Job ?g ?l) with (g <$> l). rewrite IH.
  f_equal. destruct (is_realtime ws j) eqn:Hj.
  - change (is_realtime ws (add_batch_size b j)) with (is_realtime ws j).
    by rewrite Hj, add_batch_size_add.
  - by rewrite Hj.
Qed.

Lemma bump_realtime_zero (ws : list Worker) (js : list Job) : bump_realtime ws 0 js = js.
Proof.
  induction js as [|j js IH]; [reflexivity|].
  cbn [bump_realtime]. destruct (is_realtime ws j); [reflexivity|]. by rewrite IH.
Qed.

(** A pass that reaches every real-time job gives each of them one image. *)
Lemma bump_realtime_all (ws : list Worker) (js : list Job) :
  forall n, (length (rt_counts ws js) <= n)%nat ->
            bump_realtime ws n js = raise_realtime ws 1 js.
Proof.
  unfold raise_realtime. induction js as [|j js IH]; intros n Hn; [reflexivity|].
  cbn [bump_realtime fmap list_fmap]. change (list_fmap Job Job ?g ?l) with (g <$> l).
  rewrite rt_counts_cons, length_app in Hn. destruct (is_realtime ws j).
  - cbn [length] in Hn. destruct n as [|n]; [lia|]. rewrite IH by lia. reflexivity.
  - cbn [length] in Hn. rewrite IH by lia. reflexivity.
Qed.

(** The loop on a non-empty real-time list in job order: of a remainder
    [rem] every real-time job gets [rem / R] images, [R] being their
    number, and the first [rem mod R] of them one more. *)
Lemma round_robin_exact (ws : list Worker) (rt : list (nat * Job)) :
  rt <> [] ->
  forall (fuel : nat) (rem : Z) (js : list Job),
    rt.*1 = (realtime_from ws 0 js).*1 ->
    0 <= rem ->
    (Z.to_nat rem <= fuel)%nat ->
    round_robin fuel rt rem js
    = Ok (bump_realtime ws (Z.to_nat (rem mod Z.of_nat (length rt)))
            (raise_realtime ws (rem / Z.of_nat (length rt)) js)).
Proof.
  intros Hne.
  assert (Hlen : 0 < Z.of_nat (length rt)) by (destruct rt; [done|cbn [length]; lia]).
  set (R := Z.of_nat (length rt)) in *.
  induction fuel as [|fuel IH]; intros rem js Hrt Hrem Hfuel.
  - assert (rem = 0) as -> by lia. rewrite round_robin_done by lia.
    rewrite Z.mod_0_l, Z.div_0_l by lia. cbn [Z.to_nat].
    by rewrite raise_realtime_zero, bump_realtime_zero.
  - destruct (Z.ltb_spec rem 1) as [Hlt|Hge].
    + assert (rem = 0) as -> by lia. rewrite round_robin_done by lia.
      rewrite Z.mod_0_l, Z.div_0_l by lia. cbn [Z.to_nat].
      by rewrite raise_realtime_zero, bump_realtime_zero.
    + cbn [round_robin]. destruct (Z.geb_spec rem 1) as [_|?]; [|lia].
      pose proof (round_robin_pass_spec ws js [] rt rem Hrt ltac:(lia)) as Hpass.
      cbn [app] in Hpass. rewrite Hpass.
      assert (Hrtlen : length rt = length (rt_counts ws js)).
      { rewrite <- realtime_jobs_length. unfold realtime_jobs.
        rewrite <- (length_fmap fst rt), Hrt, length_fmap. reflexivity. }
      pose proof (bump_realtime_topped_up ws js (Z.to_nat rem)) as Htop1.
      destruct (decide (R <= rem)) as [Hfull|Hpart].
      * rewrite bump_realtime_all by (rewrite <- Hrtlen; lia).
        rewrite bump_realtime_all in Htop1 by (rewrite <- Hrtlen; lia).
        replace (rem - Z.of_nat (Z.to_nat rem `min` length rt)) with (rem - R) by lia.
        rewrite IH; [| |lia|lia].
        2:{ rewrite Hrt. symmetry. by apply topped_up_realtime_from. }
        rewrite raise_realtime_add.
        replace rem with ((rem - R) + 1 * R) at 3 4 by lia.
        rewrite Z_mod_plus_full, Z.div_add by lia.
        by rewrite Z.add_comm.
      * replace (rem - Z.of_nat (Z.to_nat rem `min` length rt)) with 0 by lia.
        rewrite round_robin_done by lia.
        rewrite Z.mod_small, Z.div_small by lia.
        by rewrite raise_realtime_zero.
Qed.

(** Remainder handling from equal real-time counts, exactly. *)
Lemma handle_remainder_exact (ws : list Worker) (total : Z) (js : list Job) (c : Z) :
  rt_counts ws js = replicate (length (rt_counts ws js)) c ->
  rt_workers ws js <> [] ->
  forall fuel : nat,
    (Z.to_nat (total - get_current_output_size js) <= fuel)%nat ->
    handle_remainder fuel ws total js
    = Ok (bump_realtime ws
            (Z.to_nat (Z.max 0 (total - get_current_output_size js)
                       mod Z.of_nat (length (rt_counts ws js))))
            (raise_realtime ws
               (Z.max 0 (total - get_current_output_size js)
                / Z.of_nat (length (rt_counts ws js))) js)).
Proof.
  intros Hc Hne fuel Hfuel. unfold handle_remainder.
  set (rem := total - get_current_output_size js) in *.
  assert (HR : (0 < length (rt_counts ws js))%nat).
  { rewrite rt_counts_length. destruct (rt_workers ws js); [done|cbn; lia]. }
  destruct (Z.geb_spec rem 1) as [Hge|Hlt].
  - assert (Hsort : sorted_Z (fun rj : nat * Job => batch_size rj.2) (realtime_jobs ws js)
                    = realtime_jobs ws js).
    { apply sort_stable_unordered. intros x y Hx Hy.
      apply realtime_jobs_batch_size in Hx, Hy. rewrite Hc in Hx, Hy.
      apply elem_of_replicate in Hx as [-> _], Hy as [-> _]. apply Z.ltb_irrefl. }
    rewrite Hsort.
    assert (Hrt : realtime_jobs ws js <> []).
    { intros Hnil. apply Hne. by rewrite rt_workers_realtime_jobs, Hnil. }
    rewrite (round_robin_exact ws (realtime_jobs ws js) Hrt fuel rem js eq_refl) by lia.
    rewrite realtime_jobs_length. by replace (Z.max 0 rem) with rem by lia.
  - replace (Z.max 0 rem) with 0 by lia.
    rewrite Z.mod_0_l, Z.div_0_l by lia. cbn [Z.to_nat].
    by rewrite raise_realtime_zero, bump_realtime_zero.
Qed.

(** The real-time counts that [handle_remainder_exact] leaves. *)
Lemma shared_out_counts (ws : list Worker) (js : list Job) (c rem : Z) :
  rt_counts ws js = replicate (length (rt_counts ws js)) c ->
  (0 < length (rt_counts ws js))%nat ->
  0 <= rem ->
  let R := Z.of_nat (length (rt_counts ws js)) in
  rt_counts ws (bump_realtime ws (Z.to_nat (rem mod R)) (raise_realtime ws (rem / R) js))
  = replicate (Z.to_nat (rem mod R)) (c + rem / R + 1)
    ++ replicate (Z.to_nat (R - rem mod R)) (c + rem / R).
Proof.
  intros Hc HR Hrem R.
  pose proof (Z.mod_pos_bound rem R ltac:(lia)) as Hk.
  rewrite bump_realtime_counts, raise_realtime_counts, Hc, fmap_replicate.
  rewrite bumped_uniform_counts. f_equal; f_equal; lia.
Qed.

Lemma stepped_pairwise (cs : list Z) :
  stepped cs ->
  forall (a b : nat) (x y : Z),
    (a <= b)%nat -> cs !! a = Some x -> cs !! b = Some y -> y <= x <= y + 1.
Proof.
  intros (k & c & _ & Hcs) a b x y Hab Ha Hb.
  rewrite Hcs in Ha, Hb.
  apply lookup_app_Some in Ha as [Ha|[Hka Ha]], Hb as [Hb|[Hkb Hb]];
    apply lookup_replicate in Ha as [-> Ha], Hb as [-> Hb];
    rewrite ?length_replicate in *; lia.
Qed.

Lemma classified_uniform (ws : list Worker) (test : nat -> bool) (f : nat) (b : Z)
    (js js1 : list Job) :
  Forall2 (classified test f b) js js1 ->
  Forall (fun j1 => is_realtime ws j1 = true -> batch_size j1 = b) js1.
Proof.
  induction 1 as [|j j1 js js1 Hstep _ IH]; constructor; [|done].
  intros Hrt. destruct Hstep as [->|(_ & _ & ->)]; [reflexivity|].
  by rewrite is_realtime_defer_job in Hrt.
Qed.

Lemma classified_workers (test : nat -> bool) (f : nat) (b : Z) (js js1 : list Job) :
  Forall2 (classified test f b) js js1 -> worker <$> js1 = worker <$> js.
Proof.
  induction 1 as [|j j1 js js1 Hstep _ IH]; [done|].
  cbn. rewrite IH. by destruct Hstep as [->|(_ & _ & ->)].
Qed.

(** ** Registration order *)

Lemma get_workers_from_increasing (thin : bool) (ws : list Worker) :
  forall i,
    StronglySorted lt (get_workers_from thin i ws).1.2
    /\ Forall (fun r => (i <= r)%nat) (get_workers_from thin i ws).1.2.
Proof.
  induction ws as [|wk ws IH]; intros i; [cbn; split; constructor|].
  cbn [get_workers_from]. destruct (IH (S i)) as [Hsorted Hge].
  destruct (get_workers_from thin (S i) ws) as [[store filtered] log].
  cbn [fst snd] in *.
  assert (Hge' : Forall (fun r => (i <= r)%nat) filtered).
  { eapply Forall_impl; [exact Hge|]. cbn. lia. }
  destruct (invalid_speed wk); [done|].
  destruct (master wk && thin); [done|].
  destruct (decide (state wk <> UNAVAILABLE)); [|done].
  cbn [fst snd]. split; constructor; [done| |lia|done].
  eapply Forall_impl; [exact Hge|]. cbn. lia.
Qed.

(** The jobs of [update_jobs] follow the registry: their owners are
    strictly increasing registry indices, so a scheduled master, which
    is entry 0, owns the first job. *)
Lemma update_jobs_registration_order (w w' : World) (log : list LogRecord) :
  update_jobs w = Ok (w', log) -> StronglySorted lt (worker <$> jobs w').
Proof.
  unfold update_jobs, default_batch_size, size, get_workers.
  cbn [thin_client_mode set_jobs workers].
  destruct (get_workers_from (thin_client_mode w) 0 (workers w)) as [[store filtered] lg] eqn:H1.
  cbn. destruct (Z.of_nat (length filtered) =? 0); [discriminate|]. cbn.
  pose proof (get_workers_from_increasing (thin_client_mode w) store 0) as [Hsorted _].
  destruct (get_workers_from (thin_client_mode w) 0 store) as [[store' filtered'] lg'].
  cbn [fst snd] in Hsorted. intros [= <- _]. cbn [jobs set_jobs].
  match goal with |- StronglySorted lt ?l => replace l with filtered' end; [done|].
  clear. induction filtered' as [|r l IH]; [done|]. cbn. f_equal. exact IH.
Qed.

(** ** Classification, redistribution and remainder together *)

Lemma topped_up_fastest_worker (ws : list Worker) (js js' : list Job) :
  Forall2 (topped_up ws) js js' -> fastest_worker ws js' = fastest_worker ws js.
Proof. intros H. unfold fastest_worker. by rewrite (topped_up_rt_workers ws js js' H). Qed.

Section Rounding.
Context (batch_eta : Worker -> Payload -> Q).

Lemma rounding_spec (ws : list Worker) (timeout : Q) (total : Z) (p : Payload)
    (js : list Job) (f : nat) :
  fastest_worker ws js = Some f ->
  exists (js1 : list Job) (d c : Z) (per : option Z) (js2 js3 : list Job),
    classify batch_eta ws timeout total p [] js 0 0 = Ok (js1, d, c)
    /\ Forall2 (classified (tolerated batch_eta ws timeout p f) f (p_batch_size p)) js js1
    /\ (0 <= p_batch_size p ->
        0 <= d /\ d + get_current_output_size js1
                  <= p_batch_size p * Z.of_nat (length js))
    /\ redistribute ws d js1 = Ok (per, js2)
    /\ ((per = None /\ d <= 0 /\ js2 = js1)
        \/ (0 < d /\ per = Some (d / Z.of_nat (length (rt_counts ws js1)))
            /\ js2 = raise_realtime ws (d / Z.of_nat (length (rt_counts ws js1))) js1))
    /\ (forall fuel, (Z.to_nat (total - get_current_output_size js2) <= fuel)%nat ->
                     handle_remainder fuel ws total js2 = Ok js3)
    /\ Forall2 (topped_up ws) js1 js3
    /\ get_current_output_size js3
       = get_current_output_size js2 + Z.max 0 (total - get_current_output_size js2)
    /\ stepped (rt_counts ws js3)
    /\ fastest_worker ws js3 = Some f.
Proof.
  intros Hf.
  destruct (classify_spec batch_eta ws timeout total p f js [] 0 0 Hf)
    as (js1 & d & c & Hrun & Hf1 & Hall & Hsum).
  cbn [app] in Hrun, Hf1.
  pose proof (classified_uniform ws _ f _ _ _ Hall) as Huni.
  apply rt_counts_uniform in Huni.
  pose proof (fastest_worker_nonempty _ _ _ Hf1) as Hne1.
  assert (HR : (0 < length (rt_counts ws js1))%nat).
  { rewrite rt_counts_length. destruct (rt_workers ws js1); [done|cbn; lia]. }
  set (R := length (rt_counts ws js1)) in *.
  assert (Hred : exists per js2,
             redistribute ws d js1 = Ok (per, js2)
             /\ ((per = None /\ d <= 0 /\ js2 = js1)
                 \/ (0 < d /\ per = Some (d / Z.of_nat R)
                     /\ js2 = raise_realtime ws (d / Z.of_nat R) js1))
             /\ Forall2 (topped_up ws) js1 js2
             /\ exists c2, rt_counts ws js2 = replicate (length (rt_counts ws js2)) c2).
  { rewrite redistribute_spec. fold R. destruct (Z.gtb_spec d 0) as [Hd|Hd].
    - destruct (Z.eqb_spec (Z.of_nat R) 0) as [?|_]; [lia|].
      eexists _, _. split; [reflexivity|]. split; [right; by repeat split|].
      assert (0 <= d / Z.of_nat R) by (apply Z.div_pos; lia).
      split; [by apply raise_realtime_topped_up|].
      exists (p_batch_size p + d / Z.of_nat R).
      rewrite raise_realtime_counts, Huni, fmap_replicate, length_replicate. reflexivity.
    - eexists _, _. split; [reflexivity|]. split; [left; by repeat split|].
      split; [apply Forall2_topped_up_refl|]. by exists (p_batch_size p). }
  destruct Hred as (per & js2 & Hred & Hper & Htop2 & c2 & Huni2).
  destruct (handle_remainder_spec ws total js2 c2 Huni2) as (js3 & Hrem & Htop3 & Hsum3 & Hstep).
  { by rewrite (topped_up_rt_workers ws js1 js2 Htop2). }
  exists js1, d, c, per, js2, js3.
  split; [exact Hrun|]. split; [exact Hall|].
  split. { intros Hb. destruct (Hsum Hb) as [? ?]. cbn [get_current_output_size] in *. lia. }
  split; [exact Hred|]. split; [exact Hper|]. split; [exact Hrem|].
  split; [by eapply Forall2_topped_up_trans|].
  split; [exact Hsum3|]. split; [exact Hstep|].
  rewrite (topped_up_fastest_worker ws js2 js3 Htop3).
  by rewrite (topped_up_fastest_worker ws js1 js2 Htop2).
Qed.

(** C5: with the initial jobs of [update_world] and at least one
    real-time job, classification, redistribution and remainder handling
    run to the end (the round robin on any fuel from the remainder up);
    the jobs keep their owners, which follow the registration order, and
    the real-time counts, read in that order, are some [c + 1] for the
    first [k] jobs and [c] for the others: two real-time jobs differ by
    at most 1 and the earlier one never has less.

    The step is tied to the remainder it finds. Before it the [R]
    real-time jobs all stand at the payload's batch size plus their
    share of the deferred images; of the remainder every one of them
    gets [remainder // R] images and the first [remainder mod R] of
    them, in registration order, one image more; no other job is
    touched and the images of the fleet rise by exactly the remainder. *)
Theorem remainder_rounding_is_balanced
    (w0 w : World) (log : list LogRecord) (total : Z) (p : Payload) :
  update_world total w0 = Ok (w, log) ->
  is_Some (fastest_worker (workers w) (jobs w)) ->
  exists (js1 : list Job) (d c : Z) (per : option Z) (js2 js3 : list Job),
    classify batch_eta (workers w) (job_timeout w) (total_batch_size w) p
      [] (jobs w) 0 0 = Ok (js1, d, c)
    /\ redistribute (workers w) d js1 = Ok (per, js2)
    /\ (forall fuel,
          (Z.to_nat (total_batch_size w - get_current_output_size js2) <= fuel)%nat ->
          handle_remainder fuel (workers w) (total_batch_size w) js2 = Ok js3)
    /\ worker <$> js3 = worker <$> jobs w
    /\ StronglySorted lt (worker <$> js3)
    /\ stepped (rt_counts (workers w) js3)
    /\ (forall (a b : nat) (x y : Z),
          (a <= b)%nat ->
          rt_counts (workers w) js3 !! a = Some x ->
          rt_counts (workers w) js3 !! b = Some y ->
          y <= x <= y + 1)
    /\ let R := Z.of_nat (length (rt_counts (workers w) js2)) in
       let remainder_images :=
         Z.max 0 (total_batch_size w - get_current_output_size js2) in
       let c2 := p_batch_size p + default 0 per in
       0 < R
       /\ rt_counts (workers w) js2 = replicate (Z.to_nat R) c2
       /\ rt_counts (workers w) js3
          = replicate (Z.to_nat (remainder_images mod R)) (c2 + remainder_images / R + 1)
            ++ replicate (Z.to_nat (R - remainder_images mod R))
                 (c2 + remainder_images / R)
       /\ js3 = bump_realtime (workers w) (Z.to_nat (remainder_images mod R))
                  (raise_realtime (workers w) (remainder_images / R) js2)
       /\ get_current_output_size js3 = get_current_output_size js2 + remainder_images.
Proof.
  intros Hupd [f Hf].
  destruct (rounding_spec (workers w) (job_timeout w) (total_batch_size w) p (jobs w) f Hf)
    as (js1 & d & c & per & js2 & js3 & Hrun & Hall & _ & Hred & Hper & Hrem & Htop & Hsum
        & Hstep & Hf3).
  exists js1, d, c, per, js2, js3.
  assert (Howners : worker <$> js3 = worker <$> jobs w).
  { rewrite (topped_up_workers _ _ _ Htop). by eapply classified_workers. }
  split; [exact Hrun|]. split; [exact Hred|]. split; [exact Hrem|].
  split; [exact Howners|]. split.
  { rewrite Howners. by eapply update_jobs_registration_order. }
  split; [exact Hstep|]. split; [by apply stepped_pairwise|].
  set (ws := workers w) in *.
  pose proof (classified_uniform ws _ f _ _ _ Hall) as Huni1.
  apply rt_counts_uniform in Huni1.
  assert (Hne1 : rt_workers ws js1 <> []).
  { rewrite <- (topped_up_rt_workers ws js1 js3 Htop). by eapply fastest_worker_nonempty. }
  assert (HR1 : (0 < length (rt_counts ws js1))%nat).
  { rewrite rt_counts_length. destruct (rt_workers ws js1); [done|cbn; lia]. }
  assert (Hjs2 : rt_workers ws js2 = rt_workers ws js1
                 /\ rt_counts ws js2
                    = replicate (length (rt_counts ws js2)) (p_batch_size p + default 0 per)).
  { destruct Hper as [(-> & _ & ->)|(Hd & -> & ->)].
    - split; [done|]. cbn [default]. by rewrite Z.add_0_r.
    - split.
      + apply topped_up_rt_workers, raise_realtime_topped_up, Z.div_pos; lia.
      + rewrite raise_realtime_counts, Huni1, fmap_replicate, !length_replicate.
        reflexivity. }
  destruct Hjs2 as [Hrt2 Huni2].
  assert (Hne2 : rt_workers ws js2 <> []) by (by rewrite Hrt2).
  assert (HR2 : (0 < length (rt_counts ws js2))%nat).
  { rewrite rt_counts_length. destruct (rt_workers ws js2); [done|cbn; lia]. }
  pose proof (handle_remainder_exact ws (total_batch_size w) js2 _ Huni2 Hne2
                (Z.to_nat (total_batch_size w - get_current_output_size js2))
                (Nat.le_refl _)) as Hexact.
  rewrite (Hrem _ (Nat.le_refl _)) in Hexact. injection Hexact as Hjs3.
  cbn zeta. split; [lia|]. split; [by rewrite Nat2Z.id|]. split; [|split; [exact Hjs3|exact Hsum]].
  rewrite Hjs3. apply (shared_out_counts ws js2 _ _ Huni2 HR2). lia.
Qed.
End Rounding.

Lemma remainder_rounding_is_balanced_witness :
  exists (js1 : list Job) (d c : Z) (per : option Z) (js2 js3 : list Job),
    classify eta_by_ipm (workers MoreExamples.five_images)
      (job_timeout MoreExamples.five_images) (total_batch_size MoreExamples.five_images)
      (with_batch_size 1 Scenario.request) [] (jobs MoreExamples.five_images) 0 0
    = Ok (js1, d, c)
    /\ redistribute (workers MoreExamples.five_images) d js1 = Ok (per, js2)
    /\ (forall fuel,
          (Z.to_nat (total_batch_size MoreExamples.five_images
                     - get_current_output_size js2) <= fuel)%nat ->
          handle_remainder fuel (workers MoreExamples.five_images)
            (total_batch_size MoreExamples.five_images) js2 = Ok js3)
    /\ worker <$> js3 = worker <$> jobs MoreExamples.five_images
    /\ StronglySorted lt (worker <$> js3)
    /\ stepped (rt_counts (workers MoreExamples.five_images) js3)
    /\ (forall (a b : nat) (x y : Z),
          (a <= b)%nat ->
          rt_counts (workers MoreExamples.five_images) js3 !! a = Some x ->
          rt_counts (workers MoreExamples.five_images) js3 !! b = Some y ->
          y <= x <= y + 1)
    /\ let R := Z.of_nat (length (rt_counts (workers MoreExamples.five_images) js2)) in
       let remainder_images :=
         Z.max 0 (total_batch_size MoreExamples.five_images
                  - get_current_output_size js2) in
       let c2 := p_batch_size (with_batch_size 1 Scenario.request) + default 0 per in
       0 < R
       /\ rt_counts (workers MoreExamples.five_images) js2 = replicate (Z.to_nat R) c2
       /\ rt_counts (workers MoreExamples.five_images) js3
          = replicate (Z.to_nat (remainder_images mod R)) (c2 + remainder_images / R + 1)
            ++ replicate (Z.to_nat (R - remainder_images mod R))
                 (c2 + remainder_images / R)
       /\ js3 = bump_realtime (workers MoreExamples.five_images)
                  (Z.to_nat (remainder_images mod R))
                  (raise_realtime (workers MoreExamples.five_images)
                     (remainder_images / R) js2)
       /\ get_current_output_size js3 = get_current_output_size js2 + remainder_images.
Proof.
  apply (remainder_rounding_is_balanced eta_by_ipm Scenario.three_equals
           MoreExamples.five_images [] 5 (with_batch_size 1 Scenario.request)).
  - vm_compute. reflexivity.
  - vm_compute. eexists. reflexivity.
Defined.

(** The run behind the witness: 5 images over three equal workers give
    2, 2 and 1, the extra images going to the first two. *)
Example five_images_over_three_equals :
  jobs <$> (match distribute eta_by_ipm 1 5 Scenario.request Scenario.three_equals with
            | Ok w => Some w
            | _ => None
            end)
  = Some [ {| worker := 0; batch_size := 2; complementary := false |};
           {| worker := 1; batch_size := 2; complementary := false |};
           {| worker := 2; batch_size := 1; complementary := false |} ].
Proof. vm_compute. reflexivity. Qed.

(** ** Backfill and pruning *)

Lemma output_size_split (js : list Job) :
  get_current_output_size js = realtime_output_size js + complementary_output_size js.
Proof.
  unfold realtime_output_size, complementary_output_size.
  induction js as [|j js IH]; [reflexivity|].
  rewrite get_current_output_size_cons, IH.
  destruct (complementary j) eqn:Hj.
  - rewrite filter_cons_False by congruence. rewrite filter_cons_True by done.
    rewrite get_current_output_size_cons. lia.
  - rewrite filter_cons_True by done. rewrite filter_cons_False by congruence.
    rewrite get_current_output_size_cons. lia.
Qed.

Lemma realtime_output_size_cons (j : Job) (js : list Job) :
  realtime_output_size (j :: js)
  = (if complementary j then 0 else batch_size j) + realtime_output_size js.
Proof.
  unfold realtime_output_size. destruct (complementary j) eqn:Hj.
  - rewrite filter_cons_False by congruence. lia.
  - rewrite filter_cons_True by done. by rewrite get_current_output_size_cons.
Qed.

Lemma backfilled_realtime_output_size (js js' : list Job) :
  Forall2 backfilled js js' -> realtime_output_size js' = realtime_output_size js.
Proof.
  induction 1 as [|j j' js js' (Hw & Hc & Hsame) _ IH]; [reflexivity|].
  rewrite !realtime_output_size_cons, IH, Hc.
  destruct (complementary j) eqn:Hj; [reflexivity|]. by rewrite Hsame.
Qed.

(** Jobs without work that are dropped took no image of the real-time
    share with them. *)
Lemma realtime_output_size_has_work (js : list Job) :
  Forall (fun j => complementary j = false -> 0 <= batch_size j) js ->
  realtime_output_size (filter has_work js) = realtime_output_size js.
Proof.
  induction 1 as [|j js Hj _ IH]; [reflexivity|].
  destruct (decide (has_work j)) as [Hw|Hw].
  - rewrite filter_cons_True by done. by rewrite !realtime_output_size_cons, IH.
  - rewrite filter_cons_False by done. rewrite realtime_output_size_cons, IH.
    unfold has_work in Hw. destruct (complementary j); [lia|].
    specialize (Hj eq_refl). lia.
Qed.

Lemma prune_realtime_output_size (js : list Job) :
  Forall (fun j => complementary j = false -> 0 <= batch_size j) js ->
  exists js', prune js = Ok js' /\ realtime_output_size js' = realtime_output_size js.
Proof.
  intros Hall. destruct js as [|j0 tl]; [by exists []|].
  rewrite prune_cons. eexists. split; [reflexivity|].
  apply Forall_cons in Hall as [_ Htl].
  by rewrite !realtime_output_size_cons, realtime_output_size_has_work.
Qed.

Section BackfillFacts.
Context (batch_eta : Worker -> Payload -> Q).

Lemma float_div_Ok (x y : Q) : ~ (y == 0)%Q -> float_div x y = Ok (x / y)%Q.
Proof.
  intros Hy. unfold float_div. destruct (Qeq_bool y 0) eqn:Heq; [|reflexivity].
  by apply Qeq_bool_iff in Heq.
Qed.

Lemma num_images_compensate_Ok (ws : list Worker) (js : list Job) (p : Payload)
    (per : option Z) (job : Job) :
  rt_workers ws js <> [] ->
  (is_Some per -> p_batch_size p <> 0) ->
  ~ (batch_eta (ws !!! worker job) (with_batch_size 1 p) == 0)%Q ->
  exists n, num_images_compensate batch_eta ws js p per job = Ok n.
Proof.
  intros Hne Hper Hsecs. unfold num_images_compensate.
  destruct (slowest_realtime_job_Ok ws js Hne) as [slowest ->]. rewrite bind_Ok.
  destruct per as [n|].
  - rewrite float_div_Ok.
    2:{ intros Hz. apply (Hper ltac:(eauto)).
        unfold Qeq, inject_Z in Hz. cbn in Hz. lia. }
    rewrite !bind_Ok, float_div_Ok by done. rewrite bind_Ok. eauto.
  - rewrite bind_Ok, float_div_Ok by done. rewrite bind_Ok. eauto.
Qed.

Lemma backfill_spec (ws : list Worker) (p : Payload) (per : option Z) :
  (is_Some per -> p_batch_size p <> 0) ->
  forall todo done : list Job,
    rt_workers ws (done ++ todo) <> [] ->
    Forall (fun j => ~ (batch_eta (ws !!! worker j) (with_batch_size 1 p) == 0)%Q) todo ->
    exists todo' : list Job,
      backfill batch_eta ws p per done todo = Ok (done ++ todo')
      /\ Forall2 backfilled todo todo'.
Proof.
  intros Hper. induction todo as [|job rest IH]; intros done Hne Heta.
  - exists []. cbn. by rewrite app_nil_r.
  - apply Forall_cons in Heta as [Hjob Heta]. cbn [backfill].
    destruct (complementary job) eqn:Hc.
    + destruct (num_images_compensate_Ok ws (done ++ job :: rest) p per job Hne Hper Hjob)
        as [n ->]. rewrite bind_Ok.
      destruct (IH (done ++ [set_batch_size n job])) as (todo' & Hrun & Hall); [|done|].
      { rewrite <- app_assoc. cbn [app]. rewrite rt_workers_app, rt_workers_cons in *.
        by rewrite (is_realtime_same ws job (set_batch_size n job)). }
      exists (set_batch_size n job :: todo').
      rewrite <- app_assoc in Hrun. split; [exact Hrun|].
      constructor; [|done]. split; [done|]. split; [done|]. cbn. congruence.
    + destruct (IH (done ++ [job])) as (todo' & Hrun & Hall); [|done|].
      { by rewrite <- app_assoc. }
      exists (job :: todo'). rewrite <- app_assoc in Hrun. split; [exact Hrun|].
      constructor; [by repeat split|done].
Qed.
End BackfillFacts.

(** ** The pipeline on a fleet whose eligible workers have valid speeds *)

Lemma benchmarked_positive_valid (wk : Worker) :
  benchmarked_positive wk -> invalid_speed wk = false.
Proof.
  intros (_ & q & Hq & Hpos). unfold invalid_speed. rewrite Hq.
  destruct (Qle_bool q 0) eqn:Hle; [|reflexivity].
  apply Qle_bool_iff in Hle. by apply Qlt_not_le in Hpos.
Qed.

Lemma scheduled_eligible (thin : bool) (wk : Worker) :
  scheduled thin wk = negb (invalid_speed wk) && eligible thin wk.
Proof. unfold scheduled, eligible. by rewrite andb_assoc. Qed.

Lemma repaired_valid (wk : Worker) : invalid_speed (repaired wk) = false.
Proof.
  unfold repaired. destruct (invalid_speed wk) eqn:Hinv; [reflexivity|exact Hinv].
Qed.

Lemma repaired_idemp (ws : list Worker) : map repaired (map repaired ws) = map repaired ws.
Proof.
  rewrite map_map. apply map_ext. intros wk. unfold repaired at 1.
  by rewrite repaired_valid.
Qed.

Lemma get_workers_eq (w : World) :
  exists log, get_workers w = (set_workers (map repaired (workers w)) w, scheduled_refs w, log).
Proof.
  unfold get_workers, scheduled_refs.
  pose proof (get_workers_from_store (thin_client_mode w) (workers w) 0) as Hs.
  destruct (get_workers_from (thin_client_mode w) 0 (workers w)) as [[store filtered] log].
  cbn [fst snd] in *. subst store. by exists log.
Qed.

(** The repair does not change who is scheduled when it only touches
    workers that are not eligible. *)
Lemma get_workers_from_repaired (thin : bool) (ws : list Worker) :
  Forall (fun wk => eligible thin wk = true -> invalid_speed wk = false) ws ->
  forall i, (get_workers_from thin i (map repaired ws)).1.2 = (get_workers_from thin i ws).1.2.
Proof.
  induction 1 as [|wk ws Hwk _ IH]; intros i; [reflexivity|].
  cbn [map get_workers_from]. specialize (IH (S i)).
  destruct (get_workers_from thin (S i) (map repaired ws)) as [[store1 filtered1] log1].
  destruct (get_workers_from thin (S i) ws) as [[store2 filtered2] log2].
  cbn [fst snd] in IH. subst filtered2. rewrite repaired_valid.
  unfold repaired. destruct (invalid_speed wk) eqn:Hinv.
  - cbn [master state set_avg_ipm]. unfold eligible in Hwk.
    destruct (master wk && thin); [reflexivity|].
    destruct (decide (state wk <> UNAVAILABLE)) as [Hst|Hst]; [|reflexivity].
    rewrite bool_decide_eq_true_2 in Hwk by done. by specialize (Hwk eq_refl).
  - destruct (master wk && thin); [reflexivity|].
    destruct (decide (state wk <> UNAVAILABLE)); reflexivity.
Qed.

Lemma scheduled_refs_repaired (w : World) :
  Forall (fun wk => eligible (thin_client_mode w) wk = true -> invalid_speed wk = false)
    (workers w) ->
  scheduled_refs (set_workers (map repaired (workers w)) w) = scheduled_refs w.
Proof. intros Hvalid. unfold scheduled_refs. by apply get_workers_from_repaired. Qed.

Lemma scheduled_refs_lookup (w : World) (r : nat) :
  r ∈ scheduled_refs w ->
  exists wk, workers w !! r = Some wk /\ scheduled (thin_client_mode w) wk = true.
Proof.
  unfold scheduled_refs. rewrite get_workers_from_filtered.
  intros (k & wk & -> & ? & ?). by exists wk.
Qed.

Lemma scheduled_refs_nonempty (w : World) (wk : Worker) :
  wk ∈ workers w -> scheduled (thin_client_mode w) wk = true -> scheduled_refs w <> [].
Proof.
  intros Hin Hs Hnil. apply list_elem_of_lookup in Hin as [r Hr].
  assert (Hr' : r ∈ scheduled_refs w).
  { unfold scheduled_refs. rewrite get_workers_from_filtered. by exists r, wk. }
  rewrite Hnil in Hr'. by apply not_elem_of_nil in Hr'.
Qed.

Lemma update_world_valid (total : Z) (w : World) :
  Forall (fun wk => eligible (thin_client_mode w) wk = true -> invalid_speed wk = false)
    (workers w) ->
  scheduled_refs w <> [] ->
  exists log, update_world total w = Ok (initial_world total w, log).
Proof.
  intros Hvalid Hne. unfold update_world, update_jobs, default_batch_size, size.
  destruct (get_workers_eq (set_jobs [] (set_total_batch_size total w))) as [log1 ->].
  change (scheduled_refs (set_jobs [] (set_total_batch_size total w)))
    with (scheduled_refs w).
  destruct (Z.eqb_spec (Z.of_nat (length (scheduled_refs w))) 0) as [Hz|_].
  { destruct (scheduled_refs w); [done|cbn in Hz; lia]. }
  rewrite bind_Ok.
  match goal with |- context [get_workers ?x] =>
    destruct (get_workers_eq x) as [log2 ->] end.
  rewrite (scheduled_refs_repaired (set_jobs [] (set_total_batch_size total w))) by done.
  change (scheduled_refs (set_jobs [] (set_total_batch_size total w)))
    with (scheduled_refs w).
  cbn [workers set_workers set_jobs set_total_batch_size total_batch_size].
  rewrite repaired_idemp.
  by exists (log1 ++ log2).
Qed.

Lemma default_batch_size_valid (total : Z) (w : World) :
  Forall (fun wk => eligible (thin_client_mode w) wk = true -> invalid_speed wk = false)
    (workers w) ->
  scheduled_refs w <> [] ->
  exists log,
    default_batch_size (initial_world total w)
    = Ok (initial_world total w, total / Z.of_nat (length (scheduled_refs w)), log).
Proof.
  intros Hvalid Hne. unfold default_batch_size, size.
  destruct (get_workers_eq (initial_world total w)) as [log ->].
  assert (Hrefs : scheduled_refs (initial_world total w) = scheduled_refs w).
  { apply (scheduled_refs_repaired (set_jobs [] (set_total_batch_size total w))), Hvalid. }
  rewrite Hrefs.
  destruct (Z.eqb_spec (Z.of_nat (length (scheduled_refs w))) 0) as [Hz|_].
  { destruct (scheduled_refs w); [done|cbn in Hz; lia]. }
  exists log. f_equal. f_equal. f_equal.
  unfold initial_world. cbn [workers set_workers set_jobs]. by rewrite repaired_idemp.
Qed.

Lemma distribute_valid (batch_eta : Worker -> Payload -> Q) (fuel : nat) (total : Z)
    (p : Payload) (w : World) :
  Forall (fun wk => eligible (thin_client_mode w) wk = true -> invalid_speed wk = false)
    (workers w) ->
  scheduled_refs w <> [] ->
  distribute batch_eta fuel total p w
  = optimize_jobs batch_eta fuel (initial_world total w)
      (with_batch_size (total / Z.of_nat (length (scheduled_refs w))) p).
Proof.
  intros Hvalid Hne. unfold distribute.
  destruct (update_world_valid total w Hvalid Hne) as [log1 ->]. rewrite bind_Ok.
  destruct (default_batch_size_valid total w Hvalid Hne) as [log2 ->]. by rewrite bind_Ok.
Qed.

Lemma is_realtime_benchmarked_positive (ws : list Worker) (j : Job) :
  benchmarked_positive (ws !!! worker j) ->
  is_realtime ws j = negb (complementary j).
Proof.
  intros (Hb & q & Hq & _). unfold is_realtime. rewrite Hb, Hq. reflexivity.
Qed.

(** ** Conservation of the real-time share *)

Section Conservation.
Context (batch_eta : Worker -> Payload -> Q).

Lemma output_size_nonneg (js : list Job) :
  Forall (fun j => 0 <= batch_size j) js -> 0 <= get_current_output_size js.
Proof.
  induction 1 as [|j js Hj _ IH]; [done|]. rewrite get_current_output_size_cons. lia.
Qed.

Lemma complementary_output_size_zero (js : list Job) :
  Forall (fun j => complementary j = true -> batch_size j = 0) js ->
  complementary_output_size js = 0.
Proof.
  unfold complementary_output_size.
  induction 1 as [|j js Hj _ IH]; [done|].
  destruct (complementary j) eqn:Hc.
  - rewrite filter_cons_True by done. rewrite get_current_output_size_cons, IH, Hj; done.
  - rewrite filter_cons_False by congruence. exact IH.
Qed.

Lemma optimize_jobs_conserves (w : World) (p : Payload) :
  jobs w <> [] ->
  Forall (baseline_job batch_eta (workers w) p) (jobs w) ->
  0 <= p_batch_size p ->
  p_batch_size p * Z.of_nat (length (jobs w)) <= total_batch_size w ->
  exists js : list Job,
    (forall fuel, (Z.to_nat (total_batch_size w) <= fuel)%nat ->
                  optimize_jobs batch_eta fuel w p = Ok (set_jobs js w))
    /\ realtime_output_size js = total_batch_size w.
Proof.
  intros Hne Hbase Hb Hfit.
  set (ws := workers w) in *. set (b := p_batch_size p) in *.
  set (total := total_batch_size w) in *.
  (* every initial job is real-time *)
  assert (Hrt0 : rt_workers ws (jobs w) <> []).
  { destruct (jobs w) as [|j0 js0]; [done|].
    apply Forall_cons in Hbase as [(Hc & _ & Hpos & _) _].
    rewrite rt_workers_cons, (is_realtime_benchmarked_positive ws j0 Hpos), Hc. done. }
  destruct (first_best_is_Some (faster ws) _ Hrt0) as [f Hf].
  destruct (rounding_spec batch_eta ws (job_timeout w) total p (jobs w) f Hf)
    as (js1 & d & c & per & js2 & js3 & Hrun & Hall & Hsum & Hred & Hper & Hrem & Htop
        & Hsum3 & _ & Hf3).
  destruct (Hsum Hb) as [Hd Hsum1]. fold b in Hsum1, Hall.
  (* the jobs after classification *)
  assert (H1 : Forall (fun j1 =>
                 benchmarked_positive (ws !!! worker j1)
                 /\ ~ (batch_eta (ws !!! worker j1) (with_batch_size 1 p) == 0)%Q
                 /\ ((complementary j1 = false /\ batch_size j1 = b)
                     \/ (complementary j1 = true /\ batch_size j1 = 0))) js1).
  { clear -Hall Hbase. induction Hall as [|j j1 js js1 Hstep _ IH]; [constructor|].
    apply Forall_cons in Hbase as [(Hc & _ & Hpos & Heta) Hbase].
    constructor; [|by apply IH].
    destruct Hstep as [->|(_ & _ & ->)]; cbn; (split; [done|split; [done|]]);
      [left|right]; done. }
  assert (Hnn1 : 0 <= get_current_output_size js1).
  { apply output_size_nonneg. eapply Forall_impl; [exact H1|]. cbn.
    intros j1 (_ & _ & [[_ ->]|[_ ->]]); lia. }
  (* the jobs after remainder handling *)
  assert (H3 : Forall (fun j3 =>
                 ~ (batch_eta (ws !!! worker j3) (with_batch_size 1 p) == 0)%Q
                 /\ (complementary j3 = false -> 0 <= batch_size j3)
                 /\ (complementary j3 = true -> batch_size j3 = 0)) js3).
  { clear -Htop H1 Hb. induction Htop as [|j1 j3 js1 js3 (Hw & Hc & Hsame & Hle) _ IH];
      [constructor|].
    apply Forall_cons in H1 as [(Hpos & Heta & Hcase) H1].
    constructor; [|by apply IH]. rewrite Hw, Hc. split; [done|].
    rewrite (is_realtime_benchmarked_positive ws j1 Hpos) in Hsame.
    destruct Hcase as [[Hc1 Hb1]|[Hc1 Hb1]]; rewrite Hc1 in *; cbn in Hsame.
    - split; [intros _; lia|done].
    - split; [done|]. intros _. rewrite Hsame by done. exact Hb1. }
  (* what redistribution leaves fits the total *)
  assert (Hfit2 : 0 <= get_current_output_size js2 <= total).
  { destruct Hper as [(_ & _ & ->)|(Hdpos & _ & ->)]; [lia|].
    rewrite raise_realtime_output_size.
    set (R := Z.of_nat (length (rt_counts ws js1))).
    assert (HR : 0 < R).
    { subst R. rewrite rt_counts_length.
      pose proof (fastest_worker_nonempty ws js1) as Hne1.
      destruct (classify_spec batch_eta ws (job_timeout w) total p f (jobs w) [] 0 0 Hf)
        as (js1' & ? & ? & Hrun' & Hf1 & _).
      cbn [app] in Hrun', Hf1. rewrite Hrun in Hrun'. injection Hrun' as <- _ _.
      specialize (Hne1 f Hf1). destruct (rt_workers ws js1); [done|cbn; lia]. }
    pose proof (Z.mul_div_le d R HR). pose proof (Z.div_pos d R ltac:(lia) HR).
    nia. }
  assert (Htotal3 : get_current_output_size js3 = total) by lia.
  assert (Hreal3 : realtime_output_size js3 = total).
  { rewrite output_size_split in Htotal3.
    rewrite complementary_output_size_zero in Htotal3; [lia|].
    eapply Forall_impl; [exact H3|]. cbn. tauto. }
  (* the backfill *)
  assert (Hperb : is_Some per -> p_batch_size p <> 0).
  { intros [n Hn]. destruct Hper as [(-> & _)|(Hdpos & _)]; [discriminate|].
    fold b. nia. }
  destruct (backfill_spec batch_eta ws p per Hperb js3 []) as (js4 & Hback & Hall4).
  { cbn [app]. by eapply fastest_worker_nonempty. }
  { eapply Forall_impl; [exact H3|]. cbn. tauto. }
  cbn [app] in Hback.
  destruct (prune_realtime_output_size js4) as (js5 & Hprune & Hreal5).
  { clear -Hall4 H3. induction Hall4 as [|j3 j4 js3 js4 (Hw & Hc & Hsame) _ IH];
      [constructor|].
    apply Forall_cons in H3 as [(_ & Hnn & _) H3]. constructor; [|by apply IH].
    rewrite Hc. intros Hc3. rewrite (Hsame Hc3). by apply Hnn. }
  exists js5. split.
  - intros fuel Hfuel. unfold optimize_jobs, assign_jobs. fold ws total.
    rewrite Hrun, bind_Ok. cbn beta iota. rewrite Hred, bind_Ok. cbn beta iota.
    rewrite Hrem by lia. rewrite bind_Ok, Hback, bind_Ok, Hprune, bind_Ok. reflexivity.
  - rewrite Hreal5, (backfilled_realtime_output_size js3 js4 Hall4). exact Hreal3.
Qed.
End Conservation.

(** C1 (as amended): on a fleet in which every worker that liveness and
    thin-client mode leave in the schedule is benchmarked with a
    positive speed and has a one-image prediction that is not zero, with
    at least one such worker and a total of at least 0, the distribution
    runs to the end (on any fuel from the total up) and the surviving
    jobs that are not complementary carry exactly the total; the
    surviving complementary jobs carry their backfill on top of it. *)
Theorem realtime_share_is_conserved
    (batch_eta : Worker -> Payload -> Q) (total : Z) (p : Payload) (w0 : World) :
  0 <= total ->
  Forall (fun wk =>
            eligible (thin_client_mode w0) wk = true ->
            benchmarked_positive wk
            /\ ~ (batch_eta wk (with_batch_size 1 p) == 0)%Q) (workers w0) ->
  (exists wk, wk ∈ workers w0 /\ eligible (thin_client_mode w0) wk = true) ->
  exists w' : World,
    (forall fuel, (Z.to_nat total <= fuel)%nat ->
                  distribute batch_eta fuel total p w0 = Ok w')
    /\ realtime_output_size (jobs w') = total
    /\ get_current_output_size (jobs w') = total + complementary_output_size (jobs w').
Proof.
  intros Htotal Hpos (wk0 & Hin0 & Hs0).
  assert (Hvalid : Forall (fun wk => eligible (thin_client_mode w0) wk = true ->
                                     invalid_speed wk = false) (workers w0)).
  { eapply Forall_impl; [exact Hpos|]. cbn. intros wk Hwk He.
    by apply benchmarked_positive_valid, Hwk. }
  assert (Hne : scheduled_refs w0 <> []).
  { apply (scheduled_refs_nonempty w0 wk0 Hin0). rewrite scheduled_eligible, Hs0.
    by rewrite (proj1 (Forall_forall _ _) Hvalid wk0 Hin0 Hs0). }
  set (N := Z.of_nat (length (scheduled_refs w0))).
  assert (HN : 0 < N) by (subst N; destruct (scheduled_refs w0); [done|cbn; lia]).
  destruct (optimize_jobs_conserves batch_eta (initial_world total w0)
              (with_batch_size (total / N) p)) as (js & Hrun & Hreal).
  - cbn [initial_world jobs set_jobs]. by destruct (scheduled_refs w0).
  - change (workers (initial_world total w0)) with (map repaired (workers w0)).
    cbn [initial_world jobs set_jobs].
    apply Forall_fmap, Forall_forall. intros r Hr.
    apply scheduled_refs_lookup in Hr as (wk & Hr & Hs).
    pose proof (list_elem_of_lookup_2 _ _ _ Hr) as Hin.
    rewrite scheduled_eligible in Hs. apply andb_true_iff in Hs as [Hinv He].
    apply negb_true_iff in Hinv.
    destruct (proj1 (Forall_forall _ _) Hpos wk Hin He) as [Hbp Heta].
    assert (Hr' : map repaired (workers w0) !! r = Some wk).
    { change (map repaired (workers w0)) with (repaired <$> workers w0).
      rewrite list_lookup_fmap, Hr. cbn. unfold repaired. by rewrite Hinv. }
    unfold baseline_job, compose. cbn [new_job worker complementary batch_size].
    rewrite (list_lookup_total_correct _ _ _ Hr'). done.
  - cbn. apply Z.div_pos; lia.
  - cbn [initial_world jobs set_jobs total_batch_size set_total_batch_size
         with_batch_size p_batch_size set_workers].
    rewrite length_fmap. fold N. rewrite Z.mul_comm. by apply Z.mul_div_le.
  - exists (set_jobs js (initial_world total w0)). split; [|split].
    + intros fuel Hfuel. rewrite distribute_valid by done. fold N. by apply Hrun.
    + exact Hreal.
    + cbn [jobs set_jobs]. rewrite output_size_split. cbn in Hreal. lia.
Qed.

Lemma realtime_share_is_conserved_witness :
  exists w' : World,
    (forall fuel, (Z.to_nat 9 <= fuel)%nat ->
                  distribute eta_by_ipm fuel 9 Scenario.request MoreExamples.with_offline
                  = Ok w')
    /\ realtime_output_size (jobs w') = 9
    /\ get_current_output_size (jobs w') = 9 + complementary_output_size (jobs w').
Proof.
  apply (realtime_share_is_conserved eta_by_ipm 9 Scenario.request MoreExamples.with_offline).
  - lia.
  - repeat constructor; try discriminate;
      try (eexists; split; reflexivity); vm_compute; discriminate.
  - exists (Scenario.local 60). split; [left|reflexivity].
Defined.

(** The run behind the witness: the unreachable worker gets no job, B
    is backfilled with one image next to the 9 of master and A. *)
Example nine_images_with_offline_worker :
  final_jobs (distribute eta_by_ipm 9 9 Scenario.request MoreExamples.with_offline)
  = Ok [ {| worker := 0; batch_size := 5; complementary := false |};
         {| worker := 1; batch_size := 4; complementary := false |};
         {| worker := 2; batch_size := 1; complementary := true |} ].
Proof. vm_compute. reflexivity. Qed.

(** C1, the claim as stated fails: with master and A at 60 ipm and B at
    20 ipm, 9 images requested, B is complementary and is backfilled
    with 1 image, so the surviving jobs carry 5 + 4 + 1 = 10 images. *)
Lemma backfill_exceeds_total :
  exists w' : World,
    distribute eta_by_ipm 9 9 Scenario.request MoreExamples.middling = Ok w'
    /\ jobs w' = [ {| worker := 0; batch_size := 5; complementary := false |};
                   {| worker := 1; batch_size := 4; complementary := false |};
                   {| worker := 2; batch_size := 1; complementary := true |} ]
    /\ get_current_output_size (jobs w') <> 9.
Proof.
  eexists. split; [vm_compute; reflexivity|]. split; [reflexivity|].
  vm_compute. discriminate.
Qed.

(** ** Two runs on fleets that agree *)

Lemma outcome_rel_bind {A B C D : Type} (R : A -> B -> Prop) (S : C -> D -> Prop)
    (m1 : outcome A) (m2 : outcome B) (k1 : A -> outcome C) (k2 : B -> outcome D) :
  outcome_rel R m1 m2 ->
  (forall a b, R a b -> outcome_rel S (k1 a) (k2 b)) ->
  outcome_rel S (m1 ≫= k1) (m2 ≫= k2).
Proof.
  destruct m1 as [a|e1|], m2 as [b|e2|]; cbn; try done. intros HR Hk. by apply Hk.
Qed.

Lemma agree_lookup_total (ws1 ws2 : list Worker) (r : nat) :
  agree ws1 ws2 -> sched_view (ws1 !!! r) = sched_view (ws2 !!! r).
Proof.
  intros Hag. rewrite !list_lookup_total_alt.
  destruct (ws1 !! r) as [wk1|] eqn:H1.
  - destruct (Forall2_lookup_l _ _ _ _ _ Hag H1) as (wk2 & -> & Hv). exact Hv.
  - apply lookup_ge_None in H1. rewrite (Forall2_length _ _ _ Hag) in H1.
    apply lookup_ge_None in H1. by rewrite H1.
Qed.

Section TwoRuns.
Context (batch_eta : Worker -> Payload -> Q).
Context (ws1 ws2 : list Worker).
Hypothesis Hagree : agree ws1 ws2.
Hypothesis Heta : reads_speed_only batch_eta.

Lemma agree_avg_ipm (r : nat) : avg_ipm (ws1 !!! r) = avg_ipm (ws2 !!! r).
Proof. pose proof (agree_lookup_total ws1 ws2 r Hagree) as H. by injection H. Qed.

Lemma agree_is_realtime (j : Job) : is_realtime ws1 j = is_realtime ws2 j.
Proof.
  pose proof (agree_lookup_total ws1 ws2 (worker j) Hagree) as H.
  injection H as _ Hipm Hb _. unfold is_realtime. by rewrite Hipm, Hb.
Qed.

Lemma agree_realtime_from (js : list Job) :
  forall i, realtime_from ws1 i js = realtime_from ws2 i js.
Proof.
  induction js as [|j js IH]; intros i; [done|].
  cbn [realtime_from]. by rewrite agree_is_realtime, IH.
Qed.

Lemma agree_realtime_jobs (js : list Job) : realtime_jobs ws1 js = realtime_jobs ws2 js.
Proof. apply agree_realtime_from. Qed.

Lemma agree_ipm_key (rj : nat * Job) : ipm_key ws1 rj = ipm_key ws2 rj.
Proof. unfold ipm_key. by rewrite agree_avg_ipm. Qed.

Lemma agree_sorted_by_ipm (reverse : bool) (l : list (nat * Job)) :
  sorted_Q (ipm_key ws1) reverse l = sorted_Q (ipm_key ws2) reverse l.
Proof.
  unfold sorted_Q. apply sort_stable_ext. intros a b. by rewrite !agree_ipm_key.
Qed.

Lemma agree_fastest_realtime_job (js : list Job) :
  fastest_realtime_job ws1 js = fastest_realtime_job ws2 js.
Proof.
  unfold fastest_realtime_job. by rewrite agree_realtime_jobs, agree_sorted_by_ipm.
Qed.

Lemma agree_slowest_realtime_job (js : list Job) :
  slowest_realtime_job ws1 js = slowest_realtime_job ws2 js.
Proof.
  unfold slowest_realtime_job. by rewrite agree_realtime_jobs, agree_sorted_by_ipm.
Qed.

Lemma agree_batch_eta (r : nat) (p : Payload) :
  batch_eta (ws1 !!! r) p = batch_eta (ws2 !!! r) p.
Proof. apply Heta, agree_avg_ipm. Qed.

Lemma agree_job_stall (js : list Job) (r : nat) (p : Payload) :
  job_stall batch_eta ws1 js r p = job_stall batch_eta ws2 js r p.
Proof.
  unfold job_stall. rewrite agree_fastest_realtime_job.
  destruct (fastest_realtime_job ws2 js) as [f| |]; [|done..].
  rewrite !bind_Ok. by rewrite !agree_batch_eta.
Qed.

Lemma agree_classify (timeout : Q) (total : Z) (p : Payload) (todo : list Job) :
  forall (done : list Job) (d c : Z),
    classify batch_eta ws1 timeout total p done todo d c
    = classify batch_eta ws2 timeout total p done todo d c.
Proof.
  induction todo as [|job rest IH]; intros seen d c; [reflexivity|].
  cbn [classify]. rewrite agree_job_stall.
  destruct (job_stall batch_eta ws2 (seen ++ job :: rest) (worker job) p) as [lag| |];
    [|reflexivity..].
  rewrite !bind_Ok. destruct (within_tolerance timeout lag); apply IH.
Qed.

Lemma agree_redistribute (d : Z) (js : list Job) :
  redistribute ws1 d js = redistribute ws2 d js.
Proof. unfold redistribute. by rewrite agree_realtime_jobs. Qed.

Lemma agree_handle_remainder (fuel : nat) (total : Z) (js : list Job) :
  handle_remainder fuel ws1 total js = handle_remainder fuel ws2 total js.
Proof. unfold handle_remainder. by rewrite agree_realtime_jobs. Qed.

Lemma agree_num_images_compensate (js : list Job) (p : Payload) (per : option Z)
    (job : Job) :
  num_images_compensate batch_eta ws1 js p per job
  = num_images_compensate batch_eta ws2 js p per job.
Proof.
  unfold num_images_compensate. rewrite agree_slowest_realtime_job.
  destruct (slowest_realtime_job ws2 js) as [slowest| |]; [|done..].
  rewrite !bind_Ok. by rewrite !agree_batch_eta.
Qed.

Lemma agree_backfill (p : Payload) (per : option Z) (todo : list Job) :
  forall done : list Job,
    backfill batch_eta ws1 p per done todo = backfill batch_eta ws2 p per done todo.
Proof.
  induction todo as [|job rest IH]; intros seen; [reflexivity|].
  cbn [backfill]. destruct (complementary job); [|apply IH].
  rewrite agree_num_images_compensate.
  destruct (num_images_compensate batch_eta ws2 (seen ++ job :: rest) p per job)
    as [n| |]; [|reflexivity..].
  rewrite !bind_Ok. apply IH.
Qed.

Lemma agree_get_workers_from (thin : bool) :
  forall i,
    (get_workers_from thin i ws1).1.2 = (get_workers_from thin i ws2).1.2
    /\ agree (get_workers_from thin i ws1).1.1 (get_workers_from thin i ws2).1.1.
Proof.
  clear Heta. induction Hagree as [|wk1 wk2 l1 l2 Hview Hrest IH]; intros i.
  - split; [done|constructor].
  - cbn [get_workers_from]. destruct (IH Hrest (S i)) as [Hrefs Hstore].
    destruct (get_workers_from thin (S i) l1) as [[store1 filtered1] log1].
    destruct (get_workers_from thin (S i) l2) as [[store2 filtered2] log2].
    cbn [fst snd] in Hrefs, Hstore. subst filtered2.
    injection Hview as Hm Hipm Hb Hst.
    unfold invalid_speed. rewrite Hipm, Hm, Hst.
    destruct (match avg_ipm wk2 with Some q => Qle_bool q 0 | None => false end).
    { cbn [fst snd]. split; [done|]. constructor; [|done].
      unfold sched_view. cbn. by rewrite Hm, Hb, Hst. }
    destruct (master wk2 && thin).
    { cbn [fst snd]. split; [done|]. constructor; [|done].
      unfold sched_view. by rewrite Hm, Hipm, Hb, Hst. }
    destruct (decide (state wk2 <> UNAVAILABLE)); cbn [fst snd];
      (split; [done|]); (constructor; [|done]);
      unfold sched_view; by rewrite Hm, Hipm, Hb, Hst.
Qed.
End TwoRuns.

Lemma same_state_get_workers (w1 w2 : World) :
  same_state w1 w2 ->
  (get_workers w1).1.2 = (get_workers w2).1.2
  /\ same_state (get_workers w1).1.1 (get_workers w2).1.1.
Proof.
  intros ((Hag & Hthin & Htime) & Hjobs & Htotal). unfold get_workers.
  rewrite <- Hthin.
  destruct (agree_get_workers_from (workers w1) (workers w2) Hag (thin_client_mode w1) 0)
    as [Hrefs Hstore].
  destruct (get_workers_from (thin_client_mode w1) 0 (workers w1)) as [[s1 f1] l1].
  destruct (get_workers_from (thin_client_mode w1) 0 (workers w2)) as [[s2 f2] l2].
  cbn [fst snd] in *. split; [done|]. by repeat split.
Qed.

Lemma same_state_default_batch_size (w1 w2 : World) :
  same_state w1 w2 ->
  outcome_rel (fun x y => same_state x.1.1 y.1.1 /\ x.1.2 = y.1.2)
    (default_batch_size w1) (default_batch_size w2).
Proof.
  intros Hsame. unfold default_batch_size, size.
  destruct (same_state_get_workers w1 w2 Hsame) as [Hrefs Hstate].
  destruct (get_workers w1) as [[w1' f1] l1], (get_workers w2) as [[w2' f2] l2].
  cbn [fst snd] in *. subst f2.
  destruct (Z.of_nat (length f1) =? 0); cbn; [done|].
  split; [done|]. destruct Hstate as (_ & _ & ->). done.
Qed.

Lemma same_fleet_update_world (total : Z) (w1 w2 : World) :
  same_fleet w1 w2 ->
  outcome_rel (fun x y => same_state x.1 y.1)
    (update_world total w1) (update_world total w2).
Proof.
  intros (Hag & Hthin & Htime). unfold update_world, update_jobs.
  eapply outcome_rel_bind.
  - apply same_state_default_batch_size. by repeat split.
  - intros [[w1' b1] l1] [[w2' b2] l2] [Hstate Hb]. cbn [fst snd] in *. subst b2.
    destruct (same_state_get_workers w1' w2' Hstate) as [Hrefs Hstate'].
    destruct (get_workers w1') as [[w1'' f1] l1'], (get_workers w2') as [[w2'' f2] l2'].
    cbn [fst snd] in *. subst f2. cbn.
    destruct Hstate' as ((? & ? & ?) & _ & ?). by repeat split.
Qed.

Section TwoRunsOfOptimize.
Context (batch_eta : Worker -> Payload -> Q).
Hypothesis Heta : reads_speed_only batch_eta.

Lemma same_state_assign_jobs (fuel : nat) (p : Payload) (w1 w2 : World) :
  same_state w1 w2 ->
  assign_jobs batch_eta fuel w1 p = assign_jobs batch_eta fuel w2 p.
Proof.
  intros ((Hag & Hthin & Htime) & Hjobs & Htotal). unfold assign_jobs.
  rewrite Hjobs, Htotal, Htime.
  rewrite (agree_classify batch_eta _ _ Hag Heta).
  destruct (classify batch_eta (workers w2) _ _ p [] (jobs w2) 0 0) as [[[js d] c]| |];
    [|reflexivity..].
  rewrite !bind_Ok. cbn beta iota.
  rewrite (agree_redistribute _ _ Hag).
  destruct (redistribute (workers w2) d js) as [[per js2]| |]; [|reflexivity..].
  rewrite !bind_Ok. cbn beta iota.
  rewrite (agree_handle_remainder _ _ Hag).
  destruct (handle_remainder fuel (workers w2) (total_batch_size w2) js2) as [js3| |];
    [|reflexivity..].
  rewrite !bind_Ok. apply (agree_backfill batch_eta _ _ Hag Heta).
Qed.

Lemma same_state_optimize_jobs (fuel : nat) (p : Payload) (w1 w2 : World) :
  same_state w1 w2 ->
  final_jobs (optimize_jobs batch_eta fuel w1 p)
  = final_jobs (optimize_jobs batch_eta fuel w2 p).
Proof.
  intros Hsame. unfold optimize_jobs. rewrite (same_state_assign_jobs fuel p w1 w2 Hsame).
  destruct (assign_jobs batch_eta fuel w2 p) as [js| |]; [|reflexivity..].
  rewrite !bind_Ok. destruct (prune js) as [js'| |]; reflexivity.
Qed.

(** C9 (as amended): two runs of the distribution on fleets that agree,
    worker by worker, on the master flag, the ipm value, the benchmarked
    flag and the liveness state, and on the thin-client mode and the
    stall tolerance, with the same total, payload and fuel and a
    predictor that only reads the speed, end the same way: the same
    failure, or the same jobs with the same owners, image counts and
    complementary flags in the same order. *)
Theorem distribution_is_deterministic
    (fuel : nat) (total : Z) (p : Payload) (w1 w2 : World) :
  same_fleet w1 w2 ->
  final_jobs (distribute batch_eta fuel total p w1)
  = final_jobs (distribute batch_eta fuel total p w2).
Proof.
  intros Hfleet. unfold distribute.
  pose proof (same_fleet_update_world total w1 w2 Hfleet) as Hupd.
  destruct (update_world total w1) as [[w1' l1]| |],
           (update_world total w2) as [[w2' l2]| |]; cbn in Hupd; try done;
    [|by subst].
  rewrite !bind_Ok. cbn beta iota.
  pose proof (same_state_default_batch_size w1' w2' Hupd) as Hdef.
  destruct (default_batch_size w1') as [[[w1'' b1] l1']| |],
           (default_batch_size w2') as [[[w2'' b2] l2']| |]; cbn in Hdef; try done;
    [|by subst].
  rewrite !bind_Ok. cbn beta iota. destruct Hdef as [Hstate ->].
  by apply same_state_optimize_jobs.
Qed.
End TwoRunsOfOptimize.

Lemma eta_by_ipm_reads_speed_only : reads_speed_only eta_by_ipm.
Proof. intros wk wk' p Hipm. unfold eta_by_ipm. by rewrite Hipm. Qed.

Lemma distribution_is_deterministic_witness :
  final_jobs (distribute eta_by_ipm 9 9 Scenario.request Scenario.three_nodes)
  = final_jobs (distribute eta_by_ipm 9 9 Scenario.request FlagExamples.renamed_nodes).
Proof.
  apply (distribution_is_deterministic eta_by_ipm eta_by_ipm_reads_speed_only
           9 9 Scenario.request Scenario.three_nodes FlagExamples.renamed_nodes).
  split; [|split; reflexivity].
  repeat constructor.
Defined.

(** C9, the claim as stated fails: two fleets with the same ipm values,
    liveness states, total and stall tolerance, one of which holds a
    worker that is not flagged as benchmarked, end with different
    jobs. *)
Lemma benchmarked_flag_changes_the_jobs :
  same_claimed_inputs FlagExamples.all_benchmarked FlagExamples.one_unflagged
  /\ final_jobs (distribute eta_by_ipm 5 5 Scenario.request FlagExamples.all_benchmarked)
     = Ok [ {| worker := 0; batch_size := 2; complementary := false |};
            {| worker := 1; batch_size := 2; complementary := false |};
            {| worker := 2; batch_size := 1; complementary := false |} ]
  /\ final_jobs (distribute eta_by_ipm 5 5 Scenario.request FlagExamples.one_unflagged)
     = Ok [ {| worker := 0; batch_size := 2; complementary := false |};
            {| worker := 1; batch_size := 1; complementary := false |};
            {| worker := 2; batch_size := 2; complementary := false |} ]
  /\ final_jobs (distribute eta_by_ipm 5 5 Scenario.request FlagExamples.all_benchmarked)
     <> final_jobs (distribute eta_by_ipm 5 5 Scenario.request FlagExamples.one_unflagged).
Proof.
  split; [by repeat split|].
  split; [vm_compute; reflexivity|]. split; [vm_compute; reflexivity|].
  vm_compute. discriminate.
Qed.

(** ** The flags after the classification loop *)

Lemma same_flags_refl (js : list Job) : same_flags js js.
Proof. induction js; constructor; done. Qed.

Lemma same_flags_trans (js1 js2 js3 : list Job) :
  same_flags js1 js2 -> same_flags js2 js3 -> same_flags js1 js3.
Proof.
  apply Forall2_trans. intros j1 j2 j3 [Hw1 Hc1] [Hw2 Hc2]. split; congruence.
Qed.

Lemma same_flags_alter (g : Job -> Job) (i : nat) (js : list Job) :
  (forall j, worker (g j) = worker j /\ complementary (g j) = complementary j) ->
  same_flags js (alter g i js).
Proof.
  intros Hg. revert i. induction js as [|j js IH]; intros [|i]; cbn.
  - constructor.
  - constructor.
  - constructor; [apply Hg|apply same_flags_refl].
  - constructor; [done|apply IH].
Qed.

Lemma same_flags_foldl_alter (g : Job -> Job) (rt : list (nat * Job)) :
  (forall j, worker (g j) = worker j /\ complementary (g j) = complementary j) ->
  forall js, same_flags js (foldl (fun acc (rj : nat * Job) => alter g rj.1 acc) js rt).
Proof.
  intros Hg. induction rt as [|rj rt IH]; intros js; [apply same_flags_refl|].
  cbn [foldl]. eapply same_flags_trans; [|apply IH]. by apply same_flags_alter.
Qed.

Lemma redistribute_same_flags (ws : list Worker) (d : Z) (js js2 : list Job)
    (per : option Z) :
  redistribute ws d js = Ok (per, js2) -> same_flags js js2.
Proof.
  unfold redistribute. destruct (d >? 0); [|intros [= _ <-]; apply same_flags_refl].
  destruct (_ =? 0); [discriminate|]. intros [= _ <-].
  by apply same_flags_foldl_alter.
Qed.

Lemma round_robin_pass_same_flags (rt : list (nat * Job)) :
  forall (rem : Z) (js : list Job), same_flags js (round_robin_pass rt rem js).2.
Proof.
  induction rt as [|rj rt IH]; intros rem js; [apply same_flags_refl|].
  cbn [round_robin_pass]. destruct (rem <? 1); [apply same_flags_refl|].
  eapply same_flags_trans; [|apply IH]. by apply same_flags_alter.
Qed.

Lemma round_robin_same_flags (rt : list (nat * Job)) :
  forall (fuel : nat) (rem : Z) (js js' : list Job),
    round_robin fuel rt rem js = Ok js' -> same_flags js js'.
Proof.
  induction fuel as [|fuel IH]; intros rem js js'; cbn [round_robin].
  - destruct (rem >=? 1); [discriminate|]. intros [= <-]. apply same_flags_refl.
  - destruct (rem >=? 1); [|intros [= <-]; apply same_flags_refl].
    pose proof (round_robin_pass_same_flags rt rem js) as Hpass.
    destruct (round_robin_pass rt rem js) as [rem1 js1]. cbn [snd] in Hpass.
    intros Hrun. eapply same_flags_trans; [exact Hpass|]. by eapply IH.
Qed.

Lemma handle_remainder_same_flags (fuel : nat) (ws : list Worker) (total : Z)
    (js js' : list Job) :
  handle_remainder fuel ws total js = Ok js' -> same_flags js js'.
Proof.
  unfold handle_remainder. destruct (_ >=? 1); [|intros [= <-]; apply same_flags_refl].
  apply round_robin_same_flags.
Qed.

Lemma backfill_same_flags (batch_eta : Worker -> Payload -> Q) (ws : list Worker)
    (p : Payload) (per : option Z) (todo : list Job) :
  forall (seen js4 : list Job),
    backfill batch_eta ws p per seen todo = Ok js4 ->
    exists todo', js4 = seen ++ todo' /\ same_flags todo todo'.
Proof.
  induction todo as [|job rest IH]; intros seen js4; cbn [backfill].
  - intros [= <-]. exists []. split; [by rewrite app_nil_r|constructor].
  - destruct (complementary job) eqn:Hc.
    + destruct (num_images_compensate batch_eta ws (seen ++ job :: rest) p per job)
        as [n| |]; [|discriminate..].
      rewrite bind_Ok. intros Hrun.
      destruct (IH _ _ Hrun) as (todo' & -> & Hall).
      exists (set_batch_size n job :: todo'). rewrite <- app_assoc.
      split; [reflexivity|]. constructor; [by split|exact Hall].
    + intros Hrun. destruct (IH _ _ Hrun) as (todo' & -> & Hall).
      exists (job :: todo'). rewrite <- app_assoc.
      split; [reflexivity|]. constructor; [by split|exact Hall].
Qed.

(** Whenever the phases after the classification loop produce a job
    list, its owners and flags are those the loop left. *)
Lemma assign_jobs_same_flags (batch_eta : Worker -> Payload -> Q) (fuel : nat)
    (w : World) (p : Payload) (js1 js : list Job) (d c : Z) :
  classify batch_eta (workers w) (job_timeout w) (total_batch_size w) p [] (jobs w) 0 0
    = Ok (js1, d, c) ->
  assign_jobs batch_eta fuel w p = Ok js ->
  same_flags js1 js.
Proof.
  intros Hrun. unfold assign_jobs. rewrite Hrun, bind_Ok. cbn beta iota.
  destruct (redistribute (workers w) d js1) as [[per js2]| |] eqn:Hred; [|discriminate..].
  rewrite bind_Ok. cbn beta iota.
  destruct (handle_remainder fuel (workers w) (total_batch_size w) js2) as [js3| |] eqn:Hrem;
    [|discriminate..].
  rewrite bind_Ok. intros Hback.
  apply backfill_same_flags in Hback as (js4 & -> & H4). cbn [app].
  eapply same_flags_trans; [by eapply redistribute_same_flags|].
  eapply same_flags_trans; [by eapply handle_remainder_same_flags|done].
Qed.

Lemma within_tolerance_no_lag (timeout x : Q) : within_tolerance timeout (x - x) = true.
Proof.
  unfold within_tolerance. apply orb_true_iff. right.
  apply Qeq_bool_iff. apply Qplus_opp_r.
Qed.

(** ** The fastest worker *)

(** C4: the job that [fastest_realtime_job] designates belongs to a
    worker of maximal ipm among the real-time jobs; the lag computed for
    that worker is 0; the classification loop runs to its end and leaves
    that job, at its position, non-complementary, and so does whatever
    the later phases of [optimize_jobs] produce. A real-time job whose
    worker ties with it on ipm is left non-complementary as well when
    the predictor only reads the speed. *)
Theorem fastest_worker_is_never_complementary
    (batch_eta : Worker -> Payload -> Q) (w : World) (p : Payload) (i : nat) (job : Job) :
  fastest_realtime_job (workers w) (jobs w) = Ok (i, job) ->
  (forall rj, rj ∈ realtime_jobs (workers w) (jobs w) ->
     (ipm_key (workers w) rj <= ipm_key (workers w) (i, job))%Q)
  /\ job_stall batch_eta (workers w) (jobs w) (worker job) p = Ok 0%Q
  /\ exists (js1 : list Job) (d c : Z),
       classify batch_eta (workers w) (job_timeout w) (total_batch_size w) p
         [] (jobs w) 0 0 = Ok (js1, d, c)
       /\ (exists job1, js1 !! i = Some job1
                        /\ worker job1 = worker job /\ complementary job1 = false)
       /\ (forall fuel js,
             assign_jobs batch_eta fuel w p = Ok js ->
             exists job4, js !! i = Some job4
                          /\ worker job4 = worker job /\ complementary job4 = false)
       /\ (reads_speed_only batch_eta ->
           forall i' job',
             jobs w !! i' = Some job' ->
             is_realtime (workers w) job' = true ->
             avg_ipm (workers w !!! worker job') = avg_ipm (workers w !!! worker job) ->
             exists job1', js1 !! i' = Some job1'
                           /\ worker job1' = worker job' /\ complementary job1' = false).
Proof.
  intros Hfast. split; [|split].
  - intros rj Hrj. rewrite fastest_realtime_job_first_best in Hfast.
    destruct (first_best _ (realtime_jobs (workers w) (jobs w))) as [best|] eqn:Hbest;
      [|discriminate].
    injection Hfast as ->.
    by apply (first_best_maximal (ipm_key (workers w)) _ _ Hbest).
  - apply fastest_realtime_job_Ok in Hfast as (Hf & _ & _).
    rewrite (job_stall_fastest batch_eta _ _ _ _ p Hf). by rewrite decide_True.
  - apply fastest_realtime_job_Ok in Hfast as (Hf & Hi & Hrt).
    destruct (classify_spec batch_eta (workers w) (job_timeout w) (total_batch_size w) p
                (worker job) (jobs w) [] 0 0 Hf)
      as (js1 & d & c & Hrun & _ & Hall & _).
    cbn [app] in Hrun.
    destruct (Forall2_lookup_l _ _ _ _ _ Hall Hi) as (job1 & Hi1 & Hstep).
    assert (Hjob1 : worker job1 = worker job /\ complementary job1 = false).
    { apply is_realtime_complementary in Hrt.
      destruct Hstep as [->|(Hne & _)]; [by split|done]. }
    exists js1, d, c. split; [exact Hrun|]. split; [by exists job1|]. split.
    + intros fuel js Hjs.
      pose proof (assign_jobs_same_flags batch_eta fuel w p js1 js d c Hrun Hjs) as Hflags.
      destruct (Forall2_lookup_l _ _ _ _ _ Hflags Hi1) as (job4 & Hi4 & Hw4 & Hc4).
      exists job4. destruct Hjob1 as [Hw1 Hc1]. split; [done|]. split; congruence.
    + intros Heta i' job' Hi' Hrt' Htie.
      destruct (Forall2_lookup_l _ _ _ _ _ Hall Hi') as (job1' & Hi1' & Hstep').
      exists job1'. split; [done|].
      apply is_realtime_complementary in Hrt'.
      destruct Hstep' as [->|(_ & Htest & _)]; [by split|].
      unfold tolerated in Htest.
      rewrite (Heta _ _ p Htie), within_tolerance_no_lag in Htest. discriminate.
Qed.

Lemma fastest_worker_is_never_complementary_witness :
  (forall rj, rj ∈ realtime_jobs (workers MoreExamples.unequal_fleet)
                     (jobs MoreExamples.unequal_fleet) ->
     (ipm_key (workers MoreExamples.unequal_fleet) rj
      <= ipm_key (workers MoreExamples.unequal_fleet) (1%nat, new_job 1 3))%Q)
  /\ job_stall eta_by_ipm (workers MoreExamples.unequal_fleet)
       (jobs MoreExamples.unequal_fleet) (worker (new_job 1 3)) (with_batch_size 3 Scenario.request) = Ok 0%Q
  /\ exists (js1 : list Job) (d c : Z),
       classify eta_by_ipm (workers MoreExamples.unequal_fleet)
         (job_timeout MoreExamples.unequal_fleet)
         (total_batch_size MoreExamples.unequal_fleet)
         (with_batch_size 3 Scenario.request) [] (jobs MoreExamples.unequal_fleet) 0 0 = Ok (js1, d, c)
       /\ (exists job1, js1 !! 1%nat = Some job1
                        /\ worker job1 = worker (new_job 1 3)
                        /\ complementary job1 = false)
       /\ (forall fuel js,
             assign_jobs eta_by_ipm fuel MoreExamples.unequal_fleet (with_batch_size 3 Scenario.request) = Ok js ->
             exists job4, js !! 1%nat = Some job4
                          /\ worker job4 = worker (new_job 1 3)
                          /\ complementary job4 = false)
       /\ (reads_speed_only eta_by_ipm ->
           forall i' job',
             jobs MoreExamples.unequal_fleet !! i' = Some job' ->
             is_realtime (workers MoreExamples.unequal_fleet) job' = true ->
             avg_ipm (workers MoreExamples.unequal_fleet !!! worker job')
             = avg_ipm (workers MoreExamples.unequal_fleet !!! worker (new_job 1 3)) ->
             exists job1', js1 !! i' = Some job1'
                           /\ worker job1' = worker job' /\ complementary job1' = false).
Proof.
  apply (fastest_worker_is_never_complementary eta_by_ipm MoreExamples.unequal_fleet
           (with_batch_size 3 Scenario.request) 1 (new_job 1 3)).
  vm_compute. reflexivity.
Defined.

(** The run behind the witness: the slow master is deferred, the two
    remotes of 60 ipm, of which "A" is the designated fastest, stay
    real-time. *)
Example unequal_fleet_classification :
  classify eta_by_ipm (workers MoreExamples.unequal_fleet)
    (job_timeout MoreExamples.unequal_fleet) (total_batch_size MoreExamples.unequal_fleet)
    (with_batch_size 3 Scenario.request) [] (jobs MoreExamples.unequal_fleet) 0 0
  = Ok ([ {| worker := 0; batch_size := 0; complementary := true |};
          {| worker := 1; batch_size := 3; complementary := false |};
          {| worker := 2; batch_size := 3; complementary := false |} ], 3, 6).
Proof. vm_compute. reflexivity. Qed.

(** ** The master's job *)

(** A scheduled master, entry 0 of the registry, owns the job at
    index 0 after [update_jobs]. *)
Lemma update_jobs_master_first (w w' : World) (log : list LogRecord) (wk : Worker)
    (rest : list Worker) :
  workers w = wk :: rest ->
  scheduled (thin_client_mode w) wk = true ->
  update_jobs w = Ok (w', log) ->
  worker <$> jobs w' !! 0%nat = Some 0%nat.
Proof.
  intros Hws Hs. unfold scheduled in Hs.
  apply andb_true_iff in Hs as [Hs Hst]. apply andb_true_iff in Hs as [Hinv Hthin].
  apply negb_true_iff in Hinv, Hthin. apply bool_decide_eq_true in Hst.
  unfold update_jobs, default_batch_size, size, get_workers.
  cbn [thin_client_mode set_jobs workers]. rewrite Hws. cbn [get_workers_from].
  destruct (get_workers_from (thin_client_mode w) 1 rest) as [[store filtered] lg].
  rewrite Hinv, Hthin, decide_True by done. cbn.
  destruct (Z.of_nat (S (length filtered)) =? 0); [discriminate|].
  rewrite bind_Ok. cbn [thin_client_mode set_workers set_jobs workers get_workers_from].
  destruct (get_workers_from (thin_client_mode w) 1 store) as [[store' filtered'] lg'].
  rewrite Hinv, Hthin, decide_True by done. by intros [= <- _].
Qed.

(** ** A fleet without a real-time job *)

(** With jobs but none of them real-time, [optimize_jobs] does not get
    past its first [job_stall]: [sorted(...)[0]] raises. The remainder
    loop can only spin on an empty job list. *)
Lemma optimize_jobs_raises_without_realtime_jobs
    (batch_eta : Worker -> Payload -> Q) (fuel : nat) (w : World) (p : Payload) :
  jobs w <> [] ->
  fastest_worker (workers w) (jobs w) = None ->
  optimize_jobs batch_eta fuel w p = Raise IndexError.
Proof.
  intros Hne Hnone. unfold optimize_jobs, assign_jobs.
  destruct (jobs w) as [|job rest] eqn:Hjobs; [done|].
  cbn [classify app]. unfold job_stall.
  by rewrite (fastest_worker_None _ _ Hnone).
Qed.

(** ** A fleet without a real-time job *)


(** On an empty job list the classification loop, the redistribution
    and the sort have nothing to do; the round robin then runs over the
    empty list and never lowers a remainder of 1 or more. *)
Lemma optimize_jobs_nil
    (batch_eta : Worker -> Payload -> Q) (fuel : nat) (w : World) (p : Payload) :
  jobs w = [] ->
  optimize_jobs batch_eta fuel w p
  = if 1 <=? total_batch_size w then OutOfFuel else Ok (set_jobs [] w).
Proof.
  intros Hnil. unfold optimize_jobs, assign_jobs. rewrite Hnil. cbn.
  unfold handle_remainder. cbn [get_current_output_size foldl realtime_jobs realtime_from].
  rewrite Z.sub_0_r.
  destruct (Z.geb_spec (total_batch_size w) 1) as [Hge|Hlt].
  - unfold sorted_Z. rewrite sort_stable_nil, round_robin_nil by done.
    destruct (Z.leb_spec 1 (total_batch_size w)); [reflexivity|lia].
  - destruct (Z.leb_spec 1 (total_batch_size w)); [lia|reflexivity].
Qed.





(** The one input the loop spins on: no job at all and one image
    requested. *)
Example optimize_jobs_spins_on_no_jobs (fuel : nat) :
  optimize_jobs eta_by_ipm fuel Examples.no_jobs Scenario.request = OutOfFuel.
Proof. by rewrite optimize_jobs_nil. Qed.

(** ** Pruning with a scheduled master *)

Lemma classify_same_workers (batch_eta : Worker -> Payload -> Q) (ws : list Worker)
    (timeout : Q) (total : Z) (p : Payload) (todo : list Job) :
  forall (seen js1 : list Job) (d c d' c' : Z),
    classify batch_eta ws timeout total p seen todo d c = Ok (js1, d', c') ->
    worker <$> js1 = worker <$> (seen ++ todo).
Proof.
  induction todo as [|job rest IH]; intros seen js1 d c d' c'; cbn [classify].
  - intros [= <- _ _]. by rewrite app_nil_r.
  - destruct (job_stall batch_eta ws (seen ++ job :: rest) (worker job) p) as [lag| |];
      [|discriminate..].
    rewrite bind_Ok. destruct (within_tolerance timeout lag); intros Hrun;
      apply IH in Hrun; rewrite Hrun, <- app_assoc, !fmap_app; reflexivity.
Qed.

Lemma same_flags_workers (js js' : list Job) :
  same_flags js js' -> worker <$> js' = worker <$> js.
Proof. induction 1 as [|j j' js js' [Hw _] _ IH]; [done|]. cbn. by rewrite Hw, IH. Qed.

(** C7 (as amended): when the master is scheduled, so that the job at
    index 0 is the master's and no other job is, the pruning step at the
    end of [optimize_jobs] removes exactly the jobs whose image count is
    below 1, except the master's job, which stays at index 0. *)
Theorem pruning_spares_only_the_master
    (batch_eta : Worker -> Payload -> Q) (fuel : nat) (w : World) (p : Payload)
    (j0 : Job) (tl js : list Job) :
  jobs w = j0 :: tl ->
  master (workers w !!! worker j0) = true ->
  Forall (fun j => master (workers w !!! worker j) = false) tl ->
  assign_jobs batch_eta fuel w p = Ok js ->
  optimize_jobs batch_eta fuel w p = Ok (set_jobs (pruned_except_master (workers w) js) w)
  /\ exists j0', pruned_except_master (workers w) js !! 0%nat = Some j0'
                 /\ worker j0' = worker j0.
Proof.
  intros Hjobs Hm Htl Hjs.
  assert (Howners : worker <$> js = worker <$> jobs w).
  { unfold assign_jobs in Hjs.
    destruct (classify batch_eta (workers w) (job_timeout w) (total_batch_size w) p
                [] (jobs w) 0 0) as [[[js1 d] c]| |] eqn:Hrun; [|discriminate..].
    pose proof (classify_same_workers _ _ _ _ _ _ _ _ _ _ _ _ Hrun) as H1.
    cbn [app] in H1. rewrite <- H1. apply same_flags_workers.
    eapply assign_jobs_same_flags; [exact Hrun|].
    unfold assign_jobs. by rewrite Hrun. }
  rewrite Hjobs in Howners. destruct js as [|j0' tl']; [discriminate|].
  cbn in Howners. injection Howners as Hw0 Hwtl.
  assert (Htl' : Forall (fun j => master (workers w !!! worker j) = false) tl').
  { clear -Htl Hwtl. revert tl' Hwtl. induction Htl as [|j tl Hj _ IH]; intros [|j' tl'] Heq;
      try discriminate; constructor.
    - cbn in Heq. injection Heq as -> _. exact Hj.
    - cbn in Heq. injection Heq as _ Heq. by apply IH. }
  unfold optimize_jobs. rewrite Hjs, bind_Ok.
  rewrite (prune_with_master_first (workers w) j0' tl') by (by rewrite ?Hw0).
  split; [reflexivity|]. exists j0'. split; [|done].
  unfold pruned_except_master. rewrite filter_cons_True; [done|]. right. by rewrite Hw0.
Qed.

Lemma pruning_spares_only_the_master_witness :
  optimize_jobs eta_by_ipm 1 MoreExamples.nine_images (with_batch_size 3 Scenario.request)
  = Ok (set_jobs
          (pruned_except_master (workers MoreExamples.nine_images)
             [ {| worker := 0; batch_size := 5; complementary := false |};
               {| worker := 1; batch_size := 4; complementary := false |};
               {| worker := 2; batch_size := 0; complementary := true |} ])
          MoreExamples.nine_images)
  /\ exists j0', pruned_except_master (workers MoreExamples.nine_images)
                   [ {| worker := 0; batch_size := 5; complementary := false |};
                     {| worker := 1; batch_size := 4; complementary := false |};
                     {| worker := 2; batch_size := 0; complementary := true |} ] !! 0%nat
                 = Some j0'
                 /\ worker j0' = worker (new_job 0 3).
Proof.
  apply (pruning_spares_only_the_master eta_by_ipm 1 MoreExamples.nine_images
           (with_batch_size 3 Scenario.request) (new_job 0 3) [new_job 1 3; new_job 2 3]).
  - reflexivity.
  - reflexivity.
  - repeat constructor.
  - vm_compute. reflexivity.
Defined.

(** ** Further runs *)

(** The thin-client mode is an input of the distribution too: the same
    registry gives other jobs once the master is left out. *)
Example thin_client_mode_changes_the_jobs :
  final_jobs (distribute eta_by_ipm 6 6 Scenario.request
                (set_thin_client_mode false Examples.thin_client))
  = Ok [ {| worker := 0; batch_size := 3; complementary := false |};
         {| worker := 2; batch_size := 3; complementary := false |} ]
  /\ final_jobs (distribute eta_by_ipm 6 6 Scenario.request Examples.thin_client)
     = Ok [ {| worker := 1; batch_size := 0; complementary := true |};
            {| worker := 2; batch_size := 6; complementary := false |} ].
Proof. split; vm_compute; reflexivity. Qed.

(** [update_jobs] calls [get_workers] twice. With a stored speed of 0
    the first call, which counts the workers, leaves the repaired worker
    out, and the second, which creates the jobs, returns it: 4 images
    are divided by 1 and handed to 2 jobs. *)
Example update_jobs_counts_before_the_repair :
  (fun r => jobs r.1) <$> (match update_world 4 Examples.stale_speed with
                           | Ok r => Some r
                           | _ => None
                           end)
  = Some [new_job 0 4; new_job 1 4].
Proof. vm_compute. reflexivity. Qed.

(** * Further properties of the registry view *)

Lemma repaired_of_valid (wk : Worker) : invalid_speed wk = false -> repaired wk = wk.
Proof. intros H. unfold repaired. by rewrite H. Qed.

Lemma filter_invalid_repaired (ws : list Worker) :
  filter (fun wk => invalid_speed wk = true) (map repaired ws) = [].
Proof.
  induction ws as [|wk ws IH]; [done|]. cbn [map].
  rewrite filter_cons_False; [exact IH|]. by rewrite repaired_valid.
Qed.

(** X1: after [get_workers] no registered worker is left with a stored
    speed that is set and not positive; a worker whose speed was valid is
    the same as before, one whose speed was not has 1 ipm and is
    otherwise the same, one warning is logged per such worker, and
    nothing but the registry changes in the world. *)
Theorem get_workers_repairs_every_invalid_speed (w : World) :
  Forall (fun wk => invalid_speed wk = false) (workers (get_workers w).1.1)
  /\ Forall2 (fun wk wk' => wk' = if invalid_speed wk then set_avg_ipm (Some 1%Q) wk else wk)
       (workers w) (workers (get_workers w).1.1)
  /\ (get_workers w).1.1 = set_workers (workers (get_workers w).1.1) w
  /\ (get_workers w).2
     = invalid_speed_warning <$> filter (fun wk => invalid_speed wk = true) (workers w).
Proof.
  destruct (get_workers_spec w) as (filtered & -> & _). cbn [fst snd workers set_workers].
  repeat split.
  - apply Forall_forall. intros wk [wk0 [-> _]]%list_elem_of_fmap. apply repaired_valid.
  - induction (workers w) as [|wk ws IH]; constructor; [reflexivity|exact IH].
Qed.

(** X2: from the second call on [get_workers] is stable: on the world a
    first call leaves, it changes nothing, logs nothing and returns the
    references of that world's schedule, call after call. *)
Theorem get_workers_is_stable_after_one_call (w : World) :
  get_workers (get_workers w).1.1
  = ((get_workers w).1.1, scheduled_refs (get_workers w).1.1, []).
Proof.
  destruct (get_workers_spec w) as (filtered & -> & _). cbn [fst].
  destruct (get_workers_spec (set_workers (map repaired (workers w)) w))
    as (filtered' & Heq & _).
  destruct (get_workers_eq (set_workers (map repaired (workers w)) w)) as [log Heq'].
  rewrite Heq' in Heq. injection Heq as Hrefs Hlog. rewrite Heq'.
  cbn [workers set_workers] in *. rewrite filter_invalid_repaired in Hlog.
  rewrite Hlog, repaired_idemp. reflexivity.
Qed.

Lemma scheduled_iff (thin : bool) (wk : Worker) :
  scheduled thin wk = true <->
  invalid_speed wk = false /\ (master wk = true -> thin = false) /\ state wk <> UNAVAILABLE.
Proof.
  unfold scheduled. rewrite !andb_true_iff, !negb_true_iff, bool_decide_eq_true.
  destruct (master wk), thin; cbn; intuition congruence.
Qed.

Lemma scheduled_refs_spec (w : World) :
  StronglySorted lt (scheduled_refs w)
  /\ forall r : nat,
       r ∈ scheduled_refs w <->
       exists wk : Worker,
         workers w !! r = Some wk
         /\ invalid_speed wk = false
         /\ (master wk = true -> thin_client_mode w = false)
         /\ state wk <> UNAVAILABLE.
Proof.
  split.
  - apply (get_workers_from_increasing (thin_client_mode w) (workers w) 0).
  - intros r. unfold scheduled_refs.
    rewrite (get_workers_from_filtered (thin_client_mode w) (workers w) 0 r). split.
    + intros (k & wk & -> & Hk & Hs). exists wk. split; [exact Hk|]. by apply scheduled_iff.
    + intros (wk & Hk & Hs). exists r, wk. split; [done|]. split; [exact Hk|].
      by apply scheduled_iff.
Qed.

(** X3: [get_workers] returns, in registration order and without
    duplicates, exactly the references of the registered workers whose
    stored speed is unset or positive, that are not the master of a thin
    client, and that are not [UNAVAILABLE]. *)
Theorem get_workers_returns_the_schedule_in_registration_order (w : World) :
  StronglySorted lt (get_workers w).1.2
  /\ forall r : nat,
       r ∈ (get_workers w).1.2 <->
       exists wk : Worker,
         workers w !! r = Some wk
         /\ invalid_speed wk = false
         /\ (master wk = true -> thin_client_mode w = false)
         /\ state wk <> UNAVAILABLE.
Proof.
  destruct (get_workers_eq w) as [log Heq]. rewrite Heq. cbn [fst snd].
  apply scheduled_refs_spec.
Qed.

(** ** Threads for the remote workers *)

(** X4: [interrupt_remotes] and [refresh_checkpoints] start a thread for
    exactly the workers that are not the master, not [UNAVAILABLE] and
    whose stored speed is unset or positive, each once and in
    registration order; the master is never among them, in or out of the
    thin-client mode. *)
Theorem remote_threads_reach_every_scheduled_remote (w : World) :
  refresh_checkpoints w = interrupt_remotes w
  /\ StronglySorted lt (interrupt_remotes w).1.2
  /\ forall r : nat,
       r ∈ (interrupt_remotes w).1.2 <->
       exists wk : Worker,
         workers w !! r = Some wk
         /\ master wk = false
         /\ invalid_speed wk = false
         /\ state wk <> UNAVAILABLE.
Proof.
  split; [reflexivity|]. unfold interrupt_remotes.
  destruct (get_workers_eq w) as [log ->]. cbn [fst snd workers set_workers].
  destruct (scheduled_refs_spec w) as [Hsorted Hin]. unfold remote_threads. split.
  - clear Hin. induction Hsorted as [|r l Hl IH Hr]; [constructor|].
    rewrite filter_cons. case_decide; [|exact IH].
    constructor; [exact IH|]. apply Forall_forall. intros x Hx%list_elem_of_filter.
    rewrite Forall_forall in Hr. apply Hr, Hx.
  - intros r. rewrite list_elem_of_filter, Hin. split.
    + intros [Hm (wk & Hk & Hinv & _ & Hst)]. exists wk. repeat split; try done.
      rewrite (list_lookup_total_correct _ _ (repaired wk)) in Hm.
      * rewrite <- Hm. unfold repaired. by destruct (invalid_speed wk).
      * change (map repaired (workers w)) with (repaired <$> workers w).
        by rewrite list_lookup_fmap, Hk.
    + intros (wk & Hk & Hm & Hinv & Hst). split.
      * rewrite (list_lookup_total_correct _ _ (repaired wk)).
        -- rewrite <- Hm. unfold repaired. by destruct (invalid_speed wk).
        -- change (map repaired (workers w)) with (repaired <$> workers w).
           by rewrite list_lookup_fmap, Hk.
      * exists wk. repeat split; try done. intros Hm'. congruence.
Qed.

(** ** The initial jobs *)

Lemma scheduled_refs_nil (w : World) :
  scheduled_refs w = [] <->
  Forall (fun wk => scheduled (thin_client_mode w) wk = false) (workers w).
Proof.
  split.
  - intros Hnil. apply Forall_forall. intros wk Hwk.
    destruct (scheduled (thin_client_mode w) wk) eqn:Hs; [|done].
    by destruct (scheduled_refs_nonempty w wk Hwk Hs).
  - intros Hall. destruct (scheduled_refs w) as [|r l] eqn:Hrefs; [done|].
    destruct (scheduled_refs_lookup w r) as (wk & Hk & Hs); [rewrite Hrefs; left|].
    rewrite Forall_forall in Hall. apply list_elem_of_lookup_2 in Hk.
    rewrite (Hall wk Hk) in Hs. discriminate.
Qed.

Lemma scheduled_refs_after_repair (w : World) (r : nat) :
  r ∈ scheduled_refs w -> r ∈ scheduled_refs (set_workers (map repaired (workers w)) w).
Proof.
  intros (wk & Hk & Hs)%scheduled_refs_lookup. unfold scheduled_refs.
  cbn [thin_client_mode workers set_workers].
  apply (get_workers_from_filtered (thin_client_mode w) (map repaired (workers w)) 0 r).
  exists r, wk. split; [done|]. split; [|exact Hs].
  change (map repaired (workers w)) with (repaired <$> workers w).
  rewrite list_lookup_fmap, Hk. cbn. f_equal. apply repaired_of_valid.
  unfold scheduled in Hs. apply andb_true_iff in Hs as [Hs _].
  apply andb_true_iff in Hs as [Hinv _]. by apply negb_true_iff in Hinv.
Qed.

Lemma update_world_unfold (total : Z) (w : World) :
  exists log : list LogRecord,
    update_world total w
    = if Z.of_nat (length (scheduled_refs w)) =? 0 then Raise ZeroDivisionError
      else
        let w1 := set_workers (map repaired (workers w))
                    (set_jobs [] (set_total_batch_size total w)) in
        Ok (set_jobs
              ((fun r => new_job r (total / Z.of_nat (length (scheduled_refs w))))
                 <$> scheduled_refs w1) w1, log).
Proof.
  unfold update_world, update_jobs, default_batch_size, size.
  destruct (get_workers_eq (set_jobs [] (set_total_batch_size total w))) as [log1 ->].
  change (scheduled_refs (set_jobs [] (set_total_batch_size total w)))
    with (scheduled_refs w).
  destruct (Z.of_nat (length (scheduled_refs w)) =? 0); [by exists []|].
  rewrite bind_Ok.
  match goal with |- context [get_workers ?x] =>
    destruct (get_workers_eq x) as [log2 ->] end.
  exists (log1 ++ log2). cbn [workers set_workers set_jobs set_total_batch_size
                              total_batch_size].
  by rewrite repaired_idemp.
Qed.

(** X5: [update_world] raises [ZeroDivisionError] exactly when no
    registered worker is schedulable at the time of the call, a thin
    client without a reachable remote for one; in every other case it
    returns with at least one job. It fails in no other way. *)
Theorem update_world_fails_exactly_on_an_empty_schedule (total : Z) (w : World) :
  match update_world total w with
  | Ok (w', _) =>
      Exists (fun wk => scheduled (thin_client_mode w) wk = true) (workers w)
      /\ jobs w' <> []
  | Raise e =>
      e = ZeroDivisionError
      /\ Forall (fun wk => scheduled (thin_client_mode w) wk = false) (workers w)
  | OutOfFuel => False
  end.
Proof.
  destruct (update_world_unfold total w) as [log ->].
  destruct (Z.eqb_spec (Z.of_nat (length (scheduled_refs w))) 0) as [Hz|Hnz].
  - split; [done|]. apply scheduled_refs_nil. destruct (scheduled_refs w); [done|cbn in Hz; lia].
  - cbn zeta. destruct (scheduled_refs w) as [|r l] eqn:Hrefs; [done|]. split.
    + destruct (scheduled_refs_lookup w r) as (wk & Hk & Hs); [rewrite Hrefs; left|].
      apply Exists_exists. exists wk. split; [|exact Hs]. by apply list_elem_of_lookup_2 in Hk.
    + cbn [jobs set_jobs]. intros Hnil%fmap_nil_inv.
      assert (Hin : r ∈ scheduled_refs w) by (rewrite Hrefs; left).
      apply scheduled_refs_after_repair in Hin.
      change (scheduled_refs (set_workers (map repaired (workers w)) w))
        with (scheduled_refs (set_workers (map repaired (workers w))
                                (set_jobs [] (set_total_batch_size total w)))) in Hin.
      rewrite Hnil in Hin. by apply elem_of_nil in Hin.
Qed.

Lemma get_current_output_size_new_jobs (b : Z) (refs : list nat) :
  get_current_output_size ((fun r => new_job r b) <$> refs) = b * Z.of_nat (length refs).
Proof.
  induction refs as [|r refs IH]; [cbn; lia|].
  rewrite fmap_cons, get_current_output_size_cons, IH. cbn [batch_size new_job length]. lia.
Qed.

(** X6: on a fleet in which every worker that is eligible has a valid
    stored speed, [update_world] for a total of at least 0 creates one
    job per scheduled worker, none of them complementary, each with
    [total // N] images, [N] being the number of jobs; together the jobs
    hold at most [total] images and fall short of it by less than [N]. *)
Theorem update_world_baseline_falls_short_by_less_than_one_each
    (total : Z) (w w' : World) (log : list LogRecord) :
  Forall (fun wk => eligible (thin_client_mode w) wk = true -> invalid_speed wk = false)
    (workers w) ->
  0 <= total ->
  update_world total w = Ok (w', log) ->
  worker <$> jobs w' = scheduled_refs w
  /\ Forall (fun j => batch_size j = total / Z.of_nat (length (jobs w'))
                      /\ complementary j = false) (jobs w')
  /\ total - Z.of_nat (length (jobs w')) < get_current_output_size (jobs w') <= total.
Proof.
  intros Hvalid Htotal. destruct (update_world_unfold total w) as [log' ->].
  destruct (Z.eqb_spec (Z.of_nat (length (scheduled_refs w))) 0) as [Hz|Hnz]; [done|].
  cbn zeta.
  assert (Hrefs : scheduled_refs (set_workers (map repaired (workers w))
                                    (set_jobs [] (set_total_batch_size total w)))
                  = scheduled_refs w).
  { apply (scheduled_refs_repaired (set_jobs [] (set_total_batch_size total w))), Hvalid. }
  rewrite Hrefs. intros [= <- _]. cbn [jobs set_jobs]. rewrite length_fmap.
  set (n := Z.of_nat (length (scheduled_refs w))) in *.
  split; [|split].
  - rewrite <- list_fmap_compose. generalize (total / n). intros b. clear.
    induction (scheduled_refs w) as [|r l IH]; [done|]. cbn. by rewrite IH.
  - apply Forall_forall. intros j [r [-> _]]%list_elem_of_fmap. done.
  - rewrite get_current_output_size_new_jobs. fold n.
    assert (0 < n) by lia.
    pose proof (Z.mul_div_le total n ltac:(lia)).
    pose proof (Z.mul_succ_div_gt total n ltac:(lia)). nia.
Qed.

Lemma update_world_baseline_falls_short_by_less_than_one_each_witness :
  worker <$> [new_job 0 1; new_job 1 1; new_job 2 1] = scheduled_refs Scenario.three_equals
  /\ Forall (fun j => batch_size j = 5 / Z.of_nat (length [new_job 0 1; new_job 1 1; new_job 2 1])
                      /\ complementary j = false) [new_job 0 1; new_job 1 1; new_job 2 1]
  /\ 5 - Z.of_nat (length [new_job 0 1; new_job 1 1; new_job 2 1])
     < get_current_output_size [new_job 0 1; new_job 1 1; new_job 2 1] <= 5.
Proof.
  apply (update_world_baseline_falls_short_by_less_than_one_each 5 Scenario.three_equals
           (set_jobs [new_job 0 1; new_job 1 1; new_job 2 1]
              (set_total_batch_size 5 Scenario.three_equals)) []).
  - repeat constructor.
  - lia.
  - vm_compute. reflexivity.
Defined.

(** * Further properties of the distribution *)

(** ** The slowest and the fastest real-time job *)

Lemma Qlt_bool_true (x y : Q) : Qlt_bool x y = true -> (x < y)%Q.
Proof.
  unfold Qlt_bool. intros H%negb_true_iff.
  destruct (Qlt_le_dec x y) as [Hlt|Hle]; [exact Hlt|].
  apply Qle_bool_iff in Hle. congruence.
Qed.

Lemma first_best_minimal {A : Type} (key : A -> Q) (l : list A) (b : A) :
  first_best (fun a c => Qlt_bool (key a) (key c)) l = Some b ->
  forall x, x ∈ l -> (key b <= key x)%Q.
Proof.
  revert b. induction l as [|z l IH]; intros b Hb x Hx; [by apply not_elem_of_nil in Hx|].
  cbn in Hb.
  destruct (first_best (fun a c => Qlt_bool (key a) (key c)) l) as [y|] eqn:Hy.
  - destruct (Qlt_bool (key y) (key z)) eqn:Hyz; injection Hb as <-.
    + apply elem_of_cons in Hx as [Hx|Hx]; [subst x|by apply (IH y)].
      by apply Qlt_le_weak, Qlt_bool_true.
    + apply Qlt_bool_false in Hyz.
      apply elem_of_cons in Hx as [Hx|Hx]; [subst x; apply Qle_refl|].
      eapply Qle_trans; [exact Hyz|by apply (IH y)].
  - injection Hb as <-. destruct l as [|y' l'].
    + apply list_elem_of_singleton in Hx as ->. apply Qle_refl.
    + destruct (first_best_is_Some (fun a c => Qlt_bool (key a) (key c)) (y' :: l'))
        as [? Hsome]; [done|]. congruence.
Qed.

Lemma slowest_realtime_job_first_best (ws : list Worker) (js : list Job) :
  slowest_realtime_job ws js
  = match first_best (fun a b => Qlt_bool (ipm_key ws a) (ipm_key ws b))
            (realtime_jobs ws js) with
    | Some rj => Ok rj
    | None => Raise IndexError
    end.
Proof. unfold slowest_realtime_job, sorted_Q. apply first_of_sort_stable. Qed.

Lemma realtime_jobs_elem (ws : list Worker) (js : list Job) (j : Job) :
  j ∈ js -> is_realtime ws j = true -> exists k, (k, j) ∈ realtime_jobs ws js.
Proof.
  intros Hj Hrt.
  assert (Hin : j ∈ (realtime_jobs ws js).*2).
  { unfold realtime_jobs. rewrite realtime_from_snd. by apply list_elem_of_filter. }
  apply list_elem_of_fmap in Hin as ([k j'] & -> & Hin). by exists k.
Qed.

(** X7: when [slowest_realtime_job] and [fastest_realtime_job] return,
    each returns a job of [self.jobs] that is real-time, and the speed
    of every real-time job's worker lies between the speeds of their
    two workers. *)
Theorem realtime_extremes_bound_every_realtime_job
    (ws : list Worker) (js : list Job) (s f : nat * Job) :
  slowest_realtime_job ws js = Ok s ->
  fastest_realtime_job ws js = Ok f ->
  (js !! s.1 = Some s.2 /\ is_realtime ws s.2 = true)
  /\ (js !! f.1 = Some f.2 /\ is_realtime ws f.2 = true)
  /\ forall j : Job,
       j ∈ js -> is_realtime ws j = true ->
       (speed ws (worker s.2) <= speed ws (worker j))%Q
       /\ (speed ws (worker j) <= speed ws (worker f.2))%Q.
Proof.
  rewrite slowest_realtime_job_first_best, fastest_realtime_job_first_best.
  destruct (first_best (fun a b => Qlt_bool (ipm_key ws a) (ipm_key ws b))
              (realtime_jobs ws js)) as [s'|] eqn:Hs; [|discriminate].
  destruct (first_best (fun a b => Qlt_bool (ipm_key ws b) (ipm_key ws a))
              (realtime_jobs ws js)) as [f'|] eqn:Hf; [|discriminate].
  intros [= <-] [= <-].
  pose proof (first_best_elem _ _ _ Hs) as Hsin.
  pose proof (first_best_elem _ _ _ Hf) as Hfin.
  destruct s' as [si sj], f' as [fi fj]. cbn [fst snd].
  apply realtime_from_lookup in Hsin as (_ & Hsl & Hsr).
  apply realtime_from_lookup in Hfin as (_ & Hfl & Hfr).
  rewrite Nat.sub_0_r in Hsl, Hfl.
  repeat split; try done.
  - destruct (realtime_jobs_elem ws js j) as [k Hk]; [done..|].
    apply (first_best_minimal (ipm_key ws) _ _ Hs (k, j) Hk).
  - destruct (realtime_jobs_elem ws js j) as [k Hk]; [done..|].
    apply (first_best_maximal (ipm_key ws) _ _ Hf (k, j) Hk).
Qed.

Lemma realtime_extremes_bound_every_realtime_job_witness :
  (jobs MoreExamples.nine_images !! (2%nat, new_job 2 3).1 = Some (2%nat, new_job 2 3).2
   /\ is_realtime (workers MoreExamples.nine_images) (2%nat, new_job 2 3).2 = true)
  /\ (jobs MoreExamples.nine_images !! (0%nat, new_job 0 3).1 = Some (0%nat, new_job 0 3).2
      /\ is_realtime (workers MoreExamples.nine_images) (0%nat, new_job 0 3).2 = true)
  /\ forall j : Job,
       j ∈ jobs MoreExamples.nine_images ->
       is_realtime (workers MoreExamples.nine_images) j = true ->
       (speed (workers MoreExamples.nine_images) (worker (2%nat, new_job 2 3).2)
        <= speed (workers MoreExamples.nine_images) (worker j))%Q
       /\ (speed (workers MoreExamples.nine_images) (worker j)
           <= speed (workers MoreExamples.nine_images) (worker (0%nat, new_job 0 3).2))%Q.
Proof.
  apply (realtime_extremes_bound_every_realtime_job (workers MoreExamples.nine_images)
           (jobs MoreExamples.nine_images) (2%nat, new_job 2 3) (0%nat, new_job 0 3));
    vm_compute; reflexivity.
Defined.

(** X8: [slowest_realtime_job] and [fastest_realtime_job] raise
    [IndexError] exactly when no job is real-time; otherwise both
    return, and they fail in no other way. *)
Theorem realtime_extremes_raise_exactly_without_realtime_jobs
    (ws : list Worker) (js : list Job) :
  match slowest_realtime_job ws js, fastest_realtime_job ws js with
  | Ok _, Ok _ => Exists (fun j => is_realtime ws j = true) js
  | Raise e1, Raise e2 =>
      e1 = IndexError /\ e2 = IndexError
      /\ Forall (fun j => is_realtime ws j = false) js
  | _, _ => False
  end.
Proof.
  rewrite slowest_realtime_job_first_best, fastest_realtime_job_first_best.
  destruct (realtime_jobs ws js) as [|rj rt] eqn:Hrt.
  - cbn. repeat split. apply Forall_forall. intros j Hj.
    destruct (is_realtime ws j) eqn:Hreal; [|done].
    destruct (realtime_jobs_elem ws js j Hj Hreal) as [k Hk].
    rewrite Hrt in Hk. by apply not_elem_of_nil in Hk.
  - destruct (first_best_is_Some (fun a b => Qlt_bool (ipm_key ws a) (ipm_key ws b))
                (rj :: rt)) as [s ->]; [done|].
    destruct (first_best_is_Some (fun a b => Qlt_bool (ipm_key ws b) (ipm_key ws a))
                (rj :: rt)) as [f ->]; [done|].
    assert (Hin : rj ∈ realtime_jobs ws js) by (rewrite Hrt; left).
    destruct rj as [k j]. apply realtime_from_lookup in Hin as (_ & Hl & Hreal).
    apply Exists_exists. exists j. split; [|done]. by apply list_elem_of_lookup_2 in Hl.
Qed.

(** ** What [optimize_jobs] does to the job list *)

Lemma classify_flag_kept (batch_eta : Worker -> Payload -> Q) (ws : list Worker)
    (timeout : Q) (total : Z) (p : Payload) (todo : list Job) :
  forall (seen js1 : list Job) (d c d' c' : Z),
    classify batch_eta ws timeout total p seen todo d c = Ok (js1, d', c') ->
    exists todo', js1 = seen ++ todo' /\ Forall2 flag_kept todo todo'.
Proof.
  induction todo as [|job rest IH]; intros seen js1 d c d' c'; cbn [classify].
  - intros [= <- _ _]. exists []. by rewrite app_nil_r.
  - destruct (job_stall batch_eta ws (seen ++ job :: rest) (worker job) p) as [lag| |];
      [|discriminate..].
    rewrite bind_Ok. destruct (within_tolerance timeout lag); intros Hrun;
      apply IH in Hrun as (todo' & -> & Hall); rewrite <- app_assoc;
      eexists; (split; [reflexivity|]); constructor; try exact Hall; by split.
Qed.

Lemma optimize_jobs_Ok (batch_eta : Worker -> Payload -> Q) (fuel : nat) (w w' : World)
    (p : Payload) :
  optimize_jobs batch_eta fuel w p = Ok w' ->
  exists js : list Job,
    assign_jobs batch_eta fuel w p = Ok js
    /\ Forall2 flag_kept (jobs w) js
    /\ w' = set_jobs (take 1 js ++ filter has_work (drop 1 js)) w.
Proof.
  unfold optimize_jobs.
  destruct (assign_jobs batch_eta fuel w p) as [js| |] eqn:Hjs; [|discriminate..].
  rewrite bind_Ok, prune_keeps_first_and_jobs_with_work, bind_Ok. intros [= <-].
  exists js. split; [done|]. split; [|done].
  pose proof Hjs as Hrun. unfold assign_jobs in Hrun.
  destruct (classify batch_eta (workers w) (job_timeout w) (total_batch_size w) p
              [] (jobs w) 0 0) as [[[js1 d] c]| |] eqn:Hclass; [|discriminate..].
  pose proof (assign_jobs_same_flags _ _ _ _ _ _ _ _ Hclass Hjs) as Hflags.
  apply classify_flag_kept in Hclass as (todo' & -> & Hkept). cbn [app] in Hflags.
  clear -Hkept Hflags. revert js Hflags.
  induction Hkept as [|j j1 l l1 [Hw Hc] _ IH]; intros js Hflags.
  - inversion Hflags. constructor.
  - inversion Hflags as [|? j' ? l' [Hw' Hc'] Hrest]; subst. constructor; [|by apply IH].
    split; [congruence|]. intros Hj. rewrite Hc'. by apply Hc.
Qed.

Lemma flag_kept_workers (js js' : list Job) :
  Forall2 flag_kept js js' -> worker <$> js' = worker <$> js.
Proof. induction 1 as [|j j' js js' [Hw _] _ IH]; [done|]. cbn. by rewrite Hw, IH. Qed.

Lemma pruned_sublist (js : list Job) :
  take 1 js ++ filter has_work (drop 1 js) `sublist_of` js.
Proof.
  rewrite <- (take_drop 1 js) at 3. apply sublist_app; [done|]. apply sublist_filter.
Qed.

Lemma StronglySorted_sublist {A : Type} (R : relation A) (l1 l2 : list A) :
  l1 `sublist_of` l2 -> StronglySorted R l2 -> StronglySorted R l1.
Proof.
  induction 1 as [|x l1 l2 Hsub IH|x l1 l2 Hsub IH]; intros Hsorted.
  - constructor.
  - apply StronglySorted_inv in Hsorted as [Hs Hall]. constructor; [by apply IH|].
    apply Forall_forall. intros y Hy. rewrite Forall_forall in Hall.
    apply Hall. by eapply elem_of_sublist.
  - apply StronglySorted_inv in Hsorted as [Hs _]. by apply IH.
Qed.

Lemma StronglySorted_lt_NoDup (l : list nat) : StronglySorted lt l -> NoDup l.
Proof.
  induction 1 as [|x l _ IH Hall]; constructor; [|exact IH].
  intros Hx. rewrite Forall_forall in Hall. specialize (Hall x Hx). lia.
Qed.

(** X9: a run of [optimize_jobs] that returns changes nothing in the
    world but the jobs. It adds no job and reorders none: the owners of
    the jobs it leaves are a subsequence of the owners before. The first
    job always survives with its owner, and every job behind it is left
    with at least one image. *)
Theorem optimize_jobs_only_drops_idle_jobs_behind_the_first
    (batch_eta : Worker -> Payload -> Q) (fuel : nat) (w w' : World) (p : Payload) :
  optimize_jobs batch_eta fuel w p = Ok w' ->
  w' = set_jobs (jobs w') w
  /\ worker <$> jobs w' `sublist_of` worker <$> jobs w
  /\ head (worker <$> jobs w') = head (worker <$> jobs w)
  /\ forall (i : nat) (j : Job), jobs w' !! S i = Some j -> 1 <= batch_size j.
Proof.
  intros (js & _ & Hkept & ->)%optimize_jobs_Ok. cbn [jobs set_jobs].
  apply flag_kept_workers in Hkept as Howners. rewrite <- Howners.
  split; [reflexivity|]. split; [|split].
  - apply fmap_sublist, pruned_sublist.
  - by destruct js.
  - intros i j Hj. destruct js as [|j0 tl]; [done|]. cbn in Hj.
    apply list_elem_of_lookup_2, list_elem_of_filter in Hj as [Hwork _]. exact Hwork.
Qed.

Lemma optimize_jobs_only_drops_idle_jobs_behind_the_first_witness :
  let w' := set_jobs [ {| worker := 0; batch_size := 5; complementary := false |};
                       {| worker := 1; batch_size := 4; complementary := false |} ]
              MoreExamples.nine_images in
  w' = set_jobs (jobs w') MoreExamples.nine_images
  /\ worker <$> jobs w' `sublist_of` worker <$> jobs MoreExamples.nine_images
  /\ head (worker <$> jobs w') = head (worker <$> jobs MoreExamples.nine_images)
  /\ forall (i : nat) (j : Job), jobs w' !! S i = Some j -> 1 <= batch_size j.
Proof.
  apply (optimize_jobs_only_drops_idle_jobs_behind_the_first eta_by_ipm 1
           MoreExamples.nine_images _ (with_batch_size 3 Scenario.request)).
  vm_compute. reflexivity.
Defined.

(** X10: [optimize_jobs] never turns a complementary job back into a
    real-time one: each job it leaves descends from a job of the same
    worker, and is complementary whenever that job was, so a second run
    without [update_jobs] in between starts from the flags of the
    first. *)
Theorem optimize_jobs_never_clears_complementary
    (batch_eta : Worker -> Payload -> Q) (fuel : nat) (w w' : World) (p : Payload)
    (j' : Job) :
  optimize_jobs batch_eta fuel w p = Ok w' ->
  j' ∈ jobs w' ->
  exists j : Job,
    j ∈ jobs w /\ worker j = worker j'
    /\ (complementary j = true -> complementary j' = true).
Proof.
  intros (js & _ & Hkept & ->)%optimize_jobs_Ok Hin. cbn [jobs set_jobs] in Hin.
  assert (Hjs : j' ∈ js).
  { eapply elem_of_sublist; [exact Hin|apply pruned_sublist]. }
  apply list_elem_of_lookup_1 in Hjs as [i Hi].
  destruct (Forall2_lookup_r _ _ _ _ _ Hkept Hi) as (j & Hj & Hw & Hc).
  exists j. split; [by apply list_elem_of_lookup_2 in Hj|]. by split.
Qed.

Lemma optimize_jobs_never_clears_complementary_witness :
  exists j : Job,
    j ∈ [ {| worker := 0; batch_size := 3; complementary := true |}; new_job 1 3 ]
    /\ worker j = worker {| worker := 0; batch_size := 3; complementary := true |}
    /\ (complementary j = true
        -> complementary {| worker := 0; batch_size := 3; complementary := true |} = true).
Proof.
  apply (optimize_jobs_never_clears_complementary eta_by_ipm 10
           (set_jobs [ {| worker := 0; batch_size := 3; complementary := true |};
                       new_job 1 3 ]
              (set_total_batch_size 6 Scenario.three_equals))
           (set_jobs [ {| worker := 0; batch_size := 3; complementary := true |};
                       {| worker := 1; batch_size := 3; complementary := false |} ]
              (set_total_batch_size 6 Scenario.three_equals))
           (with_batch_size 3 Scenario.request)).
  - vm_compute. reflexivity.
  - left.
Defined.

(** ** The request pipeline *)

Lemma new_job_owners (b : Z) (refs : list nat) :
  worker <$> ((fun r => new_job r b) <$> refs) = refs.
Proof. induction refs as [|r l IH]; [done|]. cbn. by rewrite IH. Qed.

(** The pipeline, with its three calls of [get_workers] resolved: the
    first counts the schedule of the registry as it is, the second and
    the third see the repaired registry. *)
Lemma distribute_unfold (batch_eta : Worker -> Payload -> Q) (fuel : nat) (total : Z)
    (p : Payload) (w : World) :
  distribute batch_eta fuel total p w
  = if Z.of_nat (length (scheduled_refs w)) =? 0 then Raise ZeroDivisionError
    else
      let w1 := set_workers (map repaired (workers w))
                  (set_jobs [] (set_total_batch_size total w)) in
      optimize_jobs batch_eta fuel
        (set_jobs ((fun r => new_job r (total / Z.of_nat (length (scheduled_refs w))))
                     <$> scheduled_refs w1) w1)
        (with_batch_size (total / Z.of_nat (length (scheduled_refs w1))) p).
Proof.
  unfold distribute. destruct (update_world_unfold total w) as [log ->].
  destruct (Z.eqb_spec (Z.of_nat (length (scheduled_refs w))) 0) as [Hz|Hnz]; [done|].
  cbn zeta. rewrite bind_Ok. unfold default_batch_size, size.
  match goal with |- context [get_workers ?x] =>
    destruct (get_workers_eq x) as [log2 ->] end.
  cbn [workers set_workers set_jobs set_total_batch_size total_batch_size].
  rewrite repaired_idemp.
  match goal with |- context [Z.of_nat (length ?l) =? 0] =>
    change l with (scheduled_refs (set_workers (map repaired (workers w))
                                     (set_jobs [] (set_total_batch_size total w))));
    destruct (Z.eqb_spec
                (Z.of_nat (length (scheduled_refs
                                     (set_workers (map repaired (workers w))
                                        (set_jobs [] (set_total_batch_size total w))))))
                0) as [Hz'|_]
  end.
  - exfalso. destruct (scheduled_refs w) as [|r l] eqn:Hrefs; [done|].
    assert (Hin : r ∈ scheduled_refs w) by (rewrite Hrefs; left).
    apply scheduled_refs_after_repair in Hin.
    change (scheduled_refs (set_workers (map repaired (workers w)) w))
      with (scheduled_refs (set_workers (map repaired (workers w))
                              (set_jobs [] (set_total_batch_size total w)))) in Hin.
    destruct (scheduled_refs (set_workers (map repaired (workers w))
                                (set_jobs [] (set_total_batch_size total w))));
      [by apply not_elem_of_nil in Hin|cbn in Hz'; lia].
  - rewrite bind_Ok. reflexivity.
Qed.

(** What a run of the pipeline that returns leaves behind. *)
Lemma distribute_Ok (batch_eta : Worker -> Payload -> Q) (fuel : nat) (total : Z)
    (p : Payload) (w w' : World) :
  distribute batch_eta fuel total p w = Ok w' ->
  workers w' = map repaired (workers w)
  /\ thin_client_mode w' = thin_client_mode w
  /\ exists js : list Job,
       Forall2 flag_kept
         ((fun r => new_job r (total / Z.of_nat (length (scheduled_refs w))))
            <$> scheduled_refs (set_workers (map repaired (workers w)) w)) js
       /\ jobs w' = take 1 js ++ filter has_work (drop 1 js).
Proof.
  rewrite distribute_unfold.
  destruct (Z.of_nat (length (scheduled_refs w)) =? 0); [discriminate|]. cbn zeta.
  intros (js & _ & Hkept & ->)%optimize_jobs_Ok. cbn [jobs workers set_workers set_jobs
    thin_client_mode set_total_batch_size] in *.
  split; [done|]. split; [done|]. by exists js.
Qed.

Lemma distribute_owners (batch_eta : Worker -> Payload -> Q) (fuel : nat) (total : Z)
    (p : Payload) (w w' : World) :
  distribute batch_eta fuel total p w = Ok w' ->
  worker <$> jobs w'
    `sublist_of` scheduled_refs (set_workers (map repaired (workers w)) w)
  /\ workers w' = map repaired (workers w)
  /\ thin_client_mode w' = thin_client_mode w.
Proof.
  intros (Hws & Hthin & js & Hkept & Hjobs)%distribute_Ok. split; [|done].
  apply flag_kept_workers in Hkept. rewrite new_job_owners in Hkept.
  rewrite Hjobs, <- Hkept. apply fmap_sublist, pruned_sublist.
Qed.

(** X11: after a run of the request pipeline that returns, no worker
    owns more than one job, the jobs follow the registration order of
    their workers, and each job belongs to a registered worker that is
    not [UNAVAILABLE], is not the master of a thin client and has a
    valid stored speed. *)
Theorem distribute_gives_a_worker_at_most_one_job
    (batch_eta : Worker -> Payload -> Q) (fuel : nat) (total : Z) (p : Payload)
    (w w' : World) :
  distribute batch_eta fuel total p w = Ok w' ->
  StronglySorted lt (worker <$> jobs w')
  /\ NoDup (worker <$> jobs w')
  /\ Forall (fun j => exists wk : Worker,
                 workers w' !! worker j = Some wk
                 /\ invalid_speed wk = false
                 /\ (master wk = true -> thin_client_mode w' = false)
                 /\ state wk <> UNAVAILABLE) (jobs w').
Proof.
  intros (Hsub & Hws & Hthin)%distribute_owners.
  destruct (scheduled_refs_spec (set_workers (map repaired (workers w)) w))
    as [Hsorted Hin].
  assert (Hs : StronglySorted lt (worker <$> jobs w')).
  { eapply StronglySorted_sublist; [exact Hsub|exact Hsorted]. }
  split; [exact Hs|]. split; [by apply StronglySorted_lt_NoDup|].
  apply Forall_forall. intros j Hj.
  assert (Hr : worker j ∈ scheduled_refs (set_workers (map repaired (workers w)) w)).
  { eapply elem_of_sublist; [|exact Hsub]. by apply list_elem_of_fmap_2. }
  apply Hin in Hr as (wk & Hk & Hrest). exists wk. rewrite Hws, Hthin. by split.
Qed.

Lemma distribute_gives_a_worker_at_most_one_job_witness :
  let w' := set_jobs [ {| worker := 0; batch_size := 5; complementary := false |};
                       {| worker := 1; batch_size := 4; complementary := false |} ]
              (set_total_batch_size 9 Scenario.three_nodes) in
  StronglySorted lt (worker <$> jobs w')
  /\ NoDup (worker <$> jobs w')
  /\ Forall (fun j => exists wk : Worker,
                 workers w' !! worker j = Some wk
                 /\ invalid_speed wk = false
                 /\ (master wk = true -> thin_client_mode w' = false)
                 /\ state wk <> UNAVAILABLE) (jobs w').
Proof.
  apply (distribute_gives_a_worker_at_most_one_job eta_by_ipm 9 9 Scenario.request
           Scenario.three_nodes).
  vm_compute. reflexivity.
Defined.

(** X12: on a fleet of which no worker is both flagged as benchmarked
    and of known speed, a fresh registry before any [benchmark] for one,
    the request pipeline raises [IndexError] as soon as one worker is
    schedulable: no job is real-time, and the first [job_stall] takes
    element 0 of an empty list. *)
Theorem distribute_raises_IndexError_before_any_benchmark
    (batch_eta : Worker -> Payload -> Q) (fuel : nat) (total : Z) (p : Payload)
    (w : World) :
  Forall (fun wk => benchmarked wk = false \/ avg_ipm wk = None) (workers w) ->
  Exists (fun wk => scheduled (thin_client_mode w) wk = true) (workers w) ->
  distribute batch_eta fuel total p w = Raise IndexError.
Proof.
  intros Hall (wk & Hwk & Hs)%Exists_exists. rewrite distribute_unfold.
  pose proof (scheduled_refs_nonempty w wk Hwk Hs) as Hne.
  destruct (Z.eqb_spec (Z.of_nat (length (scheduled_refs w))) 0) as [Hz|_].
  { destruct (scheduled_refs w); [done|cbn in Hz; lia]. }
  cbn zeta. apply optimize_jobs_raises_without_realtime_jobs.
  - cbn [jobs set_jobs]. intros Hnil%fmap_nil_inv.
    destruct (scheduled_refs w) as [|r l] eqn:Hrefs; [done|].
    assert (Hin : r ∈ scheduled_refs w) by (rewrite Hrefs; left).
    apply scheduled_refs_after_repair in Hin.
    change (scheduled_refs (set_workers (map repaired (workers w)) w))
      with (scheduled_refs (set_workers (map repaired (workers w))
                              (set_jobs [] (set_total_batch_size total w)))) in Hin.
    rewrite Hnil in Hin. by apply not_elem_of_nil in Hin.
  - cbn [jobs workers set_jobs set_workers]. unfold fastest_worker, rt_workers.
    match goal with |- context [filter ?P ?l] => assert (Hnil : filter P l = []) end;
      [|by rewrite Hnil].
    match goal with |- filter _ ?l0 = [] => generalize l0 end.
    intros lst. induction lst as [|j tl IH]; [done|].
    rewrite filter_cons_False; [exact IH|].
    unfold is_realtime.
    assert (Hj : benchmarked (map repaired (workers w) !!! worker j) = false
                 \/ avg_ipm (map repaired (workers w) !!! worker j) = None).
    { rewrite list_lookup_total_alt.
      change (map repaired (workers w)) with (repaired <$> workers w).
      rewrite list_lookup_fmap.
      destruct (workers w !! worker j) as [wk'|] eqn:Hk; cbn; [|by left].
      rewrite Forall_forall in Hall. apply list_elem_of_lookup_2 in Hk.
      destruct (Hall wk' Hk) as [Hb|Hn].
      - left. unfold repaired. by destruct (invalid_speed wk').
      - right. unfold repaired, invalid_speed. by rewrite Hn. }
    destruct Hj as [-> | ->]; cbn; [done|]. by rewrite orb_true_r.
Qed.

Lemma distribute_raises_IndexError_before_any_benchmark_witness :
  distribute eta_by_ipm 4 4 Scenario.request BenchmarkExamples.two_nodes = Raise IndexError.
Proof.
  apply (distribute_raises_IndexError_before_any_benchmark eta_by_ipm 4 4 Scenario.request
           BenchmarkExamples.two_nodes).
  - repeat constructor.
  - left. reflexivity.
Defined.

(** X13: once the classification loop has run over at least one job,
    the next two phases cannot fail: the deferred images are divided by
    a count of real-time jobs that is not zero, and the round robin
    stops after at most as many passes as images are missing, with the
    job list holding the total, or what it held before if that was
    more. *)
Theorem classified_jobs_are_rounded_without_failure
    (batch_eta : Worker -> Payload -> Q) (ws : list Worker) (timeout : Q) (total : Z)
    (p : Payload) (js js1 : list Job) (d c : Z) :
  js <> [] ->
  classify batch_eta ws timeout total p [] js 0 0 = Ok (js1, d, c) ->
  exists (per : option Z) (js2 js3 : list Job),
    redistribute ws d js1 = Ok (per, js2)
    /\ (forall fuel, (Z.to_nat (total - get_current_output_size js2) <= fuel)%nat ->
                     handle_remainder fuel ws total js2 = Ok js3)
    /\ get_current_output_size js3 = Z.max total (get_current_output_size js2).
Proof.
  intros Hne Hrun.
  destruct (fastest_worker ws js) as [f|] eqn:Hf.
  - destruct (rounding_spec batch_eta ws timeout total p js f Hf)
      as (js1' & d' & c' & per & js2 & js3 & Hrun' & _ & _ & Hred & _ & Hrem & _ & Hsum & _).
    rewrite Hrun in Hrun'. injection Hrun' as <- <- <-.
    exists per, js2, js3. split; [exact Hred|]. split; [exact Hrem|]. lia.
  - destruct js as [|job rest]; [done|]. cbn [classify app] in Hrun.
    unfold job_stall in Hrun. by rewrite (fastest_worker_None _ _ Hf) in Hrun.
Qed.

Lemma classified_jobs_are_rounded_without_failure_witness :
  exists (per : option Z) (js2 js3 : list Job),
    redistribute (workers MoreExamples.unequal_fleet) 3
      [ {| worker := 0; batch_size := 0; complementary := true |};
        {| worker := 1; batch_size := 3; complementary := false |};
        {| worker := 2; batch_size := 3; complementary := false |} ] = Ok (per, js2)
    /\ (forall fuel, (Z.to_nat (9 - get_current_output_size js2) <= fuel)%nat ->
                     handle_remainder fuel (workers MoreExamples.unequal_fleet) 9 js2
                     = Ok js3)
    /\ get_current_output_size js3 = Z.max 9 (get_current_output_size js2).
Proof.
  apply (classified_jobs_are_rounded_without_failure eta_by_ipm
           (workers MoreExamples.unequal_fleet) (job_timeout MoreExamples.unequal_fleet)
           9 (with_batch_size 3 Scenario.request) (jobs MoreExamples.unequal_fleet)
           _ 3 6).
  - discriminate.
  - vm_compute. reflexivity.
Defined.

(** ** The master's job *)

Lemma master_job_none (ws : list Worker) (js : list Job) :
  Forall (fun j => master (ws !!! worker j) = false) js -> master_job ws js = None.
Proof. induction 1 as [|j l Hj _ IH]; [done|]. cbn. by rewrite Hj. Qed.

(** X14: when the master, entry 0 of the registry, is schedulable, a
    run of the request pipeline that returns leaves the master's job at
    index 0, whatever its image count, and [master_job] returns it. *)
Theorem master_job_is_the_first_job_after_distribute
    (batch_eta : Worker -> Payload -> Q) (fuel : nat) (total : Z) (p : Payload)
    (w w' : World) (wk : Worker) (rest : list Worker) :
  workers w = wk :: rest ->
  master wk = true ->
  scheduled (thin_client_mode w) wk = true ->
  distribute batch_eta fuel total p w = Ok w' ->
  exists j : Job,
    master_job (workers w') (jobs w') = Some j
    /\ worker j = 0%nat
    /\ jobs w' !! 0%nat = Some j.
Proof.
  intros Hws Hm Hs (Hws' & _ & js & Hkept & Hjobs)%distribute_Ok.
  pose proof Hs as Hs'. apply scheduled_iff in Hs' as (Hinv & _).
  assert (Hrefs : exists l, scheduled_refs (set_workers (map repaired (workers w)) w)
                            = 0%nat :: l).
  { unfold scheduled_refs. cbn [thin_client_mode workers set_workers]. rewrite Hws.
    cbn [map get_workers_from]. rewrite (repaired_of_valid wk Hinv).
    destruct (get_workers_from (thin_client_mode w) 1 (map repaired rest))
      as [[store filtered] lg].
    unfold scheduled in Hs. apply andb_true_iff in Hs as [Hs Hst].
    apply andb_true_iff in Hs as [_ Hthin]. apply negb_true_iff in Hthin.
    apply bool_decide_eq_true in Hst.
    rewrite Hinv, Hthin, decide_True by done. by exists filtered. }
  destruct Hrefs as [l Hrefs]. rewrite Hrefs in Hkept. cbn [fmap list_fmap] in Hkept.
  inversion Hkept as [|j0 j0' l0 tl' [Hw0 _] Hrest]; subst.
  cbn [new_job worker] in Hw0. exists j0'. rewrite Hjobs. cbn [take drop app].
  split; [|done]. cbn [master_job]. rewrite Hw0, Hws', Hws. cbn [map].
  change ((repaired wk :: map repaired rest) !!! 0%nat) with (repaired wk).
  by rewrite (repaired_of_valid wk Hinv), Hm.
Qed.

Lemma master_job_is_the_first_job_after_distribute_witness :
  exists j : Job,
    master_job (workers (set_total_batch_size 9 Scenario.three_nodes))
      [ {| worker := 0; batch_size := 5; complementary := false |};
        {| worker := 1; batch_size := 4; complementary := false |} ] = Some j
    /\ worker j = 0%nat
    /\ [ {| worker := 0; batch_size := 5; complementary := false |};
         {| worker := 1; batch_size := 4; complementary := false |} ] !! 0%nat = Some j.
Proof.
  apply (master_job_is_the_first_job_after_distribute eta_by_ipm 9 9 Scenario.request
           Scenario.three_nodes
           (set_jobs [ {| worker := 0; batch_size := 5; complementary := false |};
                       {| worker := 1; batch_size := 4; complementary := false |} ]
              (set_total_batch_size 9 Scenario.three_nodes))
           (Scenario.local 60) [Scenario.remote "A" 60; Scenario.remote "B" 6]).
  - reflexivity.
  - reflexivity.
  - reflexivity.
  - vm_compute. reflexivity.
Defined.

(** X15: in the thin-client mode no job of a run of the request
    pipeline belongs to a master, so [master_job] ends in its
    exception. *)
Theorem master_job_is_missing_in_thin_client_mode
    (batch_eta : Worker -> Payload -> Q) (fuel : nat) (total : Z) (p : Payload)
    (w w' : World) :
  thin_client_mode w = true ->
  distribute batch_eta fuel total p w = Ok w' ->
  master_job (workers w') (jobs w') = None.
Proof.
  intros Hthin (Hsub & Hws & Hthin')%distribute_owners.
  destruct (scheduled_refs_spec (set_workers (map repaired (workers w)) w)) as [_ Hin].
  apply master_job_none, Forall_forall. intros j Hj.
  assert (Hr : worker j ∈ scheduled_refs (set_workers (map repaired (workers w)) w)).
  { eapply elem_of_sublist; [|exact Hsub]. by apply list_elem_of_fmap_2. }
  apply Hin in Hr as (wk & Hk & _ & Hm & _).
  cbn [thin_client_mode workers set_workers] in Hk, Hm.
  rewrite Hws, (list_lookup_total_correct _ _ _ Hk).
  destruct (master wk); [|done]. specialize (Hm eq_refl). congruence.
Qed.

Lemma master_job_is_missing_in_thin_client_mode_witness :
  master_job (workers Examples.thin_client)
    [ {| worker := 1; batch_size := 0; complementary := true |};
      {| worker := 2; batch_size := 6; complementary := false |} ] = None.
Proof.
  apply (master_job_is_missing_in_thin_client_mode eta_by_ipm 6 6 Scenario.request
           Examples.thin_client
           (set_jobs [ {| worker := 1; batch_size := 0; complementary := true |};
                       {| worker := 2; batch_size := 6; complementary := false |} ]
              (set_total_batch_size 6 Examples.thin_client))).
  - reflexivity.
  - vm_compute. reflexivity.
Defined.

(** * Further properties of the registry loader *)

Lemma set_workers_same (w : World) : set_workers (workers w) w = w.
Proof. by destruct w. Qed.

Section MoreRegistryProperties.
Context (new_worker : string -> string -> option Z -> bool -> option string
                      -> option Worker).

Lemma load_entry_appends (w : World) (e : Entry) :
  exists added : list Worker,
    (load_entry new_worker w e).1.1 = set_workers (workers w ++ added) w
    /\ Forall (constructed new_worker (verify_remotes w)) added.
Proof.
  assert (Hnone : exists added : list Worker,
             w = set_workers (workers w ++ added) w
             /\ Forall (constructed new_worker (verify_remotes w)) added).
  { exists []. by rewrite app_nil_r, set_workers_same. }
  destruct e as [u a prt au https]. unfold load_entry, add_worker, subscript.
  cbn [e_use_https e_address e_uuid e_port e_auth set_e_address].
  destruct (default false https), a as [a|], u as [u|]; cbn; try exact Hnone;
    match goal with |- context [new_worker ?x1 ?x2 ?x3 ?x4 ?x5] =>
      destruct (new_worker x1 x2 x3 x4 x5) as [wk|] eqn:Hwk end; cbn; try exact Hnone;
    (exists [wk]; split; [reflexivity|]; repeat constructor; by repeat eexists).
Qed.

Lemma load_entries_appends (entries : list Entry) :
  forall w : World,
    exists added : list Worker,
      (load_entries new_worker w entries).1.1 = set_workers (workers w ++ added) w
      /\ Forall (constructed new_worker (verify_remotes w)) added.
Proof.
  induction entries as [|e entries IH]; intros w.
  - exists []. cbn. by rewrite app_nil_r, set_workers_same.
  - cbn [load_entries]. destruct (load_entry_appends w e) as (added & Hw & Hall).
    destruct (load_entry new_worker w e) as [[w1 log] [ex|]]; cbn [fst] in Hw.
    + by exists added.
    + destruct (IH w1) as (added' & Hw' & Hall').
      destruct (load_entries new_worker w1 entries) as [[w2 log'] r]. cbn [fst] in *.
      exists (added ++ added'). subst w1. rewrite Hw'. cbn [workers set_workers] in *.
      rewrite <- app_assoc. split; [reflexivity|]. by apply Forall_app.
Qed.

(** X16: whatever the configuration source, and also when the load ends
    in an exception, [load_config] changes nothing in the world but the
    registry, and the registry only by appending: the workers registered
    before stay where they are, unchanged, the master at index 0, and
    every worker added came out of the constructor under the world's
    [verify_remotes]. *)
Theorem load_config_only_appends_workers (src : ConfigSource) (w : World) :
  exists added : list Worker,
    (load_config new_worker src w).1.1 = set_workers (workers w ++ added) w
    /\ Forall (constructed new_worker (verify_remotes w)) added.
Proof.
  destruct src as [|path|path|entries]; cbn [load_config fst];
    [exists []; by rewrite app_nil_r, set_workers_same..|].
  apply load_entries_appends.
Qed.

Lemma load_entries_app (l1 l2 : list Entry) :
  forall w : World,
    load_entries new_worker w (l1 ++ l2)
    = match load_entries new_worker w l1 with
      | (w1, log, None) =>
          let '(w2, log', r) := load_entries new_worker w1 l2 in (w2, log ++ log', r)
      | (w1, log, Some ex) => (w1, log, Some ex)
      end.
Proof.
  induction l1 as [|e l1 IH]; intros w; cbn [app load_entries].
  - by destruct (load_entries new_worker w l2) as [[w2 log'] r].
  - destruct (load_entry new_worker w e) as [[w1 log] [ex|]]; [done|].
    rewrite IH. destruct (load_entries new_worker w1 l1) as [[w2 log2] [ex|]]; [done|].
    destruct (load_entries new_worker w2 l2) as [[w3 log3] r]. by rewrite app_assoc.
Qed.

Lemma load_entry_ill_keyed (w : World) (e : Entry) :
  ~ well_keyed e ->
  load_entry new_worker w e = (w, [], Some (KeyError (first_missing_key e))).
Proof.
  intros Hill. destruct e as [u a prt au https].
  unfold load_entry, first_missing_key, subscript, well_keyed in *.
  cbn [e_use_https e_address e_uuid e_port e_auth set_e_address] in *.
  destruct (default false https), a as [a|], u as [u|]; cbn; try reflexivity;
    exfalso; apply Hill; split; by eexists.
Qed.

(** X17: [load_config] stops at the first entry that lacks [uuid] or
    [address]: the entries before it are handled as usual, the entry
    raises [KeyError] for the key that is subscripted first, [address]
    when the address is to be rewritten and missing, else [uuid] when
    missing, else [address], and no later entry is looked at. *)
Theorem load_config_raises_KeyError_at_the_first_ill_keyed_entry
    (good : list Entry) (bad : Entry) (rest : list Entry) (w : World) :
  Forall well_keyed good ->
  ~ well_keyed bad ->
  load_config new_worker (ConfigDocument (good ++ bad :: rest)) w
  = (set_workers
       (workers w ++ omap (entry_worker new_worker (verify_remotes w)) good) w,
     good ≫= (fun e => option_list (entry_rejection new_worker (verify_remotes w) e)),
     Some (KeyError (first_missing_key bad))).
Proof.
  intros Hgood Hbad. cbn [load_config]. rewrite load_entries_app.
  rewrite (load_entries_well_keyed new_worker good w Hgood).
  cbn [load_entries]. rewrite (load_entry_ill_keyed _ bad Hbad). by rewrite app_nil_r.
Qed.
End MoreRegistryProperties.

Lemma load_config_raises_KeyError_at_the_first_ill_keyed_entry_witness :
  load_config RegistryExamples.accept_but_bad
    (ConfigDocument ([RegistryExamples.entry "n1" "10.0.0.1"]
                     ++ RegistryExamples.nameless "10.0.0.2"
                        :: [RegistryExamples.entry "n3" "10.0.0.3"])) (new_world true)
  = (set_workers
       (workers (new_world true)
        ++ omap (entry_worker RegistryExamples.accept_but_bad
                   (verify_remotes (new_world true)))
             [RegistryExamples.entry "n1" "10.0.0.1"]) (new_world true),
     [RegistryExamples.entry "n1" "10.0.0.1"]
       ≫= (fun e => option_list (entry_rejection RegistryExamples.accept_but_bad
                                   (verify_remotes (new_world true)) e)),
     Some (KeyError (first_missing_key (RegistryExamples.nameless "10.0.0.2")))).
Proof.
  apply (load_config_raises_KeyError_at_the_first_ill_keyed_entry
           RegistryExamples.accept_but_bad [RegistryExamples.entry "n1" "10.0.0.1"]
           (RegistryExamples.nameless "10.0.0.2") [RegistryExamples.entry "n3" "10.0.0.3"]
           (new_world true)).
  - repeat constructor; eexists; reflexivity.
  - intros [[id Hid] _]. discriminate Hid.
Defined.

(** * Further properties of the benchmark *)

Lemma scheduled_refs_elem (w : World) (r : nat) (wk : Worker) :
  workers w !! r = Some wk ->
  r ∈ scheduled_refs w <-> scheduled (thin_client_mode w) wk = true.
Proof.
  intros Hk. unfold scheduled_refs.
  rewrite (get_workers_from_filtered (thin_client_mode w) (workers w) 0 r). split.
  - intros (k & wk' & -> & Hk' & Hs). cbn in Hk. congruence.
  - intros Hs. by exists r, wk.
Qed.

Lemma scheduled_refs_NoDup (w : World) : NoDup (scheduled_refs w).
Proof.
  apply StronglySorted_lt_NoDup,
    (get_workers_from_increasing (thin_client_mode w) (workers w) 0).
Qed.

Lemma scheduled_repaired (thin : bool) (wk : Worker) :
  scheduled thin (repaired wk) = eligible thin wk.
Proof.
  rewrite scheduled_eligible, repaired_valid. cbn. unfold eligible, repaired.
  by destruct (invalid_speed wk).
Qed.

Lemma scheduled_valid (thin : bool) (wk : Worker) :
  scheduled thin wk = true -> invalid_speed wk = false.
Proof. by intros (Hinv & _)%scheduled_iff. Qed.

Lemma foldl_alter_lookup {A : Type} (f : A -> A) (refs : list nat) :
  forall (l : list A) (r : nat),
    NoDup refs ->
    foldl (fun acc a => alter f a acc) l refs !! r
    = if decide (r ∈ refs) then f <$> l !! r else l !! r.
Proof.
  induction refs as [|a refs IH]; intros l r Hnd; cbn [foldl].
  - rewrite decide_False; [done|]. apply not_elem_of_nil.
  - apply NoDup_cons in Hnd as [Ha Hnd]. rewrite IH by done.
    destruct (decide (r = a)) as [->|Hne].
    + rewrite (decide_False (P := a ∈ refs)) by done.
      rewrite (decide_True (P := a ∈ a :: refs)) by left. apply list_lookup_alter_eq.
    + rewrite list_lookup_alter_ne by done. destruct (decide (r ∈ refs)).
      * by rewrite decide_True by (by right).
      * rewrite decide_False; [done|]. intros [?|?]%elem_of_cons; done.
Qed.

Lemma load_saved_other (info : gmap string (option Q)) (refs : list nat) :
  forall (ws : list Worker) (r : nat),
    r ∉ refs -> (load_saved info ws refs).1.1 !! r = ws !! r.
Proof.
  induction refs as [|a refs IH]; intros ws r Hr; [done|].
  apply not_elem_of_cons in Hr as [Hne Hr]. cbn [load_saved].
  destruct (info !! uuid (ws !!! a)) as [ipm|].
  - rewrite IH by done. by rewrite list_lookup_alter_ne.
  - specialize (IH ws r Hr). by destruct (load_saved info ws refs) as [[ws' unbenched] log].
Qed.

Lemma load_saved_hit (info : gmap string (option Q)) (refs : list nat) :
  forall (ws : list Worker) (r : nat) (wk : Worker) (v : option Q),
    NoDup refs ->
    r ∈ refs ->
    ws !! r = Some wk ->
    info !! uuid wk = Some v ->
    (load_saved info ws refs).1.1 !! r = Some (set_benchmarked true (set_avg_ipm v wk)).
Proof.
  induction refs as [|a refs IH]; intros ws r wk v Hnd Hin Hk Hv;
    [by apply not_elem_of_nil in Hin|].
  apply NoDup_cons in Hnd as [Ha Hnd]. cbn [load_saved].
  destruct (decide (a = r)) as [->|Hne].
  - rewrite (list_lookup_total_correct _ _ _ Hk), Hv.
    rewrite load_saved_other by done. by rewrite list_lookup_alter_eq, Hk.
  - apply elem_of_cons in Hin as [Heq|Hin]; [congruence|].
    destruct (info !! uuid (ws !!! a)) as [ipm|].
    + apply IH; try done. by rewrite list_lookup_alter_ne.
    + specialize (IH ws r wk v Hnd Hin Hk Hv).
      by destruct (load_saved info ws refs) as [[ws' unbenched] log].
Qed.

Lemma benchmark_cached_eq (measure : Worker -> option Q) (info : gmap string (option Q))
    (w : World) :
  exists log : list LogRecord,
    benchmark measure false (CacheDocument info) w
    = (set_workers (load_saved info (map repaired (workers w)) (scheduled_refs w)).1.1 w,
       CacheDocument info, log).
Proof.
  unfold benchmark. cbn [cache_exists cache_info andb negb].
  destruct (get_workers_eq w) as [log ->]. cbn [workers set_workers].
  destruct (load_saved info (map repaired (workers w)) (scheduled_refs w))
    as [[ws unbenched] log3].
  by exists ([] ++ [] ++ log ++ log3).
Qed.

Lemma benchmark_cached_lookup (measure : Worker -> option Q)
    (info : gmap string (option Q)) (w : World) (r : nat) (wk : Worker) (v : option Q) :
  workers w !! r = Some wk ->
  scheduled (thin_client_mode w) wk = true ->
  info !! uuid wk = Some v ->
  workers (benchmark measure false (CacheDocument info) w).1.1 !! r
  = Some (set_benchmarked true (set_avg_ipm v wk)).
Proof.
  intros Hk Hs Hv. destruct (benchmark_cached_eq measure info w) as [log ->].
  cbn [fst workers set_workers].
  apply load_saved_hit; [apply scheduled_refs_NoDup| |..|exact Hv].
  - by apply (scheduled_refs_elem w r wk Hk).
  - change (map repaired (workers w)) with (repaired <$> workers w).
    rewrite list_lookup_fmap, Hk. cbn.
    by rewrite (repaired_of_valid wk (scheduled_valid _ _ Hs)).
Qed.

Section MoreBenchmarkProperties.
Context (measure : Worker -> option Q).

Lemma benchmark_wrapped_lookup (ws : list Worker) (a r : nat) :
  benchmark_wrapped measure ws a !! r
  = if decide (r = a) then measured measure <$> ws !! r else ws !! r.
Proof.
  unfold benchmark_wrapped. destruct (decide (r = a)) as [->|Hne].
  - destruct (ws !! a) as [wk|] eqn:Hk.
    + rewrite (list_lookup_total_correct _ _ _ Hk). cbn. unfold measured.
      destruct (measure wk); [by rewrite list_lookup_alter_eq, Hk|exact Hk].
    + destruct (measure (ws !!! a)); cbn; [by rewrite list_lookup_alter_eq, Hk|exact Hk].
  - destruct (measure (ws !!! a)); [|done]. by rewrite list_lookup_alter_ne.
Qed.

(** The threads write disjoint workers: each reference of the list is
    measured once, on the worker as the registry holds it; a worker
    whose measurement dies is left as it is. *)
Lemma foldl_benchmark_wrapped_lookup (refs : list nat) :
  forall (ws : list Worker) (r : nat),
    NoDup refs ->
    foldl (benchmark_wrapped measure) ws refs !! r
    = if decide (r ∈ refs) then measured measure <$> ws !! r else ws !! r.
Proof.
  induction refs as [|a refs IH]; intros ws r Hnd; cbn [foldl].
  - rewrite decide_False; [done|]. apply not_elem_of_nil.
  - apply NoDup_cons in Hnd as [Ha Hnd]. rewrite IH by done.
    rewrite benchmark_wrapped_lookup.
    destruct (decide (r = a)) as [->|Hne].
    + rewrite (decide_False (P := a ∈ refs)) by done.
      by rewrite (decide_True (P := a ∈ a :: refs)) by left.
    + destruct (decide (r ∈ refs)).
      * by rewrite decide_True by (by right).
      * rewrite decide_False; [done|]. intros [?|?]%elem_of_cons; done.
Qed.

Lemma measure_schedule_lookup (w0 : World) (r : nat) (wk : Worker) :
  workers w0 !! r = Some wk ->
  foldl (benchmark_wrapped measure) (map repaired (workers w0)) (scheduled_refs w0) !! r
  = Some (if scheduled (thin_client_mode w0) wk then measured measure wk else repaired wk).
Proof.
  intros Hk. rewrite foldl_benchmark_wrapped_lookup by apply scheduled_refs_NoDup.
  change (map repaired (workers w0)) with (repaired <$> workers w0).
  rewrite list_lookup_fmap, Hk. cbn.
  destruct (scheduled (thin_client_mode w0) wk) eqn:Hs.
  - rewrite decide_True by (by apply (scheduled_refs_elem w0 r wk Hk)).
    by rewrite (repaired_of_valid wk (scheduled_valid _ _ Hs)).
  - rewrite decide_False; [done|]. intros Hin%(scheduled_refs_elem w0 r wk Hk). congruence.
Qed.

Lemma benchmark_absent_eq (w : World) :
  exists log : list LogRecord,
    benchmark measure false CacheAbsent w
    = (set_workers
         (foldl (benchmark_wrapped measure) (map repaired (workers w)) (scheduled_refs w)) w,
       if bool_decide (0 < length (scheduled_refs w))%nat
       then CacheDocument
              (record_payload
                 (record_results
                    (foldl (benchmark_wrapped measure) (map repaired (workers w))
                       (scheduled_refs w)) (scheduled_refs w) ∅))
       else CacheAbsent,
       log).
Proof.
  unfold benchmark. cbn [cache_exists cache_info andb negb].
  destruct (get_workers_eq w) as [log ->]. by exists ([] ++ [] ++ log).
Qed.

(** X18: with a valid cache and no forced re-benchmark, a scheduled
    worker whose uuid the cache knows leaves [benchmark] flagged as
    benchmarked with the cached speed, whatever a measurement would
    give; no other field of the worker changes. *)
Theorem benchmark_takes_the_cached_speed
    (info : gmap string (option Q)) (w : World) (r : nat) (wk : Worker) (v : option Q) :
  workers w !! r = Some wk ->
  scheduled (thin_client_mode w) wk = true ->
  info !! uuid wk = Some v ->
  workers (benchmark measure false (CacheDocument info) w).1.1 !! r
  = Some (set_benchmarked true (set_avg_ipm v wk)).
Proof. apply benchmark_cached_lookup. Qed.

(** X19: without a cache file every scheduled worker is measured, each
    on its own: one whose measurement succeeds is flagged as benchmarked
    with the measured speed, one whose measurement dies is left as it
    was, and neither outcome touches another worker. A worker that is
    not scheduled is only repaired. *)
Theorem benchmark_without_cache_measures_the_schedule
    (w : World) (r : nat) (wk : Worker) :
  workers w !! r = Some wk ->
  workers (benchmark measure false CacheAbsent w).1.1 !! r
  = Some (if scheduled (thin_client_mode w) wk then measured measure wk else repaired wk).
Proof.
  intros Hk. destruct (benchmark_absent_eq w) as [log ->]. cbn [fst workers set_workers].
  by apply measure_schedule_lookup.
Qed.

(** X20: a cache file that does not parse is reported and then ignored:
    every eligible worker is measured, also one whose stored speed had
    to be repaired first, and a cache document is written whenever a
    worker was measured. *)
Theorem benchmark_with_corrupt_cache_measures_every_eligible_worker
    (w : World) (r : nat) (wk : Worker) :
  workers w !! r = Some wk ->
  workers (benchmark measure false CacheNotJson w).1.1 !! r
  = Some (if eligible (thin_client_mode w) wk then measured measure (repaired wk)
          else repaired wk)
  /\ LogError "workers.json is not valid JSON, regenerating"
       ∈ (benchmark measure false CacheNotJson w).2
  /\ (eligible (thin_client_mode w) wk = true ->
      exists info, (benchmark measure false CacheNotJson w).1.2 = CacheDocument info).
Proof.
  intros Hk. unfold benchmark. cbn [cache_exists cache_info andb negb].
  destruct (get_workers_eq w) as [log ->].
  match goal with |- context [get_workers ?x] =>
    destruct (get_workers_eq x) as [log2 Heq] end.
  rewrite Heq. cbn [andb negb fst snd workers set_workers].
  assert (Hk1 : workers (set_workers (map repaired (workers w)) w) !! r
                = Some (repaired wk)).
  { cbn [workers set_workers].
    change (map repaired (workers w)) with (repaired <$> workers w).
    by rewrite list_lookup_fmap, Hk. }
  split; [|split].
  - pose proof (measure_schedule_lookup _ r (repaired wk) Hk1) as Hm.
    cbn [workers set_workers thin_client_mode] in Hm.
    rewrite Hm, scheduled_repaired. f_equal.
    destruct (eligible (thin_client_mode w) wk); [done|].
    apply repaired_of_valid, repaired_valid.
  - cbn [app]. left.
  - intros Hel.
    assert (Hin : r ∈ scheduled_refs (set_workers (map repaired (workers w)) w)).
    { apply (scheduled_refs_elem _ r (repaired wk) Hk1).
      cbn [thin_client_mode set_workers]. by rewrite scheduled_repaired. }
    rewrite bool_decide_eq_true_2; [by eexists|].
    destruct (scheduled_refs (set_workers (map repaired (workers w)) w));
      [by apply not_elem_of_nil in Hin|cbn; lia].
Qed.

(** X21: a forced re-benchmark ignores the cache file: it first clears
    the benchmarked flag of every scheduled worker, then measures every
    eligible worker. A scheduled worker whose measurement dies is
    therefore left without the flag but with its old speed; one whose
    stored speed had to be repaired keeps its old flag in that case. *)
Theorem forced_benchmark_clears_the_flag_and_measures
    (cache : CacheFile) (w : World) (r : nat) (wk : Worker) :
  workers w !! r = Some wk ->
  workers (benchmark measure true cache w).1.1 !! r
  = Some (if eligible (thin_client_mode w) wk
          then measured measure
                 (if scheduled (thin_client_mode w) wk then set_benchmarked false wk
                  else repaired wk)
          else repaired wk).
Proof.
  intros Hk. unfold benchmark. cbn [andb negb].
  destruct (get_workers_eq w) as [log ->]. cbn [workers set_workers].
  match goal with |- context [get_workers ?x] =>
    destruct (get_workers_eq x) as [log2 Heq] end.
  rewrite Heq. cbn [andb negb fst snd workers set_workers].
  set (ws0 := foldl (fun ws r => alter (set_benchmarked false) r ws)
                (map repaired (workers w)) (scheduled_refs w)).
  set (wk0 := if scheduled (thin_client_mode w) wk then set_benchmarked false wk
              else repaired wk).
  assert (Hk0 : ws0 !! r = Some wk0).
  { unfold ws0, wk0. rewrite foldl_alter_lookup by apply scheduled_refs_NoDup.
    change (map repaired (workers w)) with (repaired <$> workers w).
    rewrite list_lookup_fmap, Hk. cbn.
    destruct (scheduled (thin_client_mode w) wk) eqn:Hs.
    - rewrite decide_True by (by apply (scheduled_refs_elem w r wk Hk)).
      by rewrite (repaired_of_valid wk (scheduled_valid _ _ Hs)).
    - rewrite decide_False; [done|]. intros Hin%(scheduled_refs_elem w r wk Hk).
      congruence. }
  assert (Hvalid : invalid_speed wk0 = false).
  { unfold wk0. destruct (scheduled (thin_client_mode w) wk) eqn:Hs.
    - apply (scheduled_valid _ _) in Hs. exact Hs.
    - apply repaired_valid. }
  assert (Hsched : scheduled (thin_client_mode w) wk0 = eligible (thin_client_mode w) wk).
  { rewrite scheduled_eligible, Hvalid. cbn. unfold wk0, eligible, repaired.
    by destruct (scheduled (thin_client_mode w) wk), (invalid_speed wk). }
  pose proof (measure_schedule_lookup (set_workers ws0 (set_workers (map repaired (workers w)) w))
                r wk0 Hk0) as Hm.
  cbn [workers set_workers thin_client_mode] in Hm.
  match goal with |- foldl _ _ ?refs !! _ = _ =>
    match type of Hm with foldl _ _ ?refs' !! _ = _ => change refs with refs' end end.
  rewrite Hm, Hsched. f_equal.
  destruct (eligible (thin_client_mode w) wk) eqn:Hel; [done|].
  rewrite (repaired_of_valid wk0 Hvalid). unfold wk0.
  destruct (scheduled (thin_client_mode w) wk) eqn:Hs; [|done].
  rewrite scheduled_eligible, Hel, andb_false_r in Hs. discriminate.
Qed.

Lemma uuid_measured (wk : Worker) : uuid (measured measure wk) = uuid wk.
Proof. unfold measured. by destruct (measure wk). Qed.

Lemma uuid_repaired (wk : Worker) : uuid (repaired wk) = uuid wk.
Proof. unfold repaired. by destruct (invalid_speed wk). Qed.

Lemma record_results_lookup (ws : list Worker) (refs : list nat) :
  NoDup (uuid <$> ws) ->
  forall (info : gmap string (option Q)) (r : nat) (wk : Worker),
    Forall (fun a => is_Some (ws !! a)) refs ->
    ws !! r = Some wk ->
    r ∈ refs \/ info !! uuid wk = Some (avg_ipm wk) ->
    record_results ws refs info !! uuid wk = Some (avg_ipm wk).
Proof.
  intros Hnd. induction refs as [|a refs IH]; intros info r wk Hrange Hk Hcase.
  - destruct Hcase as [Hin|Hinfo]; [by apply not_elem_of_nil in Hin|exact Hinfo].
  - apply Forall_cons in Hrange as [[wka Hka] Hrange].
    unfold record_results. cbn [foldl]. fold (record_results ws refs).
    apply (IH _ r wk Hrange Hk).
    rewrite (list_lookup_total_correct _ _ _ Hka).
    destruct (decide (a = r)) as [->|Hne].
    + right. assert (wka = wk) as -> by congruence. apply lookup_insert_eq.
    + assert (Hu : uuid wka <> uuid wk).
      { intros Heq. apply Hne. apply (NoDup_lookup (uuid <$> ws) a r (uuid wk) Hnd).
        - by rewrite list_lookup_fmap, Hka, <- Heq.
        - by rewrite list_lookup_fmap, Hk. }
      destruct Hcase as [Hin|Hinfo].
      * apply elem_of_cons in Hin as [Heq|Hin]; [congruence|by left].
      * right. by rewrite lookup_insert_ne.
Qed.

(** X22: the cache round trip. When no two registered workers share a
    uuid, a benchmark without a cache file writes a cache in which a
    scheduled worker whose measurement gave a positive speed is recorded
    with that speed, unless its uuid is ["benchmark_payload"], the key
    the payload is written under; a later [benchmark] on that cache,
    with no re-benchmark forced, leaves the worker benchmarked with the
    same speed, whatever a new measurement would give. *)
Theorem benchmark_cache_round_trip
    (measure' : Worker -> option Q) (w : World) (r : nat) (wk : Worker) (ipm : Q) :
  NoDup (uuid <$> workers w) ->
  uuid wk <> "benchmark_payload" ->
  workers w !! r = Some wk ->
  scheduled (thin_client_mode w) wk = true ->
  measure wk = Some ipm ->
  (0 < ipm)%Q ->
  exists info : gmap string (option Q),
    (benchmark measure false CacheAbsent w).1.2 = CacheDocument info
    /\ info !! uuid wk = Some (Some ipm)
    /\ workers (benchmark measure' false (CacheDocument info)
                  (benchmark measure false CacheAbsent w).1.1).1.1 !! r
       = Some (set_benchmarked true (set_avg_ipm (Some ipm) wk))
    /\ workers (benchmark measure false CacheAbsent w).1.1 !! r
       = Some (set_benchmarked true (set_avg_ipm (Some ipm) wk)).
Proof.
  intros Hnd Hkey Hk Hs Hm Hpos. destruct (benchmark_absent_eq w) as [log ->].
  cbn [fst snd]. set (ws1 := foldl (benchmark_wrapped measure) (map repaired (workers w))
                               (scheduled_refs w)).
  set (wk1 := set_benchmarked true (set_avg_ipm (Some ipm) wk)).
  assert (Hk1 : ws1 !! r = Some wk1).
  { unfold ws1. rewrite (measure_schedule_lookup w r wk Hk), Hs.
    unfold measured. by rewrite Hm. }
  assert (Hin : r ∈ scheduled_refs w) by (by apply (scheduled_refs_elem w r wk Hk)).
  assert (Huuid : uuid <$> ws1 = uuid <$> workers w).
  { apply list_eq. intros i. unfold ws1. rewrite !list_lookup_fmap.
    rewrite foldl_benchmark_wrapped_lookup by apply scheduled_refs_NoDup.
    change (map repaired (workers w)) with (repaired <$> workers w).
    rewrite list_lookup_fmap.
    destruct (workers w !! i) as [wki|]; [|by case_decide].
    case_decide; cbn; by rewrite ?uuid_measured, uuid_repaired. }
  rewrite bool_decide_eq_true_2
    by (destruct (scheduled_refs w); [by apply not_elem_of_nil in Hin|cbn; lia]).
  eexists. split; [reflexivity|].
  assert (Hinfo : record_payload (record_results ws1 (scheduled_refs w) ∅) !! uuid wk
                  = Some (Some ipm)).
  { unfold record_payload. rewrite lookup_delete_ne by done.
    change (uuid wk) with (uuid wk1). change (Some ipm) with (avg_ipm wk1).
    apply (record_results_lookup ws1 (scheduled_refs w)) with (r := r).
    - by rewrite Huuid.
    - apply Forall_forall. intros a (wka & Hka & _)%scheduled_refs_lookup.
      assert (Hl : (uuid <$> ws1) !! a = Some (uuid wka))
        by (by rewrite Huuid, list_lookup_fmap, Hka).
      rewrite list_lookup_fmap in Hl. destruct (ws1 !! a); [by eexists|discriminate].
    - exact Hk1.
    - by left. }
  split; [exact Hinfo|]. split; [|exact Hk1].
  assert (Hs1 : scheduled (thin_client_mode w) wk1 = true).
  { apply scheduled_iff. apply scheduled_iff in Hs as (_ & Hmaster & Hstate).
    split; [|by split]. unfold invalid_speed, wk1. cbn.
    destruct (Qle_bool ipm 0) eqn:Hle; [|done].
    apply Qle_bool_iff in Hle. exfalso. by apply (Qlt_not_le 0 ipm). }
  apply (benchmark_cached_lookup measure' _ (set_workers ws1 w) r wk1 (Some ipm));
    [exact Hk1|exact Hs1|exact Hinfo].
Qed.
End MoreBenchmarkProperties.

Lemma benchmark_takes_the_cached_speed_witness :
  workers (benchmark BenchmarkExamples.measure_30 false
             (CacheDocument BenchmarkExamples.master_only)
             BenchmarkExamples.two_nodes).1.1 !! 0%nat
  = Some (set_benchmarked true (set_avg_ipm (Some 60%Q) new_master)).
Proof.
  apply (benchmark_takes_the_cached_speed BenchmarkExamples.measure_30
           BenchmarkExamples.master_only BenchmarkExamples.two_nodes 0 new_master
           (Some 60%Q)); [reflexivity|reflexivity|].
  vm_compute. reflexivity.
Defined.

Lemma benchmark_without_cache_measures_the_schedule_witness :
  workers (benchmark BenchmarkExamples.measure_30 false CacheAbsent
             BenchmarkExamples.two_nodes).1.1 !! 1%nat
  = Some (if scheduled (thin_client_mode BenchmarkExamples.two_nodes)
               (BenchmarkExamples.fresh_remote "A")
          then measured BenchmarkExamples.measure_30 (BenchmarkExamples.fresh_remote "A")
          else repaired (BenchmarkExamples.fresh_remote "A")).
Proof.
  apply (benchmark_without_cache_measures_the_schedule BenchmarkExamples.measure_30
           BenchmarkExamples.two_nodes 1 (BenchmarkExamples.fresh_remote "A")).
  reflexivity.
Defined.

Lemma benchmark_with_corrupt_cache_measures_every_eligible_worker_witness :
  workers (benchmark BenchmarkExamples.measure_30 false CacheNotJson
             Examples.stale_speed).1.1 !! 1%nat
  = Some (if eligible (thin_client_mode Examples.stale_speed) (Scenario.remote "A" 0)
          then measured BenchmarkExamples.measure_30 (repaired (Scenario.remote "A" 0))
          else repaired (Scenario.remote "A" 0))
  /\ LogError "workers.json is not valid JSON, regenerating"
       ∈ (benchmark BenchmarkExamples.measure_30 false CacheNotJson Examples.stale_speed).2
  /\ (eligible (thin_client_mode Examples.stale_speed) (Scenario.remote "A" 0) = true ->
      exists info,
        (benchmark BenchmarkExamples.measure_30 false CacheNotJson Examples.stale_speed).1.2
        = CacheDocument info).
Proof.
  apply (benchmark_with_corrupt_cache_measures_every_eligible_worker
           BenchmarkExamples.measure_30 Examples.stale_speed 1 (Scenario.remote "A" 0)).
  reflexivity.
Defined.

Lemma forced_benchmark_clears_the_flag_and_measures_witness :
  workers (benchmark (fun _ => None) true (CacheDocument BenchmarkExamples.master_only)
             Scenario.three_nodes).1.1 !! 1%nat
  = Some (if eligible (thin_client_mode Scenario.three_nodes) (Scenario.remote "A" 60)
          then measured (fun _ => None)
                 (if scheduled (thin_client_mode Scenario.three_nodes)
                       (Scenario.remote "A" 60)
                  then set_benchmarked false (Scenario.remote "A" 60)
                  else repaired (Scenario.remote "A" 60))
          else repaired (Scenario.remote "A" 60)).
Proof.
  apply (forced_benchmark_clears_the_flag_and_measures (fun _ => None)
           (CacheDocument BenchmarkExamples.master_only) Scenario.three_nodes 1
           (Scenario.remote "A" 60)).
  reflexivity.
Defined.

Lemma benchmark_cache_round_trip_witness :
  exists info : gmap string (option Q),
    (benchmark BenchmarkExamples.measure_30 false CacheAbsent
       BenchmarkExamples.two_nodes).1.2 = CacheDocument info
    /\ info !! uuid (BenchmarkExamples.fresh_remote "A") = Some (Some 30%Q)
    /\ workers (benchmark (fun _ => None) false (CacheDocument info)
                  (benchmark BenchmarkExamples.measure_30 false CacheAbsent
                     BenchmarkExamples.two_nodes).1.1).1.1 !! 1%nat
       = Some (set_benchmarked true
                 (set_avg_ipm (Some 30%Q) (BenchmarkExamples.fresh_remote "A")))
    /\ workers (benchmark BenchmarkExamples.measure_30 false CacheAbsent
                  BenchmarkExamples.two_nodes).1.1 !! 1%nat
       = Some (set_benchmarked true
                 (set_avg_ipm (Some 30%Q) (BenchmarkExamples.fresh_remote "A"))).
Proof.
  apply (benchmark_cache_round_trip BenchmarkExamples.measure_30 (fun _ => None)
           BenchmarkExamples.two_nodes 1 (BenchmarkExamples.fresh_remote "A") 30%Q).
  - apply (bool_decide_unpack _). vm_compute. exact I.
  - discriminate.
  - reflexivity.
  - reflexivity.
  - reflexivity.
  - reflexivity.
Defined.

(** * Initialisation *)

Lemma update_world_Ok (total : Z) (w w' : World) (log : list LogRecord) :
  update_world total w = Ok (w', log) ->
  total_batch_size w' = total
  /\ jobs w' <> []
  /\ workers w' = map repaired (workers w).
Proof.
  destruct (update_world_unfold total w) as [log' ->].
  destruct (Z.eqb_spec (Z.of_nat (length (scheduled_refs w))) 0) as [Hz|Hnz]; [done|].
  cbn zeta. intros [= <- _]. cbn [jobs workers total_batch_size set_jobs set_workers
                                  set_total_batch_size].
  split; [done|]. split; [|done]. intros Hnil%fmap_nil_inv.
  destruct (scheduled_refs w) as [|r l] eqn:Hrefs; [done|].
  assert (Hin : r ∈ scheduled_refs w) by (rewrite Hrefs; left).
  apply scheduled_refs_after_repair in Hin.
  change (scheduled_refs (set_workers (map repaired (workers w)) w))
    with (scheduled_refs (set_workers (map repaired (workers w))
                            (set_jobs [] (set_total_batch_size total w)))) in Hin.
  rewrite Hnil in Hin. by apply not_elem_of_nil in Hin.
Qed.

(** X23: [initialize] succeeds at most once on a world: a call that
    returns was made on a world not yet initialized and leaves it
    initialized, with the requested total and at least one job, and
    every later call raises [WorldAlreadyInitialized], whatever the
    cache, the total and the measurements. *)
Theorem initialize_succeeds_at_most_once
    (measure : Worker -> option Q) (cache : CacheFile) (total : Z) (w w' : World)
    (cache' : CacheFile) (log : list LogRecord) :
  initialize measure cache total w = Ok (w', cache', log) ->
  initialized w = false
  /\ initialized w' = true
  /\ total_batch_size w' = total
  /\ jobs w' <> []
  /\ forall (measure2 : Worker -> option Q) (cache2 : CacheFile) (total2 : Z),
       initialize measure2 cache2 total2 w' = Raise WorldAlreadyInitialized.
Proof.
  unfold initialize. destruct (initialized w) eqn:Hinit; [discriminate|].
  destruct (benchmark_raises measure false cache w) as [e|].
  { by destruct (benchmark measure false cache w) as [[w1 cache1] log1]. }
  destruct (benchmark measure false cache w) as [[w1 cache1] log1].
  destruct (update_world total w1) as [[w2 log2]| |] eqn:Hupdate; [|discriminate..].
  rewrite bind_Ok. intros [= <- _ _].
  apply update_world_Ok in Hupdate as (Htotal & Hjobs & _).
  cbn [initialized set_initialized total_batch_size jobs]. by repeat split.
Qed.

Lemma initialize_succeeds_at_most_once_witness :
  let w' := set_initialized true
              (set_jobs [new_job 0 2; new_job 1 2]
                 (set_total_batch_size 4
                    (set_workers
                       [measured BenchmarkExamples.measure_30 new_master;
                        measured BenchmarkExamples.measure_30
                          (BenchmarkExamples.fresh_remote "A")]
                       BenchmarkExamples.two_nodes))) in
  initialized BenchmarkExamples.two_nodes = false
  /\ initialized w' = true
  /\ total_batch_size w' = 4
  /\ jobs w' <> []
  /\ forall (measure2 : Worker -> option Q) (cache2 : CacheFile) (total2 : Z),
       initialize measure2 cache2 total2 w' = Raise WorldAlreadyInitialized.
Proof.
  eapply (initialize_succeeds_at_most_once BenchmarkExamples.measure_30 CacheAbsent 4
            BenchmarkExamples.two_nodes).
  vm_compute. reflexivity.
Defined.

(** A registered worker that is unreachable is not measured and, never
    benchmarked before, keeps the speed [None]: the summary that closes
    the benchmark raises [TypeError], [initialize] does not catch it and
    the world stays uninitialized. On a cache that parses the benchmark
    returns before the summary and the same world is initialized. *)
Example initialize_raises_on_a_worker_without_speed :
  benchmark_raises BenchmarkExamples.measure_30 false CacheAbsent MoreExamples.with_offline
  = Some TypeError
  /\ initialize BenchmarkExamples.measure_30 CacheAbsent 4 MoreExamples.with_offline
     = Raise TypeError
  /\ benchmark_raises BenchmarkExamples.measure_30 false
       (CacheDocument BenchmarkExamples.master_only) MoreExamples.with_offline = None
  /\ initialized <$> (match initialize BenchmarkExamples.measure_30
                              (CacheDocument BenchmarkExamples.master_only) 4
                              MoreExamples.with_offline with
                      | Ok r => Some r.1.1
                      | _ => None
                      end) = Some true.
Proof. repeat split; vm_compute; reflexivity. Qed.

(** A worker registered under the uuid of the payload key is measured
    like any other, but its entry in the cache is overwritten by the
    payload: the cache holds no speed for it. *)
Example payload_key_hides_a_worker :
  let w := Scenario.fleet [new_master; BenchmarkExamples.fresh_remote "benchmark_payload"] in
  let r := benchmark BenchmarkExamples.measure_30 false CacheAbsent w in
  avg_ipm <$> workers r.1.1 = [Some 30%Q; Some 30%Q]
  /\ cache_info r.1.2 !! "master" = Some (Some 30%Q)
  /\ cache_info r.1.2 !! "benchmark_payload" = None.
Proof. repeat split; vm_compute; reflexivity. Qed.

(** * Image counts are never negative *)

Lemma Qdiv_nonneg (x y : Q) : (0 <= x)%Q -> (0 <= y)%Q -> (0 <= x / y)%Q.
Proof.
  intros Hx Hy. unfold Qdiv. apply Qmult_le_0_compat; [done|by apply Qinv_le_0_compat].
Qed.

Lemma int_of_Q_nonneg (q : Q) : (0 <= q)%Q -> 0 <= int_of_Q q.
Proof. unfold Qle, int_of_Q. cbn. intros H. apply Z.quot_pos; lia. Qed.

Lemma float_div_nonneg (x y q : Q) :
  float_div x y = Ok q -> (0 <= x)%Q -> (0 <= y)%Q -> (0 <= q)%Q.
Proof.
  unfold float_div. destruct (Qeq_bool y 0); [discriminate|]. intros [= <-].
  apply Qdiv_nonneg.
Qed.

Lemma slowest_realtime_job_elem (ws : list Worker) (js : list Job) (s : nat * Job) :
  slowest_realtime_job ws js = Ok s -> s.2 ∈ js.
Proof.
  rewrite slowest_realtime_job_first_best.
  destruct (first_best _ (realtime_jobs ws js)) as [[i sj]|] eqn:Hs; [|discriminate].
  intros [= <-]. apply first_best_elem in Hs.
  apply realtime_from_lookup in Hs as (_ & Hl & _). by apply list_elem_of_lookup_2 in Hl.
Qed.

Lemma handle_remainder_fuel_mono (fuel fuel' : nat) (ws : list Worker) (total : Z)
    (js js' : list Job) :
  handle_remainder fuel ws total js = Ok js' ->
  (fuel <= fuel')%nat ->
  handle_remainder fuel' ws total js = Ok js'.
Proof.
  unfold handle_remainder. destruct (_ >=? 1); [|done].
  intros Hrun Hle. by eapply round_robin_fuel_mono.
Qed.

Section NonNegative.
Context (batch_eta : Worker -> Payload -> Q).

Lemma num_images_compensate_nonneg (ws : list Worker) (js : list Job) (p : Payload)
    (per : option Z) (job : Job) (n : Z) :
  (forall j, j ∈ js -> predictions_nonneg batch_eta ws p (worker j)) ->
  predictions_nonneg batch_eta ws p (worker job) ->
  0 <= p_batch_size p ->
  (forall m, per = Some m -> 0 <= m) ->
  num_images_compensate batch_eta ws js p per job = Ok n ->
  0 <= n.
Proof.
  intros Hjs [_ Hjob] Hb Hper. unfold num_images_compensate.
  destruct (slowest_realtime_job ws js) as [s| |] eqn:Hs; [|discriminate..].
  rewrite bind_Ok. cbn zeta.
  destruct (Hjs s.2 (slowest_realtime_job_elem _ _ _ Hs)) as [Hslack _].
  assert (Hinj : forall z, 0 <= z -> (0 <= inject_Z z)%Q).
  { intros z Hz. unfold Qle, inject_Z. cbn. lia. }
  destruct per as [m|].
  - destruct (float_div (batch_eta (ws !!! worker s.2) p) (inject_Z (p_batch_size p)))
      as [u| |] eqn:Hu; [|discriminate..].
    rewrite !bind_Ok.
    destruct (float_div _ (batch_eta (ws !!! worker job) (with_batch_size 1 p)))
      as [ratio| |] eqn:Hr; [|discriminate..].
    rewrite bind_Ok. intros [= <-]. apply int_of_Q_nonneg.
    eapply float_div_nonneg; [exact Hr| |exact Hjob].
    change 0%Q with (0 + 0)%Q. apply Qplus_le_compat; [exact Hslack|].
    apply Qmult_le_0_compat; [|by apply Hinj, Hper].
    eapply float_div_nonneg; [exact Hu|exact Hslack|by apply Hinj].
  - rewrite bind_Ok.
    destruct (float_div _ (batch_eta (ws !!! worker job) (with_batch_size 1 p)))
      as [ratio| |] eqn:Hr; [|discriminate..].
    rewrite bind_Ok. intros [= <-]. apply int_of_Q_nonneg.
    eapply float_div_nonneg; [exact Hr|exact Hslack|exact Hjob].
Qed.

Lemma backfill_nonneg (ws : list Worker) (p : Payload) (per : option Z) :
  0 <= p_batch_size p ->
  (forall m, per = Some m -> 0 <= m) ->
  forall (todo seen js4 : list Job),
    (forall j, j ∈ seen ++ todo -> predictions_nonneg batch_eta ws p (worker j)) ->
    backfill batch_eta ws p per seen todo = Ok js4 ->
    exists todo' : list Job,
      js4 = seen ++ todo'
      /\ Forall2 (fun j j' => (complementary j = false -> j' = j)
                              /\ (complementary j = true -> 0 <= batch_size j'))
           todo todo'.
Proof.
  intros Hb Hper. induction todo as [|job rest IH]; intros seen js4 Heta; cbn [backfill].
  - intros [= <-]. exists []. by rewrite app_nil_r.
  - destruct (complementary job) eqn:Hc.
    + destruct (num_images_compensate batch_eta ws (seen ++ job :: rest) p per job)
        as [n| |] eqn:Hn; [|discriminate..].
      rewrite bind_Ok. intros Hrun.
      apply num_images_compensate_nonneg in Hn; [|done| |done..].
      2:{ apply Heta, elem_of_app. right. left. }
      apply IH in Hrun as (todo' & -> & Hall).
      * exists (set_batch_size n job :: todo'). rewrite <- app_assoc. split; [done|].
        constructor; [|done]. split; [congruence|done].
      * intros j. rewrite <- app_assoc. cbn [app]. rewrite !elem_of_app, !elem_of_cons.
        intros [Hj|[->|Hj]].
        -- apply Heta, elem_of_app. by left.
        -- apply (Heta job), elem_of_app. right. left.
        -- apply Heta, elem_of_app. right. by right.
    + intros Hrun. apply IH in Hrun as (todo' & -> & Hall).
      * exists (job :: todo'). rewrite <- app_assoc. split; [done|].
        constructor; [|done]. split; [done|congruence].
      * intros j. rewrite <- app_assoc. cbn [app]. apply Heta.
Qed.

(** X24: when the payload's batch size is not negative and the
    predictions for the workers that own a job are not negative, no job
    that a run of [optimize_jobs] leaves has a negative image count,
    real-time or complementary. *)
Theorem optimize_jobs_never_yields_a_negative_count
    (fuel : nat) (w w' : World) (p : Payload) :
  Forall (fun j => predictions_nonneg batch_eta (workers w) p (worker j)) (jobs w) ->
  0 <= p_batch_size p ->
  optimize_jobs batch_eta fuel w p = Ok w' ->
  Forall (fun j => 0 <= batch_size j) (jobs w').
Proof.
  intros Heta Hb Hrun. pose proof Hrun as (js & Hassign & Hkept & ->)%optimize_jobs_Ok.
  cbn [jobs set_jobs].
  assert (Hjs : Forall (fun j => 0 <= batch_size j) js).
  2:{ apply Forall_forall. intros j Hj. rewrite Forall_forall in Hjs. apply Hjs.
      eapply elem_of_sublist; [exact Hj|apply pruned_sublist]. }
  destruct (decide (jobs w = [])) as [Hnil|Hne].
  { rewrite Hnil in Hkept. inversion Hkept. constructor. }
  destruct (fastest_worker (workers w) (jobs w)) as [f|] eqn:Hf.
  2:{ by rewrite (optimize_jobs_raises_without_realtime_jobs batch_eta fuel w p Hne Hf)
        in Hrun. }
  destruct (rounding_spec batch_eta (workers w) (job_timeout w) (total_batch_size w) p
              (jobs w) f Hf)
    as (js1 & d & c & per & js2 & js3 & Hclass & Hall & _ & Hred & Hper & Hrem & Htop & _).
  unfold assign_jobs in Hassign. rewrite Hclass, bind_Ok in Hassign. cbn beta iota in Hassign.
  rewrite Hred, bind_Ok in Hassign. cbn beta iota in Hassign.
  destruct (handle_remainder fuel (workers w) (total_batch_size w) js2)
    as [js3'| |] eqn:Hrem'; [|discriminate..].
  rewrite bind_Ok in Hassign.
  assert (js3' = js3) as ->.
  { set (bound := Z.to_nat (total_batch_size w - get_current_output_size js2)).
    pose proof (Hrem (fuel `max` bound)%nat ltac:(lia)) as H3.
    rewrite (handle_remainder_fuel_mono fuel (fuel `max` bound) _ _ _ _ Hrem') in H3 by lia.
    congruence. }
  assert (H3 : Forall (fun j3 => 0 <= batch_size j3) js3).
  { clear -Hall Htop Hb. revert js3 Htop.
    induction Hall as [|j j1 l l1 Hstep _ IH]; intros js3 Htop.
    - inversion Htop. constructor.
    - inversion Htop as [|? j3 ? l3 (_ & _ & _ & Hle) Hrest]; subst.
      constructor; [|by apply IH].
      destruct Hstep as [->|(_ & _ & ->)]; cbn in Hle; lia. }
  assert (Howners : worker <$> js3 = worker <$> jobs w).
  { rewrite (topped_up_workers _ _ _ Htop).
    by rewrite (classify_same_workers _ _ _ _ _ _ _ _ _ _ _ _ Hclass). }
  apply backfill_nonneg in Hassign as (js4 & -> & Hback); [|done| |].
  - cbn [app]. clear -H3 Hback. induction Hback as [|j3 j4 l3 l4 [Hsame Hnn] _ IH];
      [constructor|].
    apply Forall_cons in H3 as [Hj3 H3]. constructor; [|by apply IH].
    destruct (complementary j3); [by apply Hnn|]. by rewrite Hsame.
  - intros m Hm. destruct Hper as [(-> & _)|(Hd & -> & _)]; [discriminate|].
    injection Hm as <-. apply Z_div_nonneg_nonneg; lia.
  - cbn [app]. intros j3 Hj3.
    assert (Hin : worker j3 ∈ worker <$> jobs w).
    { rewrite <- Howners. by apply list_elem_of_fmap_2. }
    apply list_elem_of_fmap in Hin as (j & -> & Hj).
    rewrite Forall_forall in Heta. by apply Heta.
Qed.
End NonNegative.

Lemma optimize_jobs_never_yields_a_negative_count_witness :
  Forall (fun j => 0 <= batch_size j)
    (jobs (set_jobs [ {| worker := 0; batch_size := 5; complementary := false |};
                      {| worker := 1; batch_size := 4; complementary := false |} ]
             MoreExamples.nine_images)).
Proof.
  apply (optimize_jobs_never_yields_a_negative_count eta_by_ipm 1 MoreExamples.nine_images
           _ (with_batch_size 3 Scenario.request)).
  - repeat constructor; vm_compute; discriminate.
  - vm_compute. discriminate.
  - vm_compute. reflexivity.
Defined.

(** * Further properties of the single phases *)

(** X25: the pruning loop never indexes out of range, although it
    deletes from the list it counts down on. It keeps the first job,
    keeps the order, deletes nothing but jobs, and pruning a pruned
    list changes nothing. *)
Theorem prune_never_fails_and_is_idempotent (js : list Job) :
  exists js' : list Job,
    prune js = Ok js'
    /\ prune js' = Ok js'
    /\ js' `sublist_of` js
    /\ head js' = head js.
Proof.
  exists (take 1 js ++ filter has_work (drop 1 js)).
  rewrite !prune_keeps_first_and_jobs_with_work. split; [done|]. split; [|split].
  - f_equal. destruct js as [|j0 tl]; [done|]. cbn [take drop app]. f_equal.
    rewrite drop_0. apply list_filter_filter_l. done.
  - apply pruned_sublist.
  - by destruct js.
Qed.

(** X26: when images were deferred, the redistribution gives every
    real-time job the same share [deferred // R], [R] being the number
    of real-time jobs, and leaves every other job as it is; it hands
    back at most the deferred images and keeps back fewer than [R] of
    them, which the remainder step then finds missing. *)
Theorem redistribute_hands_back_an_equal_share
    (ws : list Worker) (d : Z) (js js2 : list Job) (per : option Z) :
  0 < d ->
  redistribute ws d js = Ok (per, js2) ->
  let R := Z.of_nat (length (realtime_jobs ws js)) in
  0 < R
  /\ per = Some (d / R)
  /\ js2 = (fun j => if is_realtime ws j then add_batch_size (d / R) j else j) <$> js
  /\ get_current_output_size js2 = get_current_output_size js + d / R * R
  /\ d - R < d / R * R <= d.
Proof.
  intros Hd. rewrite redistribute_spec, realtime_jobs_length.
  destruct (Z.gtb_spec d 0) as [_|]; [|lia].
  destruct (Z.eqb_spec (Z.of_nat (length (rt_counts ws js))) 0) as [|Hnz]; [discriminate|].
  intros [= <- <-]. cbn zeta.
  set (R := Z.of_nat (length (rt_counts ws js))) in *.
  assert (HR : 0 < R) by lia.
  split; [done|]. split; [done|]. split; [done|].
  split; [apply raise_realtime_output_size|].
  pose proof (Z.mul_div_le d R HR). pose proof (Z.mul_succ_div_gt d R HR). nia.
Qed.

Lemma redistribute_hands_back_an_equal_share_witness :
  let js := [ {| worker := 0; batch_size := 0; complementary := true |};
              {| worker := 1; batch_size := 3; complementary := false |};
              {| worker := 2; batch_size := 3; complementary := false |} ] in
  let js2 := [ {| worker := 0; batch_size := 0; complementary := true |};
               {| worker := 1; batch_size := 4; complementary := false |};
               {| worker := 2; batch_size := 4; complementary := false |} ] in
  let R := Z.of_nat (length (realtime_jobs (workers MoreExamples.unequal_fleet) js)) in
  0 < R
  /\ Some 1 = Some (3 / R)
  /\ js2 = (fun j => if is_realtime (workers MoreExamples.unequal_fleet) j
                     then add_batch_size (3 / R) j else j) <$> js
  /\ get_current_output_size js2 = get_current_output_size js + 3 / R * R
  /\ 3 - R < 3 / R * R <= 3.
Proof.
  apply (redistribute_hands_back_an_equal_share (workers MoreExamples.unequal_fleet) 3
           [ {| worker := 0; batch_size := 0; complementary := true |};
             {| worker := 1; batch_size := 3; complementary := false |};
             {| worker := 2; batch_size := 3; complementary := false |} ]
           [ {| worker := 0; batch_size := 0; complementary := true |};
             {| worker := 1; batch_size := 4; complementary := false |};
             {| worker := 2; batch_size := 4; complementary := false |} ] (Some 1)).
  - lia.
  - vm_compute. reflexivity.
Defined.

(** X27: on a fleet whose jobs all belong to benchmarked workers of one
    and the same stored speed the classification loop defers nobody,
    whatever the stall tolerance, also a tolerance of zero or less: with
    a predictor that only reads the speed every lag is exactly zero.
    Every job is left with the payload's batch size and the pool of
    deferred images stays empty. *)
Theorem classify_defers_nobody_on_equal_speeds
    (batch_eta : Worker -> Payload -> Q) (ws : list Worker) (timeout : Q) (total : Z)
    (p : Payload) (js : list Job) (q : Q) :
  reads_speed_only batch_eta ->
  Forall (fun j => complementary j = false
                   /\ benchmarked (ws !!! worker j) = true
                   /\ avg_ipm (ws !!! worker j) = Some q) js ->
  classify batch_eta ws timeout total p [] js 0 0
  = Ok (set_batch_size (p_batch_size p) <$> js, 0,
        p_batch_size p * Z.of_nat (length js)).
Proof.
  intros Hreads Hall.
  assert (Hgen : forall (todo seen : list Job) (c : Z),
             Forall (fun j => complementary j = false
                              /\ benchmarked (ws !!! worker j) = true
                              /\ avg_ipm (ws !!! worker j) = Some q) (seen ++ todo) ->
             classify batch_eta ws timeout total p seen todo 0 c
             = Ok (seen ++ (set_batch_size (p_batch_size p) <$> todo), 0,
                   c + p_batch_size p * Z.of_nat (length todo))).
  { induction todo as [|job rest IH]; intros seen c Hall'.
    - cbn. rewrite app_nil_r. do 2 f_equal. lia.
    - cbn [classify].
      assert (Hrt : rt_workers ws (seen ++ job :: rest) <> []).
      { destruct (seen ++ job :: rest) as [|j0 l] eqn:Hl; [by destruct seen|].
        apply Forall_cons in Hall' as [(Hc & Hb & Hq) _].
        rewrite rt_workers_cons. unfold is_realtime. by rewrite Hb, Hq, Hc. }
      destruct (first_best_is_Some (faster ws) _ Hrt) as [f Hf].
      rewrite (job_stall_fastest batch_eta ws _ f (worker job) p Hf), bind_Ok.
      assert (Hfq : avg_ipm (ws !!! f) = Some q).
      { apply first_best_elem in Hf. unfold rt_workers in Hf.
        apply list_elem_of_fmap in Hf as (jf & -> & Hjf).
        apply list_elem_of_filter in Hjf as [_ Hjf].
        rewrite Forall_forall in Hall'. by destruct (Hall' jf Hjf) as (_ & _ & ?). }
      assert (Hjq : avg_ipm (ws !!! worker job) = Some q).
      { rewrite Forall_forall in Hall'.
        destruct (Hall' job) as (_ & _ & ?); [|done]. apply elem_of_app. right. left. }
      assert (Htol : within_tolerance timeout
                       (if decide (worker job = f) then 0%Q
                        else (batch_eta (ws !!! worker job) p - batch_eta (ws !!! f) p)%Q)
                     = true).
      { case_decide; [apply within_tolerance_zero|].
        rewrite (Hreads (ws !!! worker job) (ws !!! f) p) by congruence.
        apply within_tolerance_no_lag. }
      rewrite Htol, IH.
      + rewrite <- app_assoc. cbn [app fmap list_fmap length]. do 2 f_equal. lia.
      + rewrite <- app_assoc. cbn [app].
        apply Forall_app in Hall' as [Hseen Hrest].
        apply Forall_cons in Hrest as [Hjob Hrest].
        apply Forall_app. split; [done|]. constructor; [|done]. exact Hjob. }
  rewrite (Hgen js [] 0) by done. cbn [app]. do 2 f_equal.
Qed.

Lemma classify_defers_nobody_on_equal_speeds_witness :
  classify eta_by_ipm (workers MoreExamples.five_images) 0 5
    (with_batch_size 1 Scenario.request) [] (jobs MoreExamples.five_images) 0 0
  = Ok (set_batch_size (p_batch_size (with_batch_size 1 Scenario.request))
          <$> jobs MoreExamples.five_images, 0,
        p_batch_size (with_batch_size 1 Scenario.request)
        * Z.of_nat (length (jobs MoreExamples.five_images))).
Proof.
  apply (classify_defers_nobody_on_equal_speeds eta_by_ipm (workers MoreExamples.five_images)
           0 5 (with_batch_size 1 Scenario.request) (jobs MoreExamples.five_images) 60%Q).
  - apply eta_by_ipm_reads_speed_only.
  - repeat constructor.
Defined.

(** * The status panel *)

Lemma append_assoc (a b c : string) : (a +:+ b) +:+ c = a +:+ (b +:+ c).
Proof.
  induction a as [|x a IH]; [done|].
  change (String x ((a +:+ b) +:+ c) = String x (a +:+ (b +:+ c))). by rewrite IH.
Qed.

Lemma append_empty_r (a : string) : a +:+ "" = a.
Proof.
  induction a as [|x a IH]; [done|]. change (String x (a +:+ "") = String x a).
  by rewrite IH.
Qed.

Lemma append_empty_l (a : string) : "" +:+ a = a.
Proof. done. Qed.

Lemma foldr_status_lines_fmap {A : Type} (g : A -> Worker) (l : list A) :
  foldr (fun x acc => status_line (g x) +:+ acc) ""
    (filter (fun x => master (g x) = false) l)
  = foldr (fun wk acc => status_line wk +:+ acc) ""
      (filter (fun wk => master wk = false) (g <$> l)).
Proof.
  induction l as [|x l IH]; [done|]. cbn [fmap list_fmap]. rewrite !filter_cons.
  destruct (decide (master (g x) = false)); cbn [foldr]; by rewrite IH.
Qed.

Lemma foldl_status_lines {A : Type} (skip : A -> bool) (line : A -> string) (l : list A) :
  forall s : string,
    foldl (fun acc x => if skip x then acc else acc +:+ line x) s l
    = s +:+ foldr (fun x acc => line x +:+ acc) "" (filter (fun x => skip x = false) l).
Proof.
  induction l as [|x l IH]; intros s; cbn [foldl].
  - cbn. by rewrite append_empty_r.
  - rewrite IH, filter_cons. destruct (skip x) eqn:Hx.
    + by rewrite decide_False by done.
    + rewrite decide_True by done. cbn [foldr]. by rewrite append_assoc.
Qed.

(** The workers behind the references [get_workers] returns are the
    scheduled workers of the registry, in registry order. *)
Lemma get_workers_from_workers (thin : bool) (ws : list Worker) :
  forall (pre : list Worker),
    (fun r => (pre ++ map repaired ws) !!! r) <$> (get_workers_from thin (length pre) ws).1.2
    = filter (fun wk => scheduled thin wk = true) ws.
Proof.
  induction ws as [|wk ws IH]; intros pre; [done|].
  cbn [get_workers_from map]. specialize (IH (pre ++ [repaired wk])).
  rewrite length_app, Nat.add_1_r, <- app_assoc in IH. cbn [app length] in IH.
  destruct (get_workers_from thin (S (length pre)) ws) as [[store filtered] lg].
  cbn [fst snd] in IH. rewrite filter_cons.
  assert (Hs : scheduled thin wk
               = negb (invalid_speed wk) && negb (master wk && thin)
                 && bool_decide (state wk <> UNAVAILABLE)) by done.
  destruct (invalid_speed wk) eqn:Hinv; [by rewrite decide_False by (by rewrite Hs)|].
  destruct (master wk && thin); [by rewrite decide_False by (by rewrite Hs)|].
  destruct (decide (state wk <> UNAVAILABLE)) as [Hst|Hst].
  - rewrite bool_decide_eq_true_2 in Hs by done. rewrite decide_True by done.
    cbn [fst snd fmap list_fmap]. f_equal; [|exact IH].
    rewrite (list_lookup_total_middle pre _ _ (length pre)) by done.
    by apply repaired_of_valid.
  - rewrite bool_decide_eq_false_2 in Hs by done. by rewrite decide_False by (by rewrite Hs).
Qed.

Lemma scheduled_workers (w : World) :
  (fun r => map repaired (workers w) !!! r) <$> scheduled_refs w
  = filter (fun wk => scheduled (thin_client_mode w) wk = true) (workers w).
Proof. apply (get_workers_from_workers (thin_client_mode w) (workers w) []). Qed.

Lemma existsb_Exists {A : Type} (f : A -> bool) (l : list A) :
  existsb f l = bool_decide (Exists (fun x => f x = true) l).
Proof.
  induction l as [|x l IH]; cbn [existsb].
  - symmetry. apply bool_decide_eq_false_2. by intros ?%Exists_nil.
  - rewrite IH. destruct (f x) eqn:Hx; cbn.
    + symmetry. apply bool_decide_eq_true_2. by left.
    + apply bool_decide_ext. rewrite Exists_cons. intuition congruence.
Qed.

(** X28: the status panel lists, one line each and in registration
    order, exactly the registered workers that are scheduled and are not
    the master; as a scheduled worker is not [UNAVAILABLE], no line ever
    reports that state. The jobs text is the text of the world
    when a scheduled worker, the master included, is [WORKING], and
    ['No active jobs!'] otherwise. *)
Theorem status_btn_lists_the_scheduled_remotes
    (world_str : World -> string) (w : World) :
  (status_btn world_str w).1.2.2
  = foldr (fun wk acc => status_line wk +:+ acc) ""
      (filter (fun wk => scheduled (thin_client_mode w) wk = true /\ master wk = false)
         (workers w))
  /\ (status_btn world_str w).1.2.1
     = (if bool_decide (Exists (fun wk => scheduled (thin_client_mode w) wk = true
                                          /\ state wk = WORKING) (workers w))
        then world_str (get_workers w).1.1 else "No active jobs!").
Proof.
  unfold status_btn. destruct (get_workers_eq w) as [log ->]. cbn [fst snd workers set_workers].
  pose proof (scheduled_workers w) as Hsw.
  assert (Hstatus :
    foldl (fun acc r => if master (map repaired (workers w) !!! r) then acc
                        else acc +:+ status_line (map repaired (workers w) !!! r))
      "" (scheduled_refs w)
    = foldr (fun wk acc => status_line wk +:+ acc) ""
        (filter (fun wk => scheduled (thin_client_mode w) wk = true /\ master wk = false)
           (workers w))).
  { rewrite (foldl_status_lines (fun r => master (map repaired (workers w) !!! r))
               (fun r => status_line (map repaired (workers w) !!! r))).
    rewrite append_empty_l, foldr_status_lines_fmap, Hsw.
    rewrite list_filter_filter. f_equal. apply list_filter_iff. tauto. }
  assert (Hworking :
    existsb (fun r => bool_decide (state (map repaired (workers w) !!! r) = WORKING))
      (scheduled_refs w)
    = bool_decide (Exists (fun wk => scheduled (thin_client_mode w) wk = true
                                     /\ state wk = WORKING) (workers w))).
  { rewrite existsb_Exists. apply bool_decide_ext.
    rewrite !Exists_exists. split.
    - intros (r & Hr & Hst%bool_decide_eq_true).
      exists (map repaired (workers w) !!! r). 
      assert (Hin : map repaired (workers w) !!! r
                    ∈ filter (fun wk => scheduled (thin_client_mode w) wk = true)
                        (workers w)).
      { rewrite <- Hsw. by apply (list_elem_of_fmap_2
                                    (fun r => map repaired (workers w) !!! r)). }
      apply list_elem_of_filter in Hin as [Hs Hin]. done.
    - intros (wk & Hwk & Hs & Hst).
      assert (Hin : wk ∈ (fun r => map repaired (workers w) !!! r) <$> scheduled_refs w).
      { rewrite Hsw. by apply list_elem_of_filter. }
      apply list_elem_of_fmap in Hin as (r & -> & Hr). exists r. split; [done|].
      by apply bool_decide_eq_true. }
  split.
  - by destruct (existsb _ (scheduled_refs w)).
  - rewrite <- Hworking. by destruct (existsb _ (scheduled_refs w)).
Qed.
